(** * JUCE-audio-effects: the flanger and the pitch shifter

    A shallow embedding of [Flanger.h] and [PitchShifter.h].

    Conventions of the model:
    - a C++ [int] is a [Z]; [/] and [%] on ints are [Z.quot] and [Z.rem]
      (truncation toward zero), and [%] by zero is an error
      ([DivisionByZero]).  Signed overflow is undefined in C++ and is
      outside the model: a sum of the model is the sum of the code as
      long as it stays within the int range, and a property that promises
      the result of a cursor commit bounds the sum by [INT_MAX];
    - a C++ [float] or [double] is a real number: the arithmetic is exact,
      so rounding is outside the model.  A float division by zero does
      not stop the program: it gives an infinity, or NaN for [0 / 0], and
      [1 / infinity] is 0 ([float_div], [float_inv]).  Where an infinity
      or NaN would be used as a number the model, whose floats are reals,
      cannot follow the code and marks the run [NonFinite]; this is a
      limit of the model and no failure of the code;
    - [static_cast<int>] of a float is truncation toward zero;
    - a [juce::AudioBuffer<float>] is a list of channels, each a list of
      samples; a read or a write outside a channel is an error
      ([OutOfBounds]);
    - a member function is a function from the object's state (a record of
      the class's fields) to a [result] carrying the new state. *)

From Stdlib Require Import ZArith List Reals Lra Lia Bool.
Import ListNotations.

Open Scope R_scope.

(** ** Errors and the error monad *)

Inductive error : Type :=
| DivisionByZero
| OutOfBounds
| NonFinite.

Inductive result (A : Type) : Type :=
| Ok (a : A)
| Err (e : error).

Arguments Ok {A} a.
Arguments Err {A} e.

Definition bind {A B : Type} (m : result A) (f : A -> result B) : result B :=
  match m with
  | Ok a => f a
  | Err e => Err e
  end.

Notation "x <- m ;; k" := (bind m (fun x => k))
  (at level 61, m at next level, right associativity).
Notation "' pat <- m ;; k" := (bind m (fun x => match x with pat => k end))
  (at level 61, pat pattern, m at next level, right associativity).

(** ** Scalars *)

(** The largest [int]. *)
Definition INT_MAX : Z := 2147483647.

(** The value of a float division: a real number when the divisor is not
    zero, an infinity for a nonzero number over zero, NaN for [0 / 0].
    The sign of the infinity is not kept: the code only inverts it. *)
Inductive quotient : Type :=
| Finite (x : R)
| Infinite
| NotANumber.

(** [a / b] on floats. *)
Definition float_div (a b : R) : quotient :=
  if Req_dec_T b 0 then
    if Req_dec_T a 0 then NotANumber else Infinite
  else Finite (a / b).

(** [1 / q] for a quotient [q]: one over an infinity is zero. *)
Definition float_inv (q : quotient) : quotient :=
  match q with
  | Finite x => float_div 1 x
  | Infinite => Finite 0
  | NotANumber => NotANumber
  end.

(** A quotient used as a number. *)
Definition finite (q : quotient) : result R :=
  match q with
  | Finite x => Ok x
  | Infinite | NotANumber => Err NonFinite
  end.

(** A float division whose quotient is used as a number. *)
Definition fdiv (a b : R) : result R := finite (float_div a b).

(** Integer remainder [a % b], guarded. *)
Definition irem (a b : Z) : result Z :=
  if (b =? 0)%Z then Err DivisionByZero else Ok (Z.rem a b).

(** [static_cast<int>(x)]: truncation toward zero. *)
Definition truncate (x : R) : Z :=
  if Rle_dec 0 x then Int_part x else (- Int_part (- x))%Z.

(** [x >= 1] as the condition of an [if]. *)
Definition wrap (p : R) : R :=
  if Rge_dec p 1 then p - 1 else p.

(** ** Arrays and audio buffers *)

Definition zget {A : Type} (l : list A) (i : Z) : result A :=
  if (i <? 0)%Z then Err OutOfBounds
  else match nth_error l (Z.to_nat i) with
       | Some x => Ok x
       | None => Err OutOfBounds
       end.

Fixpoint replace_nth {A : Type} (n : nat) (x : A) (l : list A) : list A :=
  match l, n with
  | [], _ => []
  | _ :: t, O => x :: t
  | h :: t, S n' => h :: replace_nth n' x t
  end.

Definition zset {A : Type} (l : list A) (i : Z) (x : A) : result (list A) :=
  if (i <? 0)%Z then Err OutOfBounds
  else if (Z.to_nat i <? length l)%nat then Ok (replace_nth (Z.to_nat i) x l)
       else Err OutOfBounds.

Definition AudioBuffer : Type := list (list R).

(** [getNumSamples]: all channels of a buffer have the same length. *)
Definition getNumSamples (b : AudioBuffer) : Z :=
  Z.of_nat (length (hd [] b)).

(** [setSize (2, n)] followed by [clear ()]. *)
Definition cleared (numChannels : nat) (n : Z) : AudioBuffer :=
  repeat (repeat 0 (Z.to_nat n)) numChannels.

(** [getSample (channel, i)], and a read through [getReadPointer]. *)
Definition getSample (b : AudioBuffer) (channel i : Z) : result R :=
  c <- zget b channel ;;
  zget c i.

(** [setSample (channel, i, x)], and a write through [getWritePointer]. *)
Definition setSample (b : AudioBuffer) (channel i : Z) (x : R)
  : result AudioBuffer :=
  c <- zget b channel ;;
  c' <- zset c i x ;;
  zset b channel c'.

(** The sample loop of [copyFromWithRamp] when both gains are equal:
    [dest[destStart + i] = source[i] * gain] for [i] from [i0], [n] times.
    The source is a pointer: a base array and an offset into it. *)
Fixpoint copy_samples (n : nat) (i : Z) (dest : list R) (destStart : Z)
    (src : list R) (srcOff : Z) (gain : R) : result (list R) :=
  match n with
  | O => Ok dest
  | S n' =>
      x <- zget src (srcOff + i) ;;
      dest' <- zset dest (destStart + i) (x * gain) ;;
      copy_samples n' (i + 1) dest' destStart src srcOff gain
  end.

(** [copyFromWithRamp (channel, destStart, source, numSamples, gain, gain)]:
    with equal gains it is [copyFrom] with that gain, which touches the
    buffer only when [numSamples] is positive. *)
Definition copyFromWithRamp (b : AudioBuffer) (channel destStart : Z)
    (src : list R) (srcOff : Z) (numSamples : Z) (gain : R)
  : result AudioBuffer :=
  if (numSamples <=? 0)%Z then Ok b
  else
    c <- zget b channel ;;
    c' <- copy_samples (Z.to_nat numSamples) 0 c destStart src srcOff gain ;;
    zset b channel c'.

(** The body shared, word for word, by [Flanger::fillDelaybuffer] and
    [PitchShifter::fillDelaybuffer]; [wp] is [delayBufferWritePosition]. *)
Definition fill_ring (delayBuffer : AudioBuffer) (wp : Z)
    (bufferLength channel delayBufferLength : Z)
    (bufferData : list R) (dataOff : Z) (gain : R) : result AudioBuffer :=
  if (delayBufferLength >? bufferLength + wp)%Z then
    copyFromWithRamp delayBuffer channel wp bufferData dataOff bufferLength gain
  else
    let delayBufferRemaining := (delayBufferLength - wp)%Z in
    b1 <- copyFromWithRamp delayBuffer channel wp bufferData dataOff
            delayBufferRemaining gain ;;
    copyFromWithRamp b1 channel 0 bufferData (dataOff + delayBufferRemaining)
      (bufferLength - delayBufferRemaining) gain.

(** [#define TP_RANGE 0.010] *)
Definition TP_RANGE : R := 10 / 1000.

(** ** Flanger.h *)

Module Flanger.

Record state : Type := mkState {
  sinePhase : list R;
  sinefrequency : R;
  flangerDepth : R;
  feedbackLevel : R;
  sampleRate : R;
  delayBufferWritePosition : Z;
  feedbackBufferWritePosition : Z;
  transposition_range : Z;
  delayBufferSize : Z;
  delayBuffer : AudioBuffer;
  feedbackBuffer : AudioBuffer
}.

Definition with_sinePhase (st : state) (ph : list R) : state :=
  mkState ph (sinefrequency st) (flangerDepth st) (feedbackLevel st)
    (sampleRate st) (delayBufferWritePosition st)
    (feedbackBufferWritePosition st) (transposition_range st)
    (delayBufferSize st) (delayBuffer st) (feedbackBuffer st).

Definition with_delayBuffer (st : state) (b : AudioBuffer) : state :=
  mkState (sinePhase st) (sinefrequency st) (flangerDepth st)
    (feedbackLevel st) (sampleRate st) (delayBufferWritePosition st)
    (feedbackBufferWritePosition st) (transposition_range st)
    (delayBufferSize st) b (feedbackBuffer st).

Definition with_feedbackBuffer (st : state) (b : AudioBuffer) : state :=
  mkState (sinePhase st) (sinefrequency st) (flangerDepth st)
    (feedbackLevel st) (sampleRate st) (delayBufferWritePosition st)
    (feedbackBufferWritePosition st) (transposition_range st)
    (delayBufferSize st) (delayBuffer st) b.

(** The object after its constructor: the member initializers of the
    class.  [transposition_range] and [delayBufferSize] have none, so
    their values are arbitrary; the two buffers have no channel. *)
Definition constructed (tr ds : Z) : state :=
  mkState [0; 0] 0 0 0 44100 0 0 tr ds [] [].

Definition initialize (st : state) (SamplesPerBlockExpected : Z)
    (SampleRate : R) : state :=
  let tr := truncate (TP_RANGE * SampleRate) in
  let ds := (SamplesPerBlockExpected + tr)%Z in
  mkState (sinePhase st) (sinefrequency st) (flangerDepth st)
    (feedbackLevel st) (sampleRate st) (delayBufferWritePosition st)
    (feedbackBufferWritePosition st) tr ds (cleared 2 ds) (cleared 2 ds).

Definition fillDelaybuffer (st : state) (bufferLength channel
    delayBufferLength : Z) (bufferData : list R) (dataOff : Z) (gain : R)
  : result state :=
  b <- fill_ring (delayBuffer st) (delayBufferWritePosition st)
         bufferLength channel delayBufferLength bufferData dataOff gain ;;
  Ok (with_delayBuffer st b).

Definition lfo_sinewave (st : state) (maxDelayInSamples channel : Z)
  : result (state * R) :=
  p <- zget (sinePhase st) channel ;;
  inc <- fdiv (sinefrequency st) (sampleRate st) ;;
  ph1 <- zset (sinePhase st) channel (p + inc) ;;
  ph2 <- (if Rge_dec (p + inc) 1 then zset ph1 channel (p + inc - 1)
          else Ok ph1) ;;
  q <- zget ph2 channel ;;
  Ok (with_sinePhase st ph2,
      IZR (Z.quot maxDelayInSamples 2) * (sin (2 * PI * q) + 1)).

(** The body of the [for] loop of [process], for one value of [sample];
    [size] is the local [delayBufferSize] of [process]. *)
Definition process_sample (startSample maxDelayInSamples channel : Z)
    (DeviceGain : R) (size : Z) (sample : Z)
    (s : state * AudioBuffer) : result (state * AudioBuffer) :=
  let '(st, inbuffer) := s in
  '(st1, delayTime) <- lfo_sinewave st maxDelayInSamples channel ;;
  let delayTimeInSamples := truncate delayTime in
  let fractionalDelay := delayTime - IZR delayTimeInSamples in
  let wp := delayBufferWritePosition st1 in
  readPosition1 <- irem (size + wp - delayTimeInSamples) size ;;
  readPosition2 <- irem (size + wp - delayTimeInSamples - 1) size ;;
  i1 <- irem (readPosition1 + sample) size ;;
  i2 <- irem (readPosition2 + sample) size ;;
  d1 <- getSample (delayBuffer st1) channel (startSample + i1) ;;
  d2 <- getSample (delayBuffer st1) channel (startSample + i2) ;;
  f1 <- getSample (feedbackBuffer st1) channel (startSample + i1) ;;
  f2 <- getSample (feedbackBuffer st1) channel (startSample + i2) ;;
  output <-
    (if Req_dec_T (feedbackLevel st1) 0 then
       x <- getSample inbuffer channel (startSample + sample) ;;
       Ok (x + flangerDepth st1
               * ((1 - fractionalDelay) * d1 + fractionalDelay * d2)
             + feedbackLevel st1
               * ((1 - fractionalDelay) * f1 + fractionalDelay * f2))
     else
       Ok (flangerDepth st1
             * ((1 - fractionalDelay) * d1 + fractionalDelay * d2)
           + feedbackLevel st1
             * ((1 - fractionalDelay) * f1 + fractionalDelay * f2))) ;;
  fi <- irem (feedbackBufferWritePosition st1 + sample) size ;;
  fb <- setSample (feedbackBuffer st1) channel fi output ;;
  inbuffer' <- setSample inbuffer channel (startSample + sample)
                 (DeviceGain * output) ;;
  Ok (with_feedbackBuffer st1 fb, inbuffer').

(** [for (auto sample = 0; sample < numSamples; ++sample)], started at
    [sample] with [n] iterations left. *)
Fixpoint process_loop (n : nat) (startSample maxDelayInSamples channel : Z)
    (DeviceGain : R) (size : Z) (sample : Z)
    (s : state * AudioBuffer) : result (state * AudioBuffer) :=
  match n with
  | O => Ok s
  | S n' =>
      s' <- process_sample startSample maxDelayInSamples channel DeviceGain
              size sample s ;;
      process_loop n' startSample maxDelayInSamples channel DeviceGain size
        (sample + 1) s'
  end.

(** [process] works in place: it returns the state and the input buffer,
    whose samples [startSample ..] of [channel] it has overwritten. *)
Definition process (st : state) (inbuffer : AudioBuffer)
    (startSample numSamples maxDelayInSamples channel : Z)
    (DeviceGain : R) : result (state * AudioBuffer) :=
  readBuffer <- zget inbuffer channel ;;
  let size := getNumSamples (delayBuffer st) in
  st0 <- fillDelaybuffer st (getNumSamples inbuffer) channel size
           readBuffer startSample 1 ;;
  process_loop (Z.to_nat numSamples) startSample maxDelayInSamples channel
    DeviceGain size 0 (st0, inbuffer).

(** [delayBufferWritePosition += numsamplesInBuffer;
    delayBufferWritePosition %= delayBufferSize].  The sum is taken in
    [Z]: it is the int sum of the code as long as it lies within the int
    range, and the properties of the commits are stated within it. *)
Definition adjustDelayBufferWritePosition (st : state)
    (numsamplesInBuffer : Z) : result state :=
  wp <- irem (delayBufferWritePosition st + numsamplesInBuffer)
          (delayBufferSize st) ;;
  Ok (mkState (sinePhase st) (sinefrequency st) (flangerDepth st)
        (feedbackLevel st) (sampleRate st) wp
        (feedbackBufferWritePosition st) (transposition_range st)
        (delayBufferSize st) (delayBuffer st) (feedbackBuffer st)).

Definition adjustFeedBackBufferWritePosition (st : state)
    (numsamplesInBuffer : Z) : result state :=
  wp <- irem (feedbackBufferWritePosition st + numsamplesInBuffer)
          (delayBufferSize st) ;;
  Ok (mkState (sinePhase st) (sinefrequency st) (flangerDepth st)
        (feedbackLevel st) (sampleRate st) (delayBufferWritePosition st)
        wp (transposition_range st)
        (delayBufferSize st) (delayBuffer st) (feedbackBuffer st)).

Definition setDepth (st : state) (depth : R) : state :=
  mkState (sinePhase st) (sinefrequency st) depth (feedbackLevel st)
    (sampleRate st) (delayBufferWritePosition st)
    (feedbackBufferWritePosition st) (transposition_range st)
    (delayBufferSize st) (delayBuffer st) (feedbackBuffer st).

Definition setFeedback (st : state) (feedback : R) : state :=
  mkState (sinePhase st) (sinefrequency st) (flangerDepth st) feedback
    (sampleRate st) (delayBufferWritePosition st)
    (feedbackBufferWritePosition st) (transposition_range st)
    (delayBufferSize st) (delayBuffer st) (feedbackBuffer st).

Definition setLFO (st : state) (rate : R) : state :=
  mkState (sinePhase st) rate (flangerDepth st) (feedbackLevel st)
    (sampleRate st) (delayBufferWritePosition st)
    (feedbackBufferWritePosition st) (transposition_range st)
    (delayBufferSize st) (delayBuffer st) (feedbackBuffer st).

End Flanger.

(** ** PitchShifter.h *)

Module PitchShifter.

Record state : Type := mkState {
  sawtoothPhase1 : list R;
  sawtoothPhase2 : list R;
  sawtoothFrequency : R;
  sampleRate : R;
  delayBufferWritePosition : Z;
  transposition_range : Z;
  delayBufferSize : Z;
  pitchUporDown : bool;
  delayBuffer : AudioBuffer
}.

Definition with_sawtoothPhase1 (st : state) (ph : list R) : state :=
  mkState ph (sawtoothPhase2 st) (sawtoothFrequency st) (sampleRate st)
    (delayBufferWritePosition st) (transposition_range st)
    (delayBufferSize st) (pitchUporDown st) (delayBuffer st).

Definition with_sawtoothPhase2 (st : state) (ph : list R) : state :=
  mkState (sawtoothPhase1 st) ph (sawtoothFrequency st) (sampleRate st)
    (delayBufferWritePosition st) (transposition_range st)
    (delayBufferSize st) (pitchUporDown st) (delayBuffer st).

Definition with_delayBuffer (st : state) (b : AudioBuffer) : state :=
  mkState (sawtoothPhase1 st) (sawtoothPhase2 st) (sawtoothFrequency st)
    (sampleRate st) (delayBufferWritePosition st) (transposition_range st)
    (delayBufferSize st) (pitchUporDown st) b.

(** The object after its constructor: the member initializers of the
    class.  [transposition_range] and [delayBufferSize] have none, so
    their values are arbitrary; the delay buffer has no channel. *)
Definition constructed (tr ds : Z) : state :=
  mkState [0; 0] [5 / 10; 5 / 10] 0 44100 0 tr ds false [].

Definition initialize (st : state) (SamplesPerBlockExpected : Z)
    (SampleRate : R) : state :=
  let tr := truncate (TP_RANGE * SampleRate) in
  let ds := (SamplesPerBlockExpected + tr)%Z in
  mkState (sawtoothPhase1 st) (sawtoothPhase2 st) (sawtoothFrequency st)
    (sampleRate st) (delayBufferWritePosition st) tr ds (pitchUporDown st)
    (cleared 2 ds).

Definition fillDelaybuffer (st : state) (bufferLength channel
    delayBufferLength : Z) (bufferData : list R) (dataOff : Z) (gain : R)
  : result state :=
  b <- fill_ring (delayBuffer st) (delayBufferWritePosition st)
         bufferLength channel delayBufferLength bufferData dataOff gain ;;
  Ok (with_delayBuffer st b).

(** The ramp value returned by both sawtooth modulators for the phase [p]. *)
Definition ramp (pitchUporDown : bool) (maxDelayInSamples : Z) (p : R) : R :=
  if pitchUporDown then IZR maxDelayInSamples * (1 - p)
  else IZR maxDelayInSamples * p.

Definition sawtooth1 (st : state) (maxDelayInSamples channel : Z)
  : result (state * R) :=
  let samplespercycle := float_div (sampleRate st) (sawtoothFrequency st) in
  inc <- finite (float_inv samplespercycle) ;;
  p <- zget (sawtoothPhase1 st) channel ;;
  ph1 <- zset (sawtoothPhase1 st) channel (p + inc) ;;
  ph2 <- (if Rge_dec (p + inc) 1 then zset ph1 channel (p + inc - 1)
          else Ok ph1) ;;
  q <- zget ph2 channel ;;
  Ok (with_sawtoothPhase1 st ph2,
      ramp (pitchUporDown st) maxDelayInSamples q).

Definition sawtooth2 (st : state) (maxDelayInSamples channel : Z)
  : result (state * R) :=
  let samplespercycle := float_div (sampleRate st) (sawtoothFrequency st) in
  inc <- finite (float_inv samplespercycle) ;;
  p <- zget (sawtoothPhase2 st) channel ;;
  ph1 <- zset (sawtoothPhase2 st) channel (p + inc) ;;
  ph2 <- (if Rge_dec (p + inc) 1 then zset ph1 channel (p + inc - 1)
          else Ok ph1) ;;
  q <- zget ph2 channel ;;
  Ok (with_sawtoothPhase2 st ph2,
      ramp (pitchUporDown st) maxDelayInSamples q).

(** The body of the [for] loop of [process], for one value of [sample];
    [size] is the local [delayBufferSize] of [process]. *)
Definition process_sample (startSample maxDelayInSamples channel : Z)
    (deviceGain : R) (size : Z) (sample : Z)
    (s : state * AudioBuffer) : result (state * AudioBuffer) :=
  let '(st, inbuffer) := s in
  '(st1, delaySamples1) <- sawtooth1 st maxDelayInSamples channel ;;
  '(st2, delaySamples2) <- sawtooth2 st1 maxDelayInSamples channel ;;
  let delayTime1 := truncate delaySamples1 in
  let delayTime2 := truncate delaySamples2 in
  let wp := delayBufferWritePosition st2 in
  readPosition1 <- irem (size + wp - delayTime1) size ;;
  readPosition2 <- irem (size + wp - delayTime2) size ;;
  a1 <- fdiv (PI * delaySamples1) (IZR maxDelayInSamples) ;;
  let gain1 := sin a1 in
  a2 <- fdiv (PI * delaySamples2) (IZR maxDelayInSamples) ;;
  let gain2 := sin a2 in
  i1 <- irem (readPosition1 + sample) size ;;
  i2 <- irem (readPosition2 + sample) size ;;
  d1 <- getSample (delayBuffer st2) channel (startSample + i1) ;;
  d2 <- getSample (delayBuffer st2) channel (startSample + i2) ;;
  inbuffer' <- setSample inbuffer channel (startSample + sample)
                 (deviceGain * (gain1 * d1 + gain2 * d2)) ;;
  Ok (st2, inbuffer').

Fixpoint process_loop (n : nat) (startSample maxDelayInSamples channel : Z)
    (deviceGain : R) (size : Z) (sample : Z)
    (s : state * AudioBuffer) : result (state * AudioBuffer) :=
  match n with
  | O => Ok s
  | S n' =>
      s' <- process_sample startSample maxDelayInSamples channel deviceGain
              size sample s ;;
      process_loop n' startSample maxDelayInSamples channel deviceGain size
        (sample + 1) s'
  end.

(** [process] works in place: it returns the state and the input buffer,
    whose samples [startSample ..] of [channel] it has overwritten. *)
Definition process (st : state) (inbuffer : AudioBuffer)
    (startSample numSamples maxDelayInSamples channel : Z)
    (deviceGain : R) : result (state * AudioBuffer) :=
  readBuffer <- zget inbuffer channel ;;
  let size := getNumSamples (delayBuffer st) in
  st0 <- fillDelaybuffer st (getNumSamples inbuffer) channel size
           readBuffer startSample 1 ;;
  process_loop (Z.to_nat numSamples) startSample maxDelayInSamples channel
    deviceGain size 0 (st0, inbuffer).

(** As in the flanger; the sum is the int sum of the code as long as it
    lies within the int range. *)
Definition adjustDelayBufferWritePosition (st : state)
    (numsamplesInBuffer : Z) : result state :=
  wp <- irem (delayBufferWritePosition st + numsamplesInBuffer)
          (delayBufferSize st) ;;
  Ok (mkState (sawtoothPhase1 st) (sawtoothPhase2 st) (sawtoothFrequency st)
        (sampleRate st) wp (transposition_range st) (delayBufferSize st)
        (pitchUporDown st) (delayBuffer st)).

Definition setUp (st : state) : state :=
  mkState (sawtoothPhase1 st) (sawtoothPhase2 st) (sawtoothFrequency st)
    (sampleRate st) (delayBufferWritePosition st) (transposition_range st)
    (delayBufferSize st) true (delayBuffer st).

Definition setDown (st : state) : state :=
  mkState (sawtoothPhase1 st) (sawtoothPhase2 st) (sawtoothFrequency st)
    (sampleRate st) (delayBufferWritePosition st) (transposition_range st)
    (delayBufferSize st) false (delayBuffer st).

Definition setLevel (st : state) (rate : R) : state :=
  mkState (sawtoothPhase1 st) (sawtoothPhase2 st) rate
    (sampleRate st) (delayBufferWritePosition st) (transposition_range st)
    (delayBufferSize st) (pitchUporDown st) (delayBuffer st).

End PitchShifter.

(** ** Notions used to state the properties *)

(** One advance of a modulator phase: add the increment, wrap at 1. *)
Definition advance_phase (inc p : R) : R := wrap (p + inc).

(** The phase after [n] advances. *)
Definition phase_after (inc : R) (n : nat) (p : R) : R :=
  Nat.iter n (advance_phase inc) p.

(** The sample of a delay line of [capacity] cells that lies [offset]
    cells behind the cell [cursor]. *)
Definition readAt (line : list R) (capacity cursor offset : Z) : result R :=
  zget line ((cursor - offset) mod capacity)%Z.

(** Two phases are in anti-phase: they differ by a half, modulo 1. *)
Definition antiphase (p1 p2 : R) : Prop :=
  exists k : Z, p2 - p1 = 5 / 10 + IZR k.

Definition all_zero (b : AudioBuffer) : Prop :=
  Forall (Forall (fun x => x = 0)) b.


(** The same for a pitch shifter: constructed, then any calls of
    [initialize], [setUp], [setDown], [setLevel], the cursor commit and
    [process].  [fillDelaybuffer], [sawtooth1] and [sawtooth2] are public
    in the class as well; they are the steps of [process], which always
    advances the two sawtooth phases together.  A call of [sawtooth1] or
    [sawtooth2] on its own advances one phase only and is not part of
    this relation. *)
Inductive shifter_reachable : PitchShifter.state -> Prop :=
| sr_constructed tr ds :
    shifter_reachable (PitchShifter.constructed tr ds)
| sr_initialize st spb sr :
    shifter_reachable st ->
    shifter_reachable (PitchShifter.initialize st spb sr)
| sr_setUp st :
    shifter_reachable st -> shifter_reachable (PitchShifter.setUp st)
| sr_setDown st :
    shifter_reachable st -> shifter_reachable (PitchShifter.setDown st)
| sr_setLevel st x :
    shifter_reachable st -> shifter_reachable (PitchShifter.setLevel st x)
| sr_adjustDelay st n st' :
    shifter_reachable st ->
    PitchShifter.adjustDelayBufferWritePosition st n = Ok st' ->
    shifter_reachable st'
| sr_process st inb start n md ch g st' inb' :
    shifter_reachable st ->
    PitchShifter.process st inb start n md ch g = Ok (st', inb') ->
    shifter_reachable st'.

(** The states of a pitch shifter that was initialized and has since been
    fed all-zero blocks only, with any parameter changes and cursor commits
    in between. *)
Inductive silent_run : PitchShifter.state -> Prop :=
| sl_initialize tr ds spb sr :
    silent_run (PitchShifter.initialize (PitchShifter.constructed tr ds) spb sr)
| sl_setUp st :
    silent_run st -> silent_run (PitchShifter.setUp st)
| sl_setDown st :
    silent_run st -> silent_run (PitchShifter.setDown st)
| sl_setLevel st x :
    silent_run st -> silent_run (PitchShifter.setLevel st x)
| sl_adjustDelay st n st' :
    silent_run st ->
    PitchShifter.adjustDelayBufferWritePosition st n = Ok st' ->
    silent_run st'
| sl_process st inb start n md ch g st' inb' :
    silent_run st ->
    all_zero inb ->
    PitchShifter.process st inb start n md ch g = Ok (st', inb') ->
    silent_run st'.

(** The increment [1 / (sampleRate / sawtoothFrequency)] of a sawtooth.
    At the frequency 0 the code computes one over an infinity, which is 0;
    the expression is 0 there as well ([sawtooth_increment_zero]), the
    reals of the library having [x / 0 = 0]. *)
Definition sawtooth_increment (st : PitchShifter.state) : R :=
  1 / (PitchShifter.sampleRate st / PitchShifter.sawtoothFrequency st).

(** The delay time of the sine modulator at the phase [q]. *)
Definition lfo_value (maxDelayInSamples : Z) (q : R) : R :=
  IZR (Z.quot maxDelayInSamples 2) * (sin (2 * PI * q) + 1).

(** Linear interpolation between [a] and [b] with the weight [f] on [b]. *)
Definition blend (f a b : R) : R := (1 - f) * a + f * b.

(** On every channel the two sawtooth phases are in anti-phase. *)
Definition phases_antiphase (st : PitchShifter.state) : Prop :=
  forall ch p1 p2,
    zget (PitchShifter.sawtoothPhase1 st) ch = Ok p1 ->
    zget (PitchShifter.sawtoothPhase2 st) ch = Ok p2 ->
    antiphase p1 p2.

(** The effect of a block write on one channel of the ring: [line] before,
    [line'] after, for [len] samples of [data] from the offset [off]. *)
Definition block_written (line line' data : list R) (wp len size off : Z)
    (gain : R) : Prop :=
  Z.of_nat (length line') = size /\
  (forall i, (0 <= i < len)%Z ->
     exists x, zget data (off + i) = Ok x /\
               zget line' ((wp + i) mod size) = Ok (x * gain)) /\
  (forall j, (forall i, (0 <= i < len)%Z -> j <> ((wp + i) mod size)%Z) ->
     zget line' j = zget line j).

(** The samples [lo <= i < hi] of the block are at the cells [dest + i]. *)
Definition piece (line' data : list R) (lo hi dest off : Z) (gain : R)
  : Prop :=
  forall i, (lo <= i < hi)%Z ->
    exists x, zget data (off + i) = Ok x /\
              zget line' (dest + i) = Ok (x * gain).

(** What the sample loop of the flanger leaves alone. *)
Definition flanger_frame (st st' : Flanger.state) : Prop :=
  Flanger.sinefrequency st' = Flanger.sinefrequency st /\
  Flanger.flangerDepth st' = Flanger.flangerDepth st /\
  Flanger.feedbackLevel st' = Flanger.feedbackLevel st /\
  Flanger.sampleRate st' = Flanger.sampleRate st /\
  Flanger.delayBufferWritePosition st' = Flanger.delayBufferWritePosition st /\
  Flanger.feedbackBufferWritePosition st'
  = Flanger.feedbackBufferWritePosition st /\
  Flanger.transposition_range st' = Flanger.transposition_range st /\
  Flanger.delayBufferSize st' = Flanger.delayBufferSize st /\
  Flanger.delayBuffer st' = Flanger.delayBuffer st.

(** What the sample loop of the pitch shifter leaves alone. *)
Definition shifter_frame (st st' : PitchShifter.state) : Prop :=
  PitchShifter.sawtoothFrequency st' = PitchShifter.sawtoothFrequency st /\
  PitchShifter.sampleRate st' = PitchShifter.sampleRate st /\
  PitchShifter.delayBufferWritePosition st'
  = PitchShifter.delayBufferWritePosition st /\
  PitchShifter.transposition_range st' = PitchShifter.transposition_range st /\
  PitchShifter.delayBufferSize st' = PitchShifter.delayBufferSize st /\
  PitchShifter.pitchUporDown st' = PitchShifter.pitchUporDown st /\
  PitchShifter.delayBuffer st' = PitchShifter.delayBuffer st.

(** ** Concrete objects on which the properties are exercised *)

(** A flanger with two channels of two cells, depth 0.5, no feedback and
    the rate 0. *)
Definition flanger_example : Flanger.state :=
  Flanger.mkState [0; 0] 0 (5 / 10) 0 44100 0 0 0 2
    [[0; 0]; [0; 0]] [[0; 0]; [0; 0]].

(** [flanger_example] after [setLFO (-11025)]. *)
Definition flanger_negative_rate : Flanger.state :=
  Flanger.setLFO flanger_example (- 11025).


(** The pitch shifter after [initialize (1, 100)], before any [setLevel]:
    the transposition range is 1 and the delay buffer has two cells. *)
Definition shifter_fresh : PitchShifter.state :=
  PitchShifter.mkState [0; 0] [5 / 10; 5 / 10] 0 44100 0 1 2 false
    [[0; 0]; [0; 0]].

(** [shifter_fresh] after [setLevel (11025)]: the increment is a quarter. *)
Definition shifter_example : PitchShifter.state :=
  PitchShifter.mkState [0; 0] [5 / 10; 5 / 10] 11025 44100 0 1 2 false
    [[0; 0]; [0; 0]].

(** A block with the samples 1, 2 on channel 0, and a silent block. *)
Definition flanger_input : AudioBuffer := [[1; 2]; [0; 0]].

Definition silent_input : AudioBuffer := [[0; 0]; [0; 0]].

(** [shifter_example] after the block write of [flanger_input]. *)
Definition shifter_filled : PitchShifter.state :=
  PitchShifter.mkState [0; 0] [5 / 10; 5 / 10] 11025 44100 0 1 2 false
    [[1 * 1; 2 * 1]; [0; 0]].

(** [shifter_example] after the block write of [silent_input]. *)
Definition shifter_silent_filled : PitchShifter.state :=
  PitchShifter.mkState [0; 0] [5 / 10; 5 / 10] 11025 44100 0 1 2 false
    [[0 * 1; 0 * 1]; [0; 0]].

(** ** Shapes and caller contracts *)

(** A buffer of [channels] channels of [size] samples each. *)
Definition shape (b : AudioBuffer) (channels : nat) (size : Z) : Prop :=
  length b = channels /\
  Forall (fun c => Z.of_nat (length c) = size) b.

(** The channel [ch] of [b] exists and holds [size] samples. *)
Definition has_line (b : AudioBuffer) (ch size : Z) : Prop :=
  exists line, zget b ch = Ok line /\ Z.of_nat (length line) = size.

(** An input block of [len] samples with the channel [ch]. *)
Definition block_ready (inb : AudioBuffer) (ch len : Z) : Prop :=
  getNumSamples inb = len /\ has_line inb ch len.

(** A flanger on which [process] can run for the channel [ch]: both ring
    buffers hold [size] cells, [size] is also the field [delayBufferSize],
    the channel has a phase, and the cursors are in place. *)
Definition flanger_ready (st : Flanger.state) (ch size : Z) : Prop :=
  (0 < size)%Z /\
  Flanger.delayBufferSize st = size /\
  getNumSamples (Flanger.delayBuffer st) = size /\
  has_line (Flanger.delayBuffer st) ch size /\
  has_line (Flanger.feedbackBuffer st) ch size /\
  (exists p, zget (Flanger.sinePhase st) ch = Ok p) /\
  Flanger.sampleRate st <> 0 /\
  (0 <= Flanger.delayBufferWritePosition st < size)%Z /\
  (0 <= Flanger.feedbackBufferWritePosition st < size)%Z.

(** A pitch shifter on which [process] can run for the channel [ch]: as for
    the flanger, and both phases of the channel are in [0, 1) with a rate
    that moves them by less than a cycle per sample. *)
Definition shifter_ready (st : PitchShifter.state) (ch size : Z) : Prop :=
  (0 < size)%Z /\
  PitchShifter.delayBufferSize st = size /\
  getNumSamples (PitchShifter.delayBuffer st) = size /\
  has_line (PitchShifter.delayBuffer st) ch size /\
  (exists p, zget (PitchShifter.sawtoothPhase1 st) ch = Ok p /\ 0 <= p < 1) /\
  (exists p, zget (PitchShifter.sawtoothPhase2 st) ch = Ok p /\ 0 <= p < 1) /\
  0 < PitchShifter.sawtoothFrequency st < PitchShifter.sampleRate st /\
  (0 <= PitchShifter.delayBufferWritePosition st < size)%Z.

(** As [shifter_ready], but the frequency may still be 0, as it is until
    the first [setLevel]. *)
Definition shifter_runnable (st : PitchShifter.state) (ch size : Z) : Prop :=
  (0 < size)%Z /\
  PitchShifter.delayBufferSize st = size /\
  getNumSamples (PitchShifter.delayBuffer st) = size /\
  has_line (PitchShifter.delayBuffer st) ch size /\
  (exists p, zget (PitchShifter.sawtoothPhase1 st) ch = Ok p /\ 0 <= p < 1) /\
  (exists p, zget (PitchShifter.sawtoothPhase2 st) ch = Ok p /\ 0 <= p < 1) /\
  0 <= PitchShifter.sawtoothFrequency st < PitchShifter.sampleRate st /\
  (0 <= PitchShifter.delayBufferWritePosition st < size)%Z.

(** The states of a flanger that was initialized and has since been fed
    all-zero blocks only. *)
Inductive flanger_silent_run : Flanger.state -> Prop :=
| fs_initialize st spb sr :
    flanger_silent_run (Flanger.initialize st spb sr)
| fs_setDepth st x :
    flanger_silent_run st -> flanger_silent_run (Flanger.setDepth st x)
| fs_setFeedback st x :
    flanger_silent_run st -> flanger_silent_run (Flanger.setFeedback st x)
| fs_setLFO st x :
    flanger_silent_run st -> flanger_silent_run (Flanger.setLFO st x)
| fs_adjustDelay st n st' :
    flanger_silent_run st ->
    Flanger.adjustDelayBufferWritePosition st n = Ok st' ->
    flanger_silent_run st'
| fs_adjustFeedBack st n st' :
    flanger_silent_run st ->
    Flanger.adjustFeedBackBufferWritePosition st n = Ok st' ->
    flanger_silent_run st'
| fs_process st inb start n md ch g st' inb' :
    flanger_silent_run st ->
    all_zero inb ->
    Flanger.process st inb start n md ch g = Ok (st', inb') ->
    flanger_silent_run st'.

(** * Properties *)

(** ** The error monad, arrays *)

Lemma bind_Ok {A B : Type} (m : result A) (f : A -> result B) (b : B) :
  bind m f = Ok b -> exists a, m = Ok a /\ f a = Ok b.
Proof.
  destruct m as [a|e]; simpl; intros H; [eauto | discriminate].
Qed.

Ltac inv_bind H :=
  let a := fresh "v" in
  let Ha := fresh "E" in
  apply bind_Ok in H; destruct H as [a [Ha H]].

Ltac inv_Ok H := injection H as H; subst.

Lemma float_div_nonzero (a b : R) : b <> 0 -> float_div a b = Finite (a / b).
Proof.
  intros H. unfold float_div.
  destruct (Req_dec_T b 0); [contradiction | reflexivity].
Qed.

Lemma float_div_zero (a : R) : a <> 0 -> float_div a 0 = Infinite.
Proof.
  intros H. unfold float_div.
  destruct (Req_dec_T 0 0); [|contradiction].
  destruct (Req_dec_T a 0); [contradiction | reflexivity].
Qed.

Lemma fdiv_Ok (a b q : R) : fdiv a b = Ok q -> b <> 0 /\ q = a / b.
Proof.
  unfold fdiv, float_div. destruct (Req_dec_T b 0); intros H.
  - destruct (Req_dec_T a 0); discriminate.
  - simpl in H. inv_Ok H. auto.
Qed.

Lemma fdiv_nonzero (a b : R) : b <> 0 -> fdiv a b = Ok (a / b).
Proof.
  intros H. unfold fdiv. now rewrite float_div_nonzero.
Qed.

Lemma fdiv_zero (a : R) : fdiv a 0 = Err NonFinite.
Proof.
  unfold fdiv, float_div. destruct (Req_dec_T 0 0); [|contradiction].
  destruct (Req_dec_T a 0); reflexivity.
Qed.

Lemma irem_Ok (a b r : Z) : irem a b = Ok r -> b <> 0%Z /\ r = Z.rem a b.
Proof.
  unfold irem. destruct (Z.eqb_spec b 0); intros H; [discriminate|].
  inv_Ok H. auto.
Qed.

Lemma irem_nonzero (a b : Z) : b <> 0%Z -> irem a b = Ok (Z.rem a b).
Proof.
  intros H. unfold irem. destruct (Z.eqb_spec b 0); [contradiction | reflexivity].
Qed.

Lemma zget_Ok {A : Type} (l : list A) (i : Z) (x : A) :
  zget l i = Ok x <-> (0 <= i)%Z /\ nth_error l (Z.to_nat i) = Some x.
Proof.
  unfold zget. destruct (Z.ltb_spec i 0).
  - split; [discriminate | lia].
  - destruct (nth_error l (Z.to_nat i)) eqn:E; split; intros H1.
    + inv_Ok H1. auto.
    + destruct H1 as [_ H1]. congruence.
    + discriminate.
    + destruct H1 as [_ H1]. discriminate.
Qed.

Lemma zget_bounds {A : Type} (l : list A) (i : Z) (x : A) :
  zget l i = Ok x -> (0 <= i < Z.of_nat (length l))%Z.
Proof.
  intros H. apply zget_Ok in H. destruct H as [H0 H].
  assert (Z.to_nat i < length l)%nat by (apply nth_error_Some; congruence).
  lia.
Qed.

Lemma zget_in_range {A : Type} (l : list A) (i : Z) :
  (0 <= i < Z.of_nat (length l))%Z -> exists x, zget l i = Ok x.
Proof.
  intros H. destruct (nth_error l (Z.to_nat i)) eqn:E.
  - exists a. apply zget_Ok. split; [lia | assumption].
  - apply nth_error_None in E. lia.
Qed.

Lemma length_replace_nth {A : Type} (n : nat) (x : A) (l : list A) :
  length (replace_nth n x l) = length l.
Proof.
  revert n. induction l as [|h t IH]; intros [|n]; simpl; auto.
Qed.

Lemma nth_error_replace_nth_same {A : Type} (n : nat) (x : A) (l : list A) :
  (n < length l)%nat -> nth_error (replace_nth n x l) n = Some x.
Proof.
  revert n. induction l as [|h t IH]; intros [|n]; simpl; intros H;
    try lia; auto. apply IH. lia.
Qed.

Lemma nth_error_replace_nth_other {A : Type} (n m : nat) (x : A) (l : list A) :
  n <> m -> nth_error (replace_nth n x l) m = nth_error l m.
Proof.
  revert n m. induction l as [|h t IH]; intros [|n] [|m]; simpl; intros H;
    auto; try congruence.
Qed.

Lemma replace_nth_twice {A : Type} (n : nat) (x y : A) (l : list A) :
  replace_nth n y (replace_nth n x l) = replace_nth n y l.
Proof.
  revert n. induction l as [|h t IH]; intros [|n]; simpl; auto.
  now rewrite IH.
Qed.

Lemma zset_Ok {A : Type} (l l' : list A) (i : Z) (x : A) :
  zset l i x = Ok l' <->
  (0 <= i < Z.of_nat (length l))%Z /\ l' = replace_nth (Z.to_nat i) x l.
Proof.
  unfold zset. destruct (Z.ltb_spec i 0).
  - split; [discriminate | lia].
  - destruct (Nat.ltb_spec (Z.to_nat i) (length l)); split; intros H1.
    + inv_Ok H1. split; [lia | reflexivity].
    + destruct H1 as [_ ->]. reflexivity.
    + discriminate.
    + lia.
Qed.

Lemma zset_in_range {A : Type} (l : list A) (i : Z) (x : A) :
  (0 <= i < Z.of_nat (length l))%Z ->
  zset l i x = Ok (replace_nth (Z.to_nat i) x l).
Proof.
  intros H. apply zset_Ok. auto.
Qed.

Lemma zset_length {A : Type} (l l' : list A) (i : Z) (x : A) :
  zset l i x = Ok l' -> length l' = length l.
Proof.
  intros H. apply zset_Ok in H. destruct H as [_ ->].
  apply length_replace_nth.
Qed.

Lemma zget_zset_same {A : Type} (l l' : list A) (i : Z) (x : A) :
  zset l i x = Ok l' -> zget l' i = Ok x.
Proof.
  intros H. apply zset_Ok in H. destruct H as [Hi ->].
  apply zget_Ok. split; [lia|].
  apply nth_error_replace_nth_same. lia.
Qed.

Lemma zget_zset_other {A : Type} (l l' : list A) (i j : Z) (x : A) :
  zset l i x = Ok l' -> j <> i -> zget l' j = zget l j.
Proof.
  intros H Hj. apply zset_Ok in H. destruct H as [Hi ->].
  unfold zget. destruct (Z.ltb_spec j 0); [reflexivity|].
  rewrite nth_error_replace_nth_other; [reflexivity | lia].
Qed.

Lemma mod_once (a s : Z) :
  (s <= a < 2 * s)%Z -> (a mod s = a - s)%Z.
Proof.
  intros H. replace a with (a - s + 1 * s)%Z at 1 by ring.
  rewrite Z.mod_add by lia. apply Z.mod_small. lia.
Qed.

Lemma setSample_Ok (b b' : AudioBuffer) (ch i : Z) (x : R) :
  setSample b ch i x = Ok b' ->
  exists line line',
    zget b ch = Ok line /\ zset line i x = Ok line' /\ zset b ch line' = Ok b'.
Proof.
  unfold setSample. intros H. inv_bind H. inv_bind H. eauto.
Qed.

Lemma getSample_setSample_same (b b' : AudioBuffer) (ch i : Z) (x : R) :
  setSample b ch i x = Ok b' -> getSample b' ch i = Ok x.
Proof.
  intros H. apply setSample_Ok in H. destruct H as (l & l' & _ & H1 & H2).
  unfold getSample. rewrite (zget_zset_same _ _ _ _ H2). simpl.
  eapply zget_zset_same; eauto.
Qed.

Lemma getSample_setSample_other (b b' : AudioBuffer) (ch i ch' j : Z) (x : R) :
  setSample b ch i x = Ok b' -> ch' <> ch \/ j <> i ->
  getSample b' ch' j = getSample b ch' j.
Proof.
  intros H Hne. apply setSample_Ok in H. destruct H as (l & l' & H0 & H1 & H2).
  unfold getSample. destruct (Z.eq_dec ch' ch) as [->|Hc].
  - rewrite (zget_zset_same _ _ _ _ H2), H0. simpl.
    eapply zget_zset_other; eauto. destruct Hne; congruence.
  - rewrite (zget_zset_other _ _ _ _ _ H2 Hc). reflexivity.
Qed.

(** ** Block copies *)

Lemma copy_samples_spec (src : list R) (srcOff destStart : Z) (gain : R) :
  forall (n : nat) (i : Z) (dest : list R),
    (0 <= srcOff + i)%Z ->
    (srcOff + i + Z.of_nat n <= Z.of_nat (length src))%Z ->
    (0 <= destStart + i)%Z ->
    (destStart + i + Z.of_nat n <= Z.of_nat (length dest))%Z ->
    exists dest',
      copy_samples n i dest destStart src srcOff gain = Ok dest' /\
      length dest' = length dest /\
      (forall k, (i <= k < i + Z.of_nat n)%Z ->
         exists x, zget src (srcOff + k) = Ok x /\
                   zget dest' (destStart + k) = Ok (x * gain)) /\
      (forall j, (j < destStart + i \/ destStart + i + Z.of_nat n <= j)%Z ->
         zget dest' j = zget dest j).
Proof.
  induction n as [|n IH]; intros i dest Hs0 Hs1 Hd0 Hd1.
  - exists dest. simpl. repeat split; auto. intros k Hk. lia.
  - simpl.
    destruct (zget_in_range src (srcOff + i)) as [x Hx]; [lia|].
    rewrite Hx. simpl.
    rewrite zset_in_range by lia. simpl.
    set (dest1 := replace_nth (Z.to_nat (destStart + i)) (x * gain) dest).
    assert (Hset : zset dest (destStart + i) (x * gain) = Ok dest1)
      by (apply zset_in_range; lia).
    assert (Hlen : length dest1 = length dest) by apply length_replace_nth.
    destruct (IH (i + 1)%Z dest1) as (dest' & Hc & Hl & Hin & Hout);
      try rewrite Hlen; try lia.
    exists dest'. split; [exact Hc|]. split; [congruence|]. split.
    + intros k Hk. destruct (Z.eq_dec k i) as [->|Hne].
      * exists x. split; [exact Hx|].
        rewrite Hout by lia. eapply zget_zset_same; eauto.
      * apply Hin. lia.
    + intros j Hj. rewrite Hout by lia.
      eapply zget_zset_other; eauto. lia.
Qed.

Lemma copyFromWithRamp_spec (b : AudioBuffer) (ch destStart : Z)
    (src : list R) (srcOff n : Z) (gain : R) (line : list R) :
  zget b ch = Ok line ->
  (0 <= destStart)%Z -> (0 <= n)%Z ->
  (destStart + n <= Z.of_nat (length line))%Z ->
  (0 <= srcOff)%Z -> (srcOff + n <= Z.of_nat (length src))%Z ->
  exists b' line',
    copyFromWithRamp b ch destStart src srcOff n gain = Ok b' /\
    zget b' ch = Ok line' /\
    length line' = length line /\
    (forall ch', ch' <> ch -> zget b' ch' = zget b ch') /\
    (forall k, (0 <= k < n)%Z ->
       exists x, zget src (srcOff + k) = Ok x /\
                 zget line' (destStart + k) = Ok (x * gain)) /\
    (forall j, (j < destStart \/ destStart + n <= j)%Z ->
       zget line' j = zget line j).
Proof.
  intros Hline Hd0 Hn Hd1 Hs0 Hs1. unfold copyFromWithRamp.
  destruct (Z.leb_spec n 0) as [Hz|Hpos].
  { exists b, line. repeat split; auto. intros k Hk. lia. }
  destruct (copy_samples_spec src srcOff destStart gain (Z.to_nat n) 0 line)
    as (line' & Hc & Hl & Hin & Hout); try lia.
  rewrite Hline. simpl. rewrite Hc. simpl.
  pose proof (zget_bounds _ _ _ Hline) as Hch.
  assert (Hset : zset b ch line' = Ok (replace_nth (Z.to_nat ch) line' b))
    by (apply zset_in_range; lia).
  exists (replace_nth (Z.to_nat ch) line' b), line'.
  split; [exact Hset|]. split; [eapply zget_zset_same; eauto|].
  split; [exact Hl|]. split.
  - intros ch' Hne. eapply zget_zset_other; eauto.
  - split.
    + intros k Hk. apply Hin. lia.
    + intros j Hj. apply Hout. lia.
Qed.

(** What a block write does to the ring, cell by cell. *)
Lemma fill_ring_spec (b : AudioBuffer) (wp len ch size : Z)
    (data : list R) (off : Z) (gain : R) (line : list R) :
  zget b ch = Ok line ->
  Z.of_nat (length line) = size ->
  (0 <= wp < size)%Z ->
  (0 <= len <= size)%Z ->
  (0 <= off)%Z -> (off + len <= Z.of_nat (length data))%Z ->
  exists b' line',
    fill_ring b wp len ch size data off gain = Ok b' /\
    zget b' ch = Ok line' /\
    Z.of_nat (length line') = size /\
    (forall ch', ch' <> ch -> zget b' ch' = zget b ch') /\
    (forall i, (0 <= i < len)%Z ->
       exists x, zget data (off + i) = Ok x /\
                 zget line' ((wp + i) mod size) = Ok (x * gain)) /\
    (forall j, (forall i, (0 <= i < len)%Z -> j <> ((wp + i) mod size)%Z) ->
       zget line' j = zget line j).
Proof.
  intros Hline Hsize Hwp Hlen Ho0 Ho1. unfold fill_ring.
  destruct (Z.gtb_spec size (len + wp)) as [Hfit|Hsplit].
  - destruct (copyFromWithRamp_spec b ch wp data off len gain line)
      as (b' & line' & Hc & Hg & Hl & Hoth & Hin & Hout); try lia; auto.
    exists b', line'. repeat split; auto; try lia.
    + intros i Hi. rewrite Z.mod_small by lia. apply Hin. exact Hi.
    + intros j Hj. apply Hout.
      destruct (Z_lt_dec j wp); [left; lia|].
      destruct (Z_le_dec (wp + len) j); [right; lia|].
      exfalso. apply (Hj (j - wp)%Z); [lia|].
      rewrite Z.mod_small by lia. lia.
  - destruct (copyFromWithRamp_spec b ch wp data off (size - wp) gain line)
      as (b1 & line1 & Hc1 & Hg1 & Hl1 & Hoth1 & Hin1 & Hout1); try lia; auto.
    rewrite Hc1. simpl.
    destruct (copyFromWithRamp_spec b1 ch 0 data (off + (size - wp))
                (len - (size - wp)) gain line1)
      as (b2 & line2 & Hc2 & Hg2 & Hl2 & Hoth2 & Hin2 & Hout2); try lia; auto.
    exists b2, line2. split; [exact Hc2|]. split; [exact Hg2|].
    split; [lia|]. split; [|split].
    + intros ch' Hne. rewrite Hoth2, Hoth1; auto.
    + intros i Hi. destruct (Z_lt_dec i (size - wp)) as [Hlo|Hhi].
      * rewrite Z.mod_small by lia.
        destruct (Hin1 i) as (x & Hx & Hy); [lia|].
        exists x. split; [exact Hx|]. rewrite Hout2 by lia. exact Hy.
      * rewrite mod_once by lia.
        destruct (Hin2 (i - (size - wp))%Z) as (x & Hx & Hy); [lia|].
        exists x. split.
        -- rewrite <- Hx. f_equal. lia.
        -- rewrite <- Hy. f_equal. lia.
    + intros j Hj. rewrite Hout2, Hout1; auto.
      * destruct (Z_lt_dec j wp); [left; lia|].
        destruct (Z_le_dec size j); [right; lia|].
        exfalso. apply (Hj (j - wp)%Z); [lia|].
        rewrite Z.mod_small by lia. lia.
      * destruct (Z_lt_dec j 0); [left; lia|].
        destruct (Z_le_dec (len - (size - wp)) j); [right; lia|].
        exfalso. apply (Hj (j + (size - wp))%Z); [lia|].
        rewrite mod_once by lia. lia.
Qed.

(** ** The block write [fillDelaybuffer] *)

Lemma block_written_pieces (line line' data : list R) (wp len size off : Z)
    (gain : R) :
  (0 <= wp < size)%Z -> (0 <= len <= size)%Z ->
  block_written line line' data wp len size off gain ->
  ((len + wp < size)%Z -> piece line' data 0 len wp off gain) /\
  ((size <= len + wp)%Z ->
     piece line' data 0 (size - wp) wp off gain /\
     piece line' data (size - wp) len (wp - size) off gain).
Proof.
  intros Hwp Hlen (_ & Hin & _). split; [intros Hfit | intros Hsplit; split];
    intros i Hi; destruct (Hin i) as (x & Hx & Hy); try lia;
    exists x; (split; [exact Hx|]); rewrite <- Hy; f_equal.
  - rewrite Z.mod_small; lia.
  - rewrite Z.mod_small; lia.
  - rewrite mod_once; lia.
Qed.

(** C6.  A block write of at most [size] samples stores sample [i], scaled
    by [gain], at the ring cell [(wp + i) mod size] and leaves every other
    cell of the channel, and the other channels, as they were.  A run that
    ends before the last cell is one piece starting at the write cursor;
    otherwise it is the tail piece up to the end of the buffer followed by
    the rest from cell 0 (empty when the run ends exactly at the end).  The
    flanger and the pitch shifter write their delay buffers alike. *)
Theorem fillDelaybuffer_writes_ring
    (fl : Flanger.state) (ps : PitchShifter.state)
    (len ch size : Z) (data : list R) (off : Z) (gain : R)
    (lineF lineP : list R) :
  zget (Flanger.delayBuffer fl) ch = Ok lineF ->
  zget (PitchShifter.delayBuffer ps) ch = Ok lineP ->
  Z.of_nat (length lineF) = size ->
  Z.of_nat (length lineP) = size ->
  (0 <= Flanger.delayBufferWritePosition fl < size)%Z ->
  (0 <= PitchShifter.delayBufferWritePosition ps < size)%Z ->
  (0 <= len <= size)%Z ->
  (0 <= off)%Z -> (off + len <= Z.of_nat (length data))%Z ->
  (exists fl' line',
     Flanger.fillDelaybuffer fl len ch size data off gain = Ok fl' /\
     zget (Flanger.delayBuffer fl') ch = Ok line' /\
     (forall ch', ch' <> ch ->
        zget (Flanger.delayBuffer fl') ch' = zget (Flanger.delayBuffer fl) ch') /\
     let wp := Flanger.delayBufferWritePosition fl in
     block_written lineF line' data wp len size off gain /\
     ((len + wp < size)%Z -> piece line' data 0 len wp off gain) /\
     ((size <= len + wp)%Z ->
        piece line' data 0 (size - wp) wp off gain /\
        piece line' data (size - wp) len (wp - size) off gain)) /\
  (exists ps' line',
     PitchShifter.fillDelaybuffer ps len ch size data off gain = Ok ps' /\
     zget (PitchShifter.delayBuffer ps') ch = Ok line' /\
     (forall ch', ch' <> ch ->
        zget (PitchShifter.delayBuffer ps') ch'
        = zget (PitchShifter.delayBuffer ps) ch') /\
     let wp := PitchShifter.delayBufferWritePosition ps in
     block_written lineP line' data wp len size off gain /\
     ((len + wp < size)%Z -> piece line' data 0 len wp off gain) /\
     ((size <= len + wp)%Z ->
        piece line' data 0 (size - wp) wp off gain /\
        piece line' data (size - wp) len (wp - size) off gain)).
Proof.
  intros HF HP HlF HlP HwF HwP Hlen Ho0 Ho1. split.
  - destruct (fill_ring_spec _ _ len ch size data off gain lineF HF HlF HwF
                Hlen Ho0 Ho1) as (b' & line' & Hfill & Hg & Hl & Hoth & Hin & Hout).
    exists (Flanger.with_delayBuffer fl b'), line'.
    unfold Flanger.fillDelaybuffer. rewrite Hfill. simpl.
    split; [reflexivity|]. split; [exact Hg|]. split; [exact Hoth|].
    assert (Hbw : block_written lineF line' data
                    (Flanger.delayBufferWritePosition fl) len size off gain)
      by (repeat split; assumption).
    split; [exact Hbw|]. eapply block_written_pieces; eauto.
  - destruct (fill_ring_spec _ _ len ch size data off gain lineP HP HlP HwP
                Hlen Ho0 Ho1) as (b' & line' & Hfill & Hg & Hl & Hoth & Hin & Hout).
    exists (PitchShifter.with_delayBuffer ps b'), line'.
    unfold PitchShifter.fillDelaybuffer. rewrite Hfill. simpl.
    split; [reflexivity|]. split; [exact Hg|]. split; [exact Hoth|].
    assert (Hbw : block_written lineP line' data
                    (PitchShifter.delayBufferWritePosition ps) len size off gain)
      by (repeat split; assumption).
    split; [exact Hbw|]. eapply block_written_pieces; eauto.
Qed.

Lemma fillDelaybuffer_writes_ring_witness :
  exists fl' line',
    Flanger.fillDelaybuffer flanger_example 2 0 2 [1; 2] 0 1 = Ok fl' /\
    zget (Flanger.delayBuffer fl') 0 = Ok line' /\
    block_written [0; 0] line' [1; 2] 0 2 2 0 1.
Proof.
  destruct (fillDelaybuffer_writes_ring flanger_example shifter_example
              2 0 2 [1; 2] 0 1 [0; 0] [0; 0])
    as [(fl' & line' & H1 & H2 & _ & H3 & _) _];
    try reflexivity; simpl; try lia.
  exists fl', line'. auto.
Defined.

(** ** The modulators *)

Lemma advance_phase_range (inc p : R) :
  0 <= p < 1 -> 0 <= inc < 1 -> 0 <= advance_phase inc p < 1.
Proof.
  intros Hp Hi. unfold advance_phase, wrap.
  destruct (Rge_dec (p + inc) 1); lra.
Qed.

Lemma advance_phase_shift (inc p : R) :
  exists k : Z, advance_phase inc p = p + inc + IZR k.
Proof.
  unfold advance_phase, wrap. destruct (Rge_dec (p + inc) 1).
  - exists (-1)%Z. lra.
  - exists 0%Z. lra.
Qed.

(** The phase update shared by the three modulators: store [p + inc], then
    subtract 1 in place when the stored value has reached 1. *)
Lemma phase_update (phases : list R) (ch : Z) (p inc : R) :
  zget phases ch = Ok p ->
  (ph1 <- zset phases ch (p + inc) ;;
   (if Rge_dec (p + inc) 1 then zset ph1 ch (p + inc - 1) else Ok ph1))
  = Ok (replace_nth (Z.to_nat ch) (advance_phase inc p) phases).
Proof.
  intros Hp. pose proof (zget_bounds _ _ _ Hp) as Hb.
  rewrite zset_in_range by lia. simpl.
  unfold advance_phase, wrap. destruct (Rge_dec (p + inc) 1).
  - rewrite zset_in_range by (rewrite length_replace_nth; lia).
    now rewrite replace_nth_twice.
  - reflexivity.
Qed.

Lemma zget_replace_nth_same {A : Type} (l : list A) (i : Z) (x y : A) :
  zget l i = Ok y -> zget (replace_nth (Z.to_nat i) x l) i = Ok x.
Proof.
  intros H. pose proof (zget_bounds _ _ _ H).
  eapply zget_zset_same. apply zset_in_range. lia.
Qed.

Lemma zget_replace_nth_other {A : Type} (l : list A) (i j : Z) (x : A) :
  (0 <= i)%Z -> j <> i -> zget (replace_nth (Z.to_nat i) x l) j = zget l j.
Proof.
  intros Hi Hj. unfold zget. destruct (Z.ltb_spec j 0); [reflexivity|].
  rewrite nth_error_replace_nth_other; [reflexivity | lia].
Qed.

Lemma lfo_sinewave_eq (st : Flanger.state) (md ch : Z) (p : R) :
  zget (Flanger.sinePhase st) ch = Ok p ->
  Flanger.sampleRate st <> 0 ->
  let q := advance_phase (Flanger.sinefrequency st / Flanger.sampleRate st) p in
  Flanger.lfo_sinewave st md ch
  = Ok (Flanger.with_sinePhase st
          (replace_nth (Z.to_nat ch) q (Flanger.sinePhase st)),
        IZR (Z.quot md 2) * (sin (2 * PI * q) + 1)).
Proof.
  intros Hp Hsr q. unfold Flanger.lfo_sinewave.
  rewrite Hp. simpl. rewrite fdiv_nonzero by assumption. simpl.
  pose proof (phase_update _ _ _
    (Flanger.sinefrequency st / Flanger.sampleRate st) Hp) as Hu.
  apply bind_Ok in Hu. destruct Hu as (ph1 & -> & Hu). simpl.
  rewrite Hu. simpl. fold q.
  now rewrite (zget_replace_nth_same _ _ q _ Hp).
Qed.

Lemma lfo_sinewave_Ok (st st' : Flanger.state) (md ch : Z) (v : R) :
  Flanger.lfo_sinewave st md ch = Ok (st', v) ->
  exists p,
    zget (Flanger.sinePhase st) ch = Ok p /\
    Flanger.sampleRate st <> 0 /\
    let q := advance_phase (Flanger.sinefrequency st / Flanger.sampleRate st) p in
    st' = Flanger.with_sinePhase st
            (replace_nth (Z.to_nat ch) q (Flanger.sinePhase st)) /\
    v = IZR (Z.quot md 2) * (sin (2 * PI * q) + 1).
Proof.
  intros H. pose proof H as H0. unfold Flanger.lfo_sinewave in H0.
  inv_bind H0. inv_bind H0. apply fdiv_Ok in E0. destruct E0 as [Hsr _].
  rewrite (lfo_sinewave_eq st md ch v0 E Hsr) in H. inv_Ok H.
  exists v0. auto.
Qed.

Lemma Rdiv_nonzero (a b : R) : a <> 0 -> b <> 0 -> a / b <> 0.
Proof.
  intros Ha Hb. unfold Rdiv. apply Rmult_integral_contrapositive_currified;
    [assumption | now apply Rinv_neq_0_compat].
Qed.

(** In the reals of the library [x / 0] is 0, so at the frequency 0 the
    expression [1 / (sampleRate / sawtoothFrequency)] is 0: the value the
    code computes there, one over an infinity. *)
Lemma sawtooth_increment_zero (st : PitchShifter.state) :
  PitchShifter.sawtoothFrequency st = 0 -> sawtooth_increment st = 0.
Proof.
  intros Hf. unfold sawtooth_increment, Rdiv. rewrite Hf, Rinv_0.
  now rewrite Rmult_0_r, Rinv_0, Rmult_0_r.
Qed.

Lemma sawtooth_increment_eq (st : PitchShifter.state) :
  PitchShifter.sampleRate st <> 0 ->
  sawtooth_increment st
  = PitchShifter.sawtoothFrequency st / PitchShifter.sampleRate st.
Proof.
  intros Hs. destruct (Req_dec (PitchShifter.sawtoothFrequency st) 0) as [Hf|Hf].
  - rewrite sawtooth_increment_zero by assumption. rewrite Hf.
    unfold Rdiv. now rewrite Rmult_0_l.
  - unfold sawtooth_increment. now field.
Qed.

(** The increment of a sawtooth as the code computes it: it is a number
    exactly when the sample rate is not 0, also at the frequency 0. *)
Lemma sawtooth_step (sr f : R) :
  sr <> 0 -> finite (float_inv (float_div sr f)) = Ok (1 / (sr / f)).
Proof.
  intros Hs. destruct (Req_dec f 0) as [->|Hf].
  - rewrite float_div_zero by assumption. simpl.
    unfold Rdiv. now rewrite Rinv_0, Rmult_0_r, Rinv_0, Rmult_0_r.
  - rewrite float_div_nonzero by assumption. simpl.
    rewrite float_div_nonzero by (now apply Rdiv_nonzero). reflexivity.
Qed.

Lemma sawtooth_step_Ok (sr f inc : R) :
  finite (float_inv (float_div sr f)) = Ok inc -> sr <> 0.
Proof.
  intros H Hs. subst sr. unfold float_div in H.
  destruct (Req_dec_T f 0) as [Hf|Hf].
  - destruct (Req_dec_T 0 0); [discriminate | contradiction].
  - simpl in H. unfold float_div in H.
    destruct (Req_dec_T (0 / f) 0) as [_|Hne].
    + destruct (Req_dec_T 1 0); discriminate.
    + apply Hne. unfold Rdiv. ring.
Qed.

Lemma sawtooth1_eq (st : PitchShifter.state) (md ch : Z) (p : R) :
  PitchShifter.sampleRate st <> 0 ->
  zget (PitchShifter.sawtoothPhase1 st) ch = Ok p ->
  let q := advance_phase (sawtooth_increment st) p in
  PitchShifter.sawtooth1 st md ch
  = Ok (PitchShifter.with_sawtoothPhase1 st
          (replace_nth (Z.to_nat ch) q (PitchShifter.sawtoothPhase1 st)),
        PitchShifter.ramp (PitchShifter.pitchUporDown st) md q).
Proof.
  intros Hsr Hp q. unfold PitchShifter.sawtooth1. cbv zeta.
  rewrite sawtooth_step by assumption. cbn [bind].
  rewrite Hp. cbn [bind].
  pose proof (phase_update _ _ _ (sawtooth_increment st) Hp) as Hu.
  apply bind_Ok in Hu. destruct Hu as (ph1 & Hz & Hu).
  unfold sawtooth_increment in Hz, Hu. rewrite Hz. cbn [bind]. rewrite Hu.
  cbn [bind]. fold (sawtooth_increment st). fold q.
  now rewrite (zget_replace_nth_same _ _ q _ Hp).
Qed.

Lemma sawtooth2_eq (st : PitchShifter.state) (md ch : Z) (p : R) :
  PitchShifter.sampleRate st <> 0 ->
  zget (PitchShifter.sawtoothPhase2 st) ch = Ok p ->
  let q := advance_phase (sawtooth_increment st) p in
  PitchShifter.sawtooth2 st md ch
  = Ok (PitchShifter.with_sawtoothPhase2 st
          (replace_nth (Z.to_nat ch) q (PitchShifter.sawtoothPhase2 st)),
        PitchShifter.ramp (PitchShifter.pitchUporDown st) md q).
Proof.
  intros Hsr Hp q. unfold PitchShifter.sawtooth2. cbv zeta.
  rewrite sawtooth_step by assumption. cbn [bind].
  rewrite Hp. cbn [bind].
  pose proof (phase_update _ _ _ (sawtooth_increment st) Hp) as Hu.
  apply bind_Ok in Hu. destruct Hu as (ph1 & Hz & Hu).
  unfold sawtooth_increment in Hz, Hu. rewrite Hz. cbn [bind]. rewrite Hu.
  cbn [bind]. fold (sawtooth_increment st). fold q.
  now rewrite (zget_replace_nth_same _ _ q _ Hp).
Qed.

Lemma sawtooth1_Ok (st st' : PitchShifter.state) (md ch : Z) (v : R) :
  PitchShifter.sawtooth1 st md ch = Ok (st', v) ->
  exists p,
    PitchShifter.sampleRate st <> 0 /\
    zget (PitchShifter.sawtoothPhase1 st) ch = Ok p /\
    let q := advance_phase (sawtooth_increment st) p in
    st' = PitchShifter.with_sawtoothPhase1 st
            (replace_nth (Z.to_nat ch) q (PitchShifter.sawtoothPhase1 st)) /\
    v = PitchShifter.ramp (PitchShifter.pitchUporDown st) md q.
Proof.
  intros H. pose proof H as H0. unfold PitchShifter.sawtooth1 in H0.
  cbv zeta in H0. inv_bind H0. inv_bind H0.
  apply sawtooth_step_Ok in E.
  rewrite (sawtooth1_eq st md ch v1 E E0) in H. inv_Ok H.
  exists v1. auto.
Qed.

Lemma sawtooth2_Ok (st st' : PitchShifter.state) (md ch : Z) (v : R) :
  PitchShifter.sawtooth2 st md ch = Ok (st', v) ->
  exists p,
    PitchShifter.sampleRate st <> 0 /\
    zget (PitchShifter.sawtoothPhase2 st) ch = Ok p /\
    let q := advance_phase (sawtooth_increment st) p in
    st' = PitchShifter.with_sawtoothPhase2 st
            (replace_nth (Z.to_nat ch) q (PitchShifter.sawtoothPhase2 st)) /\
    v = PitchShifter.ramp (PitchShifter.pitchUporDown st) md q.
Proof.
  intros H. pose proof H as H0. unfold PitchShifter.sawtooth2 in H0.
  cbv zeta in H0. inv_bind H0. inv_bind H0.
  apply sawtooth_step_Ok in E.
  rewrite (sawtooth2_eq st md ch v1 E E0) in H. inv_Ok H.
  exists v1. auto.
Qed.

Lemma advance_phase_below (inc p : R) :
  p + inc < 1 -> advance_phase inc p = p + inc.
Proof.
  intros H. unfold advance_phase, wrap. destruct (Rge_dec (p + inc) 1); lra.
Qed.

Lemma advance_phase_above (inc p : R) :
  p + inc >= 1 -> advance_phase inc p = p + inc - 1.
Proof.
  intros H. unfold advance_phase, wrap. destruct (Rge_dec (p + inc) 1); lra.
Qed.

(** What one advance of the sine modulator returns.  For a positive
    [maxDelayInSamples], a valid channel and any phase, it is
    [(maxDelayInSamples / 2) * (sin (2 pi phase) + 1)] where the halving is
    the integer division of the code.  The value lies between 0 and twice
    that half, which is at most [maxDelayInSamples]; at the sine peak it is
    twice the half, and that is [maxDelayInSamples] when it is even. *)
Lemma lfo_sinewave_range (st : Flanger.state) (md ch : Z) (p : R) :
  (0 < md)%Z ->
  zget (Flanger.sinePhase st) ch = Ok p ->
  Flanger.sampleRate st <> 0 ->
  let q := advance_phase (Flanger.sinefrequency st / Flanger.sampleRate st) p in
  let half := Z.quot md 2 in
  exists st' v,
    Flanger.lfo_sinewave st md ch = Ok (st', v) /\
    zget (Flanger.sinePhase st') ch = Ok q /\
    v = IZR half * (sin (2 * PI * q) + 1) /\
    0 <= v <= IZR (2 * half) /\
    (2 * half <= md)%Z /\
    (sin (2 * PI * q) = 1 -> v = IZR (2 * half)) /\
    (Z.even md = true -> (2 * half = md)%Z).
Proof.
  intros Hmd Hp Hsr q half.
  exists (Flanger.with_sinePhase st
            (replace_nth (Z.to_nat ch) q (Flanger.sinePhase st))),
         (IZR half * (sin (2 * PI * q) + 1)).
  split; [apply lfo_sinewave_eq; assumption|].
  split; [simpl; eapply zget_replace_nth_same; eauto|].
  split; [reflexivity|].
  assert (Hh : (0 <= half)%Z) by (apply Z.quot_pos; lia).
  assert (Hr : 0 <= IZR half) by (apply IZR_le in Hh; exact Hh).
  pose proof (SIN_bound (2 * PI * q)) as [Hlo Hhi].
  rewrite mult_IZR. split; [split; nra|].
  split; [subst half; Z.to_euclidean_division_equations; lia|].
  split; [intros ->; simpl; lra|].
  intros He. apply Z.even_spec in He. destruct He as [k ->].
  subst half. Z.to_euclidean_division_equations. lia.
Qed.

Lemma lfo_sinewave_range_witness :
  exists st' v,
    Flanger.lfo_sinewave (Flanger.setLFO flanger_example 11025) 4 0
    = Ok (st', v) /\ 0 <= v <= IZR 4.
Proof.
  destruct (lfo_sinewave_range (Flanger.setLFO flanger_example 11025) 4 0 0)
    as (st' & v & H & _ & _ & Hv & _); [lia | reflexivity | simpl; lra |].
  exists st', v. split; [exact H | exact Hv].
Defined.

(** C3.  The sine modulator is meant to sweep the delay time over
    [0, maxDelayInSamples], but it halves [maxDelayInSamples] as an integer.
    At the odd [maxDelayInSamples = 5], with the phase 0 and the rate 11025
    (a quarter of the sample rate), the advance lands on the sine peak and
    returns 4: neither [(5 / 2) * (sin + 1)] with the real half, nor 5. *)
Theorem lfo_sinewave_odd_peak :
  exists st' v q,
    Flanger.lfo_sinewave (Flanger.setLFO flanger_example 11025) 5 0
    = Ok (st', v) /\
    zget (Flanger.sinePhase st') 0 = Ok q /\
    sin (2 * PI * q) = 1 /\
    v = 4 /\
    v <> IZR 5 / 2 * (sin (2 * PI * q) + 1) /\
    v < IZR 5.
Proof.
  set (st := Flanger.setLFO flanger_example 11025).
  assert (Hq : advance_phase (Flanger.sinefrequency st / Flanger.sampleRate st) 0
               = 1 / 4).
  { simpl. rewrite advance_phase_below; lra. }
  assert (Hs : sin (2 * PI * (1 / 4)) = 1).
  { replace (2 * PI * (1 / 4)) with (PI / 2) by lra. apply sin_PI2. }
  eexists _, _, (1 / 4). split.
  - apply (lfo_sinewave_eq st 5 0 0); [reflexivity | simpl; lra].
  - rewrite Hq. split; [reflexivity|]. rewrite Hs.
    replace (5 ÷ 2)%Z with 2%Z by reflexivity.
    repeat split; lra.
Qed.

(** C7, as the code has it.  With the phase in [0, 1) and the increment
    [frequency / sampleRate] in [0, 1), one advance of the sine modulator,
    and of each sawtooth modulator, adds the increment, subtracts 1 when
    the sum has reached 1, and leaves the phase in [0, 1).  A sawtooth
    computes the increment as [1 / (sampleRate / frequency)]; at the
    frequency 0 the quotient is infinite, the increment is 0 and the phase
    stays where it is. *)
Theorem modulators_keep_phase_range
    (fl : Flanger.state) (ps : PitchShifter.state) (md ch : Z) (p p1 p2 : R) :
  (zget (Flanger.sinePhase fl) ch = Ok p ->
   0 <= p < 1 ->
   Flanger.sampleRate fl <> 0 ->
   0 <= Flanger.sinefrequency fl / Flanger.sampleRate fl < 1 ->
   exists fl' v q,
     Flanger.lfo_sinewave fl md ch = Ok (fl', v) /\
     zget (Flanger.sinePhase fl') ch = Ok q /\
     q = wrap (p + Flanger.sinefrequency fl / Flanger.sampleRate fl) /\
     0 <= q < 1) /\
  (zget (PitchShifter.sawtoothPhase1 ps) ch = Ok p1 ->
   0 <= p1 < 1 ->
   PitchShifter.sampleRate ps <> 0 ->
   0 <= PitchShifter.sawtoothFrequency ps / PitchShifter.sampleRate ps < 1 ->
   exists ps' v q,
     PitchShifter.sawtooth1 ps md ch = Ok (ps', v) /\
     zget (PitchShifter.sawtoothPhase1 ps') ch = Ok q /\
     q = wrap (p1 + PitchShifter.sawtoothFrequency ps
                    / PitchShifter.sampleRate ps) /\
     0 <= q < 1) /\
  (zget (PitchShifter.sawtoothPhase2 ps) ch = Ok p2 ->
   0 <= p2 < 1 ->
   PitchShifter.sampleRate ps <> 0 ->
   0 <= PitchShifter.sawtoothFrequency ps / PitchShifter.sampleRate ps < 1 ->
   exists ps' v q,
     PitchShifter.sawtooth2 ps md ch = Ok (ps', v) /\
     zget (PitchShifter.sawtoothPhase2 ps') ch = Ok q /\
     q = wrap (p2 + PitchShifter.sawtoothFrequency ps
                    / PitchShifter.sampleRate ps) /\
     0 <= q < 1).
Proof.
  split; [|split].
  - intros Hp Hr Hsr Hinc.
    eexists _, _, _. split; [apply lfo_sinewave_eq; eassumption|].
    split; [simpl; eapply zget_replace_nth_same; eauto|].
    split; [reflexivity|]. now apply advance_phase_range.
  - intros Hp Hr Hsr Hinc.
    eexists _, _, _. split; [apply sawtooth1_eq; eassumption|].
    split; [simpl; eapply zget_replace_nth_same; eauto|].
    rewrite sawtooth_increment_eq by assumption.
    split; [reflexivity|]. now apply advance_phase_range.
  - intros Hp Hr Hsr Hinc.
    eexists _, _, _. split; [apply sawtooth2_eq; eassumption|].
    split; [simpl; eapply zget_replace_nth_same; eauto|].
    rewrite sawtooth_increment_eq by assumption.
    split; [reflexivity|]. now apply advance_phase_range.
Qed.

(** The flanger at a quarter of the sample rate, and the pitch shifter at
    the frequency 0 it has before the first [setLevel]. *)
Lemma modulators_keep_phase_range_witness :
  (exists fl' v q,
     Flanger.lfo_sinewave (Flanger.setLFO flanger_example 11025) 4 0
     = Ok (fl', v) /\
     zget (Flanger.sinePhase fl') 0 = Ok q /\ 0 <= q < 1) /\
  (exists ps' v q,
     PitchShifter.sawtooth1 shifter_fresh 4 0 = Ok (ps', v) /\
     zget (PitchShifter.sawtoothPhase1 ps') 0 = Ok q /\ 0 <= q < 1) /\
  (exists ps' v q,
     PitchShifter.sawtooth2 shifter_fresh 4 0 = Ok (ps', v) /\
     zget (PitchShifter.sawtoothPhase2 ps') 0 = Ok q /\ 0 <= q < 1).
Proof.
  destruct (modulators_keep_phase_range
              (Flanger.setLFO flanger_example 11025) shifter_fresh 4 0
              0 0 (5 / 10)) as (HF & H1 & H2).
  split; [|split].
  - destruct HF as (fl' & v & q & Ha & Hb & _ & Hc);
      [reflexivity | lra | simpl; lra | simpl; lra |].
    exists fl', v, q. auto.
  - destruct H1 as (ps' & v & q & Ha & Hb & _ & Hc);
      [reflexivity | lra | simpl; lra | simpl; lra |].
    exists ps', v, q. auto.
  - destruct H2 as (ps' & v & q & Ha & Hb & _ & Hc);
      [reflexivity | lra | simpl; lra | simpl; lra |].
    exists ps', v, q. auto.
Defined.

(** With a negative rate the increment is below 1 and the phase, 0 before
    the advance, is negative after it. *)
Lemma negative_rate_leaves_phase_range :
  zget (Flanger.sinePhase flanger_negative_rate) 0 = Ok 0 /\
  Flanger.sinefrequency flanger_negative_rate
  / Flanger.sampleRate flanger_negative_rate < 1 /\
  exists st' v q,
    Flanger.lfo_sinewave flanger_negative_rate 4 0 = Ok (st', v) /\
    zget (Flanger.sinePhase st') 0 = Ok q /\
    q < 0.
Proof.
  split; [reflexivity|]. split; [simpl; lra|].
  eexists _, _, _. split.
  - apply (lfo_sinewave_eq flanger_negative_rate 4 0 0);
      [reflexivity | simpl; lra].
  - split; [reflexivity|]. simpl. rewrite advance_phase_below; lra.
Qed.

(** ** The sample loop of the flanger *)

Lemma rem_rem_mod (a s i : Z) :
  (0 < s)%Z ->
  (0 <= Z.rem (Z.rem a s + i) s)%Z ->
  Z.rem (Z.rem a s + i) s = ((a + i) mod s)%Z.
Proof.
  intros Hs Hk.
  pose proof (Z.quot_rem' a s) as E1.
  pose proof (Z.quot_rem' (Z.rem a s + i) s) as E2.
  pose proof (Z.rem_bound_abs (Z.rem a s + i) s ltac:(lia)) as Hb.
  apply (Z.mod_unique _ _ (a ÷ s + (Z.rem a s + i) ÷ s)); [lia|].
  set (q1 := (a ÷ s)%Z) in *. set (r1 := Z.rem a s) in *.
  set (q2 := ((r1 + i) ÷ s)%Z) in *. set (k := Z.rem (r1 + i) s) in *.
  nia.
Qed.

Lemma cursor_mod (s wp i d : Z) :
  (0 < s)%Z -> ((s + wp - d + i) mod s = (wp + i - d) mod s)%Z.
Proof.
  intros Hs. replace (s + wp - d + i)%Z with (wp + i - d + 1 * s)%Z by ring.
  apply Z.mod_add. lia.
Qed.

Lemma flanger_frame_refl (st : Flanger.state) : flanger_frame st st.
Proof. unfold flanger_frame. tauto. Qed.

Lemma flanger_frame_trans (a b c : Flanger.state) :
  flanger_frame a b -> flanger_frame b c -> flanger_frame a c.
Proof.
  unfold flanger_frame. intros H1 H2.
  decompose [and] H1. decompose [and] H2. repeat split; congruence.
Qed.

Lemma setSample_in_range (b b' : AudioBuffer) (ch i : Z) (x : R) :
  setSample b ch i x = Ok b' -> exists y, getSample b ch i = Ok y.
Proof.
  intros H. apply setSample_Ok in H. destruct H as (l & l' & H0 & H1 & _).
  apply zset_Ok in H1. destruct H1 as [Hi _].
  destruct (zget_in_range l i Hi) as [y Hy].
  exists y. unfold getSample. rewrite H0. exact Hy.
Qed.

(** One iteration of the loop of [Flanger::process], read off the code. *)
Lemma flanger_process_sample_Ok (start md ch : Z) (g : R) (size i : Z)
    (st st' : Flanger.state) (inb inb' : AudioBuffer) :
  Flanger.process_sample start md ch g size i (st, inb) = Ok (st', inb') ->
  exists p d1 d2 f1 f2 x fb,
    zget (Flanger.sinePhase st) ch = Ok p /\
    Flanger.sampleRate st <> 0 /\
    size <> 0%Z /\
    let q := advance_phase
               (Flanger.sinefrequency st / Flanger.sampleRate st) p in
    let t := lfo_value md q in
    let d := truncate t in
    let f := t - IZR d in
    let wp := Flanger.delayBufferWritePosition st in
    let k1 := Z.rem (Z.rem (size + wp - d) size + i) size in
    let k2 := Z.rem (Z.rem (size + wp - d - 1) size + i) size in
    let output :=
      if Req_dec_T (Flanger.feedbackLevel st) 0
      then x + Flanger.flangerDepth st * blend f d1 d2
             + Flanger.feedbackLevel st * blend f f1 f2
      else Flanger.flangerDepth st * blend f d1 d2
             + Flanger.feedbackLevel st * blend f f1 f2 in
    getSample (Flanger.delayBuffer st) ch (start + k1) = Ok d1 /\
    getSample (Flanger.delayBuffer st) ch (start + k2) = Ok d2 /\
    getSample (Flanger.feedbackBuffer st) ch (start + k1) = Ok f1 /\
    getSample (Flanger.feedbackBuffer st) ch (start + k2) = Ok f2 /\
    getSample inb ch (start + i) = Ok x /\
    setSample (Flanger.feedbackBuffer st) ch
      (Z.rem (Flanger.feedbackBufferWritePosition st + i) size) output
    = Ok fb /\
    setSample inb ch (start + i) (g * output) = Ok inb' /\
    st' = Flanger.with_feedbackBuffer
            (Flanger.with_sinePhase st
               (replace_nth (Z.to_nat ch) q (Flanger.sinePhase st))) fb.
Proof.
  unfold Flanger.process_sample. intros H.
  inv_bind H. destruct v as [st1 t].
  apply lfo_sinewave_Ok in E. destruct E as (p & Hp & Hsr & Hst1 & Ht).
  fold (lfo_value md
          (advance_phase (Flanger.sinefrequency st / Flanger.sampleRate st) p))
    in Ht.
  subst st1 t. simpl in H.
  inv_bind H. apply irem_Ok in E. destruct E as [Hsz ->].
  inv_bind H. apply irem_Ok in E. destruct E as [_ ->].
  inv_bind H. apply irem_Ok in E. destruct E as [_ ->].
  inv_bind H. apply irem_Ok in E. destruct E as [_ ->].
  inv_bind H. inv_bind H. inv_bind H. inv_bind H. inv_bind H.
  inv_bind H. apply irem_Ok in E4. destruct E4 as [_ ->].
  inv_bind H. inv_bind H. inv_Ok H.
  destruct (setSample_in_range _ _ _ _ _ E5) as [x Hx].
  exists p, v, v0, v1, v2, x, v4.
  repeat (split; [assumption|]).
  assert (Hout :
    v3 = (if Req_dec_T (Flanger.feedbackLevel st) 0
          then x + Flanger.flangerDepth st
                   * blend (lfo_value md (advance_phase
                       (Flanger.sinefrequency st / Flanger.sampleRate st) p)
                     - IZR (truncate (lfo_value md (advance_phase
                       (Flanger.sinefrequency st / Flanger.sampleRate st) p))))
                     v v0
                 + Flanger.feedbackLevel st
                   * blend (lfo_value md (advance_phase
                       (Flanger.sinefrequency st / Flanger.sampleRate st) p)
                     - IZR (truncate (lfo_value md (advance_phase
                       (Flanger.sinefrequency st / Flanger.sampleRate st) p))))
                     v1 v2
          else Flanger.flangerDepth st
                   * blend (lfo_value md (advance_phase
                       (Flanger.sinefrequency st / Flanger.sampleRate st) p)
                     - IZR (truncate (lfo_value md (advance_phase
                       (Flanger.sinefrequency st / Flanger.sampleRate st) p))))
                     v v0
                 + Flanger.feedbackLevel st
                   * blend (lfo_value md (advance_phase
                       (Flanger.sinefrequency st / Flanger.sampleRate st) p)
                     - IZR (truncate (lfo_value md (advance_phase
                       (Flanger.sinefrequency st / Flanger.sampleRate st) p))))
                     v1 v2)).
  { destruct (Req_dec_T (Flanger.feedbackLevel st) 0).
    - apply bind_Ok in E3. destruct E3 as (x' & Hx' & E3).
      rewrite Hx in Hx'. inv_Ok Hx'. inv_Ok E3. reflexivity.
    - inv_Ok E3. reflexivity. }
  subst v3. cbv zeta. repeat split; assumption.
Qed.

Lemma flanger_process_sample_frame (start md ch : Z) (g : R) (size i : Z)
    (st st' : Flanger.state) (inb inb' : AudioBuffer) :
  Flanger.process_sample start md ch g size i (st, inb) = Ok (st', inb') ->
  flanger_frame st st' /\
  (forall p, zget (Flanger.sinePhase st) ch = Ok p ->
     zget (Flanger.sinePhase st') ch
     = Ok (advance_phase
             (Flanger.sinefrequency st / Flanger.sampleRate st) p)) /\
  (forall ch' j, ch' <> ch \/ j <> (start + i)%Z ->
     getSample inb' ch' j = getSample inb ch' j).
Proof.
  intros H. apply flanger_process_sample_Ok in H.
  destruct H as (p & d1 & d2 & f1 & f2 & x & fb & Hp & Hsr & Hsz & H).
  cbv zeta in H. destruct H as (_ & _ & _ & _ & _ & _ & Hinb & ->).
  split; [unfold flanger_frame; simpl; tauto|]. split.
  - intros p' Hp'. rewrite Hp in Hp'. inv_Ok Hp'. simpl.
    eapply zget_replace_nth_same; eauto.
  - intros ch' j Hne. eapply getSample_setSample_other; eauto.
Qed.

Lemma phase_after_succ (inc : R) (n : nat) (p : R) :
  phase_after inc (S n) p = phase_after inc n (advance_phase inc p).
Proof. unfold phase_after. apply Nat.iter_succ_r. Qed.

Lemma flanger_process_loop_frame (start md ch : Z) (g : R) (size : Z) :
  forall (n : nat) (s : Z) (st st' : Flanger.state) (inb inb' : AudioBuffer),
    Flanger.process_loop n start md ch g size s (st, inb) = Ok (st', inb') ->
    flanger_frame st st' /\
    (forall p, zget (Flanger.sinePhase st) ch = Ok p ->
       zget (Flanger.sinePhase st') ch
       = Ok (phase_after
               (Flanger.sinefrequency st / Flanger.sampleRate st) n p)) /\
    (forall ch' j,
       ch' <> ch \/ (j < start + s)%Z \/ (start + s + Z.of_nat n <= j)%Z ->
       getSample inb' ch' j = getSample inb ch' j).
Proof.
  induction n as [|n IH]; intros s st st' inb inb' H.
  - simpl in H. inv_Ok H. split; [apply flanger_frame_refl|].
    split; [intros p Hp; exact Hp | reflexivity].
  - simpl in H. inv_bind H. destruct v as [st1 inb1].
    apply flanger_process_sample_frame in E. destruct E as (F1 & P1 & B1).
    apply IH in H. destruct H as (F2 & P2 & B2).
    split; [eapply flanger_frame_trans; eauto|]. split.
    + intros p Hp. rewrite phase_after_succ.
      destruct F1 as (Hf & _ & _ & Hs & _). rewrite <- Hf, <- Hs.
      apply P2. rewrite Hf, Hs. apply P1. exact Hp.
    + intros ch' j Hj. rewrite B2 by lia. apply B1. lia.
Qed.

Lemma flanger_process_loop_split (start md ch : Z) (g : R) (size : Z) :
  forall (k m : nat) (s : Z) (x z : Flanger.state * AudioBuffer),
    Flanger.process_loop (k + S m) start md ch g size s x = Ok z ->
    exists y y',
      Flanger.process_loop k start md ch g size s x = Ok y /\
      Flanger.process_sample start md ch g size (s + Z.of_nat k) y = Ok y' /\
      Flanger.process_loop m start md ch g size (s + Z.of_nat k + 1) y' = Ok z.
Proof.
  induction k as [|k IH]; intros m s x z H.
  - simpl in H. inv_bind H. exists x, v. simpl.
    replace (s + 0)%Z with s by lia. auto.
  - simpl in H. inv_bind H. apply IH in H.
    destruct H as (y & y' & H1 & H2 & H3).
    exists y, y'. simpl. rewrite E. simpl.
    replace (s + Z.pos (Pos.of_succ_nat k))%Z with (s + 1 + Z.of_nat k)%Z
      by lia.
    auto.
Qed.

Lemma flanger_process_Ok (st st' : Flanger.state) (inb inb' : AudioBuffer)
    (start n md ch : Z) (g : R) :
  Flanger.process st inb start n md ch g = Ok (st', inb') ->
  exists data st0,
    zget inb ch = Ok data /\
    Flanger.fillDelaybuffer st (getNumSamples inb) ch
      (getNumSamples (Flanger.delayBuffer st)) data start 1 = Ok st0 /\
    Flanger.process_loop (Z.to_nat n) start md ch g
      (getNumSamples (Flanger.delayBuffer st)) 0 (st0, inb) = Ok (st', inb').
Proof.
  unfold Flanger.process. intros H. inv_bind H. inv_bind H. eauto.
Qed.

Lemma flanger_fillDelaybuffer_Ok (st st0 : Flanger.state)
    (len ch size : Z) (data : list R) (off : Z) (gain : R) :
  Flanger.fillDelaybuffer st len ch size data off gain = Ok st0 ->
  exists b,
    fill_ring (Flanger.delayBuffer st) (Flanger.delayBufferWritePosition st)
      len ch size data off gain = Ok b /\
    st0 = Flanger.with_delayBuffer st b.
Proof.
  unfold Flanger.fillDelaybuffer. intros H. inv_bind H. inv_Ok H. eauto.
Qed.

Lemma flanger_process_loop_phases (start md ch : Z) (g : R) (size : Z) :
  forall (n : nat) (s : Z) (st st' : Flanger.state) (inb inb' : AudioBuffer),
    Flanger.process_loop n start md ch g size s (st, inb) = Ok (st', inb') ->
    length (Flanger.sinePhase st') = length (Flanger.sinePhase st).
Proof.
  induction n as [|n IH]; intros s st st' inb inb' H.
  - simpl in H. inv_Ok H. reflexivity.
  - simpl in H. inv_bind H. destruct v as [st1 inb1].
    apply IH in H. rewrite H.
    apply flanger_process_sample_Ok in E.
    destruct E as (p & d1 & d2 & f1 & f2 & x & fb & Hp & Hsr & Hsz & E).
    cbv zeta in E. destruct E as (_ & _ & _ & _ & _ & _ & _ & ->).
    simpl. apply length_replace_nth.
Qed.

Lemma getSample_Ok (b : AudioBuffer) (ch i : Z) (x : R) :
  getSample b ch i = Ok x ->
  exists line, zget b ch = Ok line /\ zget line i = Ok x.
Proof.
  unfold getSample. intros H. inv_bind H. eauto.
Qed.

(** A read of the loop, at the index the code computes, is the read of the
    cell [offset] cells behind the cell [wp + i]. *)
Lemma ring_read (line : list R) (size wp d i : Z) (x : R) :
  size <> 0%Z -> (0 <= size)%Z ->
  zget line (0 + Z.rem (Z.rem (size + wp - d) size + i) size) = Ok x ->
  readAt line size (wp + i) d = Ok x.
Proof.
  intros Hs0 Hs H. unfold readAt. rewrite <- H. f_equal.
  apply zget_bounds in H.
  rewrite Z.add_0_l. rewrite rem_rem_mod by lia.
  symmetry. apply cursor_mod. lia.
Qed.

(** C1.  A call of [Flanger::process] with [startSample = 0] that runs
    without error writes, for each [i] below [numSamples], the output
    sample [i] as follows.  Let [t] be the delay time returned by the
    [(i+1)]-th advance of the sine modulator, [d] its integer part and [f]
    its fractional part, and let [r1], [r2] be the cells of the delay line
    (as the block write of this call left it) that lie [d] and [d + 1]
    cells behind the cell [delayBufferWritePosition + i], the cell of the
    current sample.  With [feedbackLevel = 0], whatever the feedback buffer
    holds, the output is
    [DeviceGain * (input i + flangerDepth * ((1 - f) * r1 + f * r2))];
    with [feedbackLevel <> 0] the input sample is left out and the blend
    [g1], [g2] of the feedback line, read at the same two cells at that
    moment, is added with the weight [feedbackLevel].  (On a nonempty
    block a call with another [startSample] reads past the end of the
    block and does not run without error: [process_startSample].) *)
Theorem flanger_process_output (st st' : Flanger.state)
    (inb inb' : AudioBuffer) (n md ch : Z) (g : R) :
  Flanger.process st inb 0 n md ch g = Ok (st', inb') ->
  let size := getNumSamples (Flanger.delayBuffer st) in
  exists data st0,
    zget inb ch = Ok data /\
    Flanger.fillDelaybuffer st (getNumSamples inb) ch size data 0 1 = Ok st0 /\
    forall i, (0 <= i < n)%Z ->
      exists p0 x line sti inbi fbline r1 r2 g1 g2,
        zget (Flanger.sinePhase st) ch = Ok p0 /\
        getSample inb ch i = Ok x /\
        zget (Flanger.delayBuffer st0) ch = Ok line /\
        Flanger.process_loop (Z.to_nat i) 0 md ch g size 0 (st0, inb)
        = Ok (sti, inbi) /\
        zget (Flanger.feedbackBuffer sti) ch = Ok fbline /\
        let t := lfo_value md
                   (phase_after
                      (Flanger.sinefrequency st / Flanger.sampleRate st)
                      (S (Z.to_nat i)) p0) in
        let d := truncate t in
        let f := t - IZR d in
        let cursor := (Flanger.delayBufferWritePosition st + i)%Z in
        readAt line size cursor d = Ok r1 /\
        readAt line size cursor (d + 1) = Ok r2 /\
        readAt fbline size cursor d = Ok g1 /\
        readAt fbline size cursor (d + 1) = Ok g2 /\
        (Flanger.feedbackLevel st = 0 ->
         getSample inb' ch i
         = Ok (g * (x + Flanger.flangerDepth st * blend f r1 r2))) /\
        (Flanger.feedbackLevel st <> 0 ->
         getSample inb' ch i
         = Ok (g * (Flanger.flangerDepth st * blend f r1 r2
                    + Flanger.feedbackLevel st * blend f g1 g2))).
Proof.
  intros H size. apply flanger_process_Ok in H.
  destruct H as (data & st0 & Hdata & Hfill & Hloop). fold size in Hfill, Hloop.
  exists data, st0. split; [exact Hdata|]. split; [exact Hfill|].
  intros i Hi.
  apply flanger_fillDelaybuffer_Ok in Hfill. destruct Hfill as (b & _ & Hst0).
  replace (Z.to_nat n) with (Z.to_nat i + S (Z.to_nat n - Z.to_nat i - 1))%nat
    in Hloop by lia.
  apply flanger_process_loop_split in Hloop.
  destruct Hloop as ([sti inbi] & [st1 inb1] & Hpre & Hstep & Hpost).
  pose proof (flanger_process_loop_frame _ _ _ _ _ _ _ _ _ _ _ Hpre)
    as (Fpre & Ppre & Bpre).
  pose proof (flanger_process_loop_phases _ _ _ _ _ _ _ _ _ _ _ Hpre) as Lpre.
  pose proof (flanger_process_loop_frame _ _ _ _ _ _ _ _ _ _ _ Hpost)
    as (_ & _ & Bpost).
  apply flanger_process_sample_Ok in Hstep.
  destruct Hstep as (p & d1 & d2 & f1 & f2 & x & fb & Hp & Hsr & Hsz & Hstep).
  cbv zeta in Hstep.
  destruct Hstep as (Hd1 & Hd2 & Hf1 & Hf2 & Hx & _ & Hout & _).
  destruct Fpre as (Ffreq & Fdepth & Ffl & Fsr & Fwp & _ & _ & _ & Fdb).
  assert (E0 : Flanger.sinePhase st0 = Flanger.sinePhase st /\
               Flanger.sinefrequency st0 = Flanger.sinefrequency st /\
               Flanger.flangerDepth st0 = Flanger.flangerDepth st /\
               Flanger.feedbackLevel st0 = Flanger.feedbackLevel st /\
               Flanger.sampleRate st0 = Flanger.sampleRate st /\
               Flanger.delayBufferWritePosition st0
               = Flanger.delayBufferWritePosition st)
    by (subst st0; simpl; tauto).
  destruct E0 as (E0p & E0f & E0d & E0l & E0s & E0w).
  rewrite E0f in Ffreq. rewrite E0d in Fdepth. rewrite E0l in Ffl.
  rewrite E0s in Fsr. rewrite E0w in Fwp. rewrite E0p, E0f, E0s in Ppre.
  rewrite E0p in Lpre.
  rewrite Ffreq, Fsr, Fwp, Fdb in *.
  rewrite Z2Nat.id in Hx, Hout, Hd1, Hd2, Hf1, Hf2 by lia.
  rewrite !Z.add_0_l in Hx, Hout.
  rewrite (Z.add_0_l i) in Hd1, Hd2, Hf1, Hf2.
  (* the phase before the loop *)
  destruct (zget_in_range (Flanger.sinePhase st) ch) as [p0 Hp0].
  { apply zget_bounds in Hp. lia. }
  rewrite (Ppre p0 Hp0) in Hp. inv_Ok Hp.
  (* the four reads *)
  apply getSample_Ok in Hd1. destruct Hd1 as (line & Hline & Hd1).
  apply getSample_Ok in Hd2. destruct Hd2 as (line2 & Hline2 & Hd2).
  rewrite Hline in Hline2. injection Hline2 as <-.
  apply getSample_Ok in Hf1. destruct Hf1 as (fbline & Hfb & Hf1).
  apply getSample_Ok in Hf2. destruct Hf2 as (fbline2 & Hfb2 & Hf2).
  rewrite Hfb in Hfb2. injection Hfb2 as <-.
  assert (Hsize : (0 <= size)%Z) by (unfold size, getNumSamples; lia).
  exists p0, x, line, sti, inbi, fbline, d1, d2, f1, f2.
  split; [exact Hp0|].
  split; [rewrite <- Hx; symmetry; apply Bpre; lia|].
  split; [exact Hline|]. split; [exact Hpre|]. split; [exact Hfb|].
  cbv zeta.
  change (phase_after (Flanger.sinefrequency st / Flanger.sampleRate st)
            (S (Z.to_nat i)) p0)
    with (advance_phase (Flanger.sinefrequency st / Flanger.sampleRate st)
            (phase_after (Flanger.sinefrequency st / Flanger.sampleRate st)
               (Z.to_nat i) p0)).
  set (t := lfo_value md _) in *.
  split; [apply ring_read; assumption|].
  split.
  { replace (size + Flanger.delayBufferWritePosition st - truncate t - 1)%Z
      with (size + Flanger.delayBufferWritePosition st - (truncate t + 1))%Z
      in Hd2 by ring.
    apply ring_read; assumption. }
  split; [apply ring_read; assumption|].
  split.
  { replace (size + Flanger.delayBufferWritePosition st - truncate t - 1)%Z
      with (size + Flanger.delayBufferWritePosition st - (truncate t + 1))%Z
      in Hf2 by ring.
    apply ring_read; assumption. }
  apply getSample_setSample_same in Hout.
  rewrite <- (Bpost ch i) in Hout by lia.
  split; intros Hfl; rewrite Hout; f_equal;
    destruct (Req_dec_T (Flanger.feedbackLevel sti) 0) as [Hz|Hnz];
    try congruence.
  rewrite Hz, Fdepth. ring.
Qed.

Lemma truncate_IZR (z : Z) : truncate (IZR z) = z.
Proof.
  unfold truncate. destruct (Rle_dec 0 (IZR z)) as [H|H].
  - symmetry. apply Int_part_spec. lra.
  - rewrite <- opp_IZR.
    replace (Int_part (IZR (- z))) with (- z)%Z; [lia|].
    apply Int_part_spec. lra.
Qed.

Lemma lfo_value_low (md : Z) (q : R) :
  (0 <= md < 2)%Z -> lfo_value md q = 0.
Proof.
  intros H. unfold lfo_value.
  replace (md ÷ 2)%Z with 0%Z by (Z.to_euclidean_division_equations; lia).
  apply Rmult_0_l.
Qed.

(** The converse of [flanger_process_sample_Ok]: an iteration whose reads
    and writes are in range, with a nonzero rate and size, succeeds. *)
Lemma flanger_process_sample_run (start md ch : Z) (g : R) (size i : Z)
    (st : Flanger.state) (inb inb' : AudioBuffer)
    (p d1 d2 f1 f2 x : R) (fb : AudioBuffer) :
  zget (Flanger.sinePhase st) ch = Ok p ->
  Flanger.sampleRate st <> 0 ->
  size <> 0%Z ->
  let q := advance_phase
             (Flanger.sinefrequency st / Flanger.sampleRate st) p in
  let t := lfo_value md q in
  let d := truncate t in
  let f := t - IZR d in
  let wp := Flanger.delayBufferWritePosition st in
  let k1 := Z.rem (Z.rem (size + wp - d) size + i) size in
  let k2 := Z.rem (Z.rem (size + wp - d - 1) size + i) size in
  let output :=
    if Req_dec_T (Flanger.feedbackLevel st) 0
    then x + Flanger.flangerDepth st * blend f d1 d2
           + Flanger.feedbackLevel st * blend f f1 f2
    else Flanger.flangerDepth st * blend f d1 d2
           + Flanger.feedbackLevel st * blend f f1 f2 in
  getSample (Flanger.delayBuffer st) ch (start + k1) = Ok d1 ->
  getSample (Flanger.delayBuffer st) ch (start + k2) = Ok d2 ->
  getSample (Flanger.feedbackBuffer st) ch (start + k1) = Ok f1 ->
  getSample (Flanger.feedbackBuffer st) ch (start + k2) = Ok f2 ->
  getSample inb ch (start + i) = Ok x ->
  setSample (Flanger.feedbackBuffer st) ch
    (Z.rem (Flanger.feedbackBufferWritePosition st + i) size) output
  = Ok fb ->
  setSample inb ch (start + i) (g * output) = Ok inb' ->
  Flanger.process_sample start md ch g size i (st, inb)
  = Ok (Flanger.with_feedbackBuffer
          (Flanger.with_sinePhase st
             (replace_nth (Z.to_nat ch) q (Flanger.sinePhase st))) fb,
        inb').
Proof.
  intros Hp Hsr Hsz q t d f wp k1 k2 output Hd1 Hd2 Hf1 Hf2 Hx Hfb Hout.
  unfold Flanger.process_sample.
  rewrite (lfo_sinewave_eq st md ch p Hp Hsr). fold q. fold (lfo_value md q).
  fold t. cbn [bind]. fold d. cbn [Flanger.delayBufferWritePosition
    Flanger.with_sinePhase Flanger.delayBuffer Flanger.feedbackBuffer
    Flanger.feedbackLevel Flanger.flangerDepth
    Flanger.feedbackBufferWritePosition].
  fold wp. repeat (rewrite irem_nonzero by assumption; cbn [bind]).
  fold k1 k2. rewrite Hd1. cbn [bind]. rewrite Hd2. cbn [bind].
  rewrite Hf1. cbn [bind]. rewrite Hf2. cbn [bind]. fold f.
  unfold output in Hfb, Hout. unfold blend in Hfb, Hout.
  destruct (Req_dec_T (Flanger.feedbackLevel st) 0).
  - rewrite Hx. cbn [bind]. try rewrite irem_nonzero by assumption. cbn [bind].
    rewrite Hfb. cbn [bind]. rewrite Hout. reflexivity.
  - cbn [bind]. try rewrite irem_nonzero by assumption. cbn [bind].
    rewrite Hfb. cbn [bind]. rewrite Hout. reflexivity.
Qed.

Lemma bind_run {A B : Type} (m : result A) (f : A -> result B) (a : A) (b : B) :
  m = Ok a -> f a = Ok b -> bind m f = Ok b.
Proof. intros -> H. exact H. Qed.

Ltac low_delay :=
  rewrite ?lfo_value_low by lia; rewrite ?truncate_IZR; try reflexivity.

Lemma flanger_example_run :
  exists st' inb',
    Flanger.process flanger_example flanger_input 0 2 0 0 1 = Ok (st', inb').
Proof.
  eexists. eexists. unfold Flanger.process.
  eapply bind_run; [reflexivity|].
  eapply bind_run; [reflexivity|].
  change (Z.to_nat 2) with 2%nat. cbn [Flanger.process_loop].
  eapply bind_run.
  { eapply flanger_process_sample_run;
      [reflexivity | simpl; lra | discriminate | low_delay ..]. }
  eapply bind_run.
  { eapply flanger_process_sample_run;
      [reflexivity | simpl; lra | discriminate | low_delay ..]. }
  reflexivity.
Qed.

Lemma flanger_process_output_witness :
  exists st' inb',
    Flanger.process flanger_example flanger_input 0 2 0 0 1 = Ok (st', inb') /\
    getSample inb' 0 0 = Ok (3 / 2).
Proof.
  destruct flanger_example_run as (st' & inb' & Hrun).
  exists st', inb'. split; [exact Hrun|].
  destruct (flanger_process_output _ _ _ _ _ _ _ _ Hrun)
    as (data & st0 & Hdata & Hfill & H).
  destruct (H 0%Z ltac:(lia))
    as (p0 & x & line & sti & inbi & fbline & r1 & r2 & g1 & g2 &
        Hp0 & Hx & Hline & _ & _ & Hr1 & Hr2 & _ & _ & Hout & _).
  injection Hdata as <-. injection Hfill as <-. injection Hx as <-.
  injection Hline as <-.
  rewrite lfo_value_low, truncate_IZR in Hr1, Hr2, Hout by lia.
  injection Hr1 as <-. injection Hr2 as <-.
  rewrite Hout by reflexivity. f_equal.
  unfold blend. simpl. lra.
Defined.

(** ** The sample loop of the pitch shifter *)

Lemma shifter_frame_refl (st : PitchShifter.state) : shifter_frame st st.
Proof. unfold shifter_frame. tauto. Qed.

Lemma shifter_frame_trans (a b c : PitchShifter.state) :
  shifter_frame a b -> shifter_frame b c -> shifter_frame a c.
Proof.
  unfold shifter_frame. intros H1 H2.
  decompose [and] H1. decompose [and] H2. repeat split; congruence.
Qed.

(** One iteration of the loop of [PitchShifter::process], read off the
    code. *)
Lemma shifter_process_sample_Ok (start md ch : Z) (g : R) (size i : Z)
    (st st' : PitchShifter.state) (inb inb' : AudioBuffer) :
  PitchShifter.process_sample start md ch g size i (st, inb) = Ok (st', inb') ->
  exists p1 p2 d1 d2,
    PitchShifter.sampleRate st <> 0 /\
    zget (PitchShifter.sawtoothPhase1 st) ch = Ok p1 /\
    zget (PitchShifter.sawtoothPhase2 st) ch = Ok p2 /\
    size <> 0%Z /\
    IZR md <> 0 /\
    let inc := sawtooth_increment st in
    let q1 := advance_phase inc p1 in
    let q2 := advance_phase inc p2 in
    let s1 := PitchShifter.ramp (PitchShifter.pitchUporDown st) md q1 in
    let s2 := PitchShifter.ramp (PitchShifter.pitchUporDown st) md q2 in
    let wp := PitchShifter.delayBufferWritePosition st in
    let k1 := Z.rem (Z.rem (size + wp - truncate s1) size + i) size in
    let k2 := Z.rem (Z.rem (size + wp - truncate s2) size + i) size in
    getSample (PitchShifter.delayBuffer st) ch (start + k1) = Ok d1 /\
    getSample (PitchShifter.delayBuffer st) ch (start + k2) = Ok d2 /\
    setSample inb ch (start + i)
      (g * (sin (PI * s1 / IZR md) * d1 + sin (PI * s2 / IZR md) * d2))
    = Ok inb' /\
    st' = PitchShifter.with_sawtoothPhase2
            (PitchShifter.with_sawtoothPhase1 st
               (replace_nth (Z.to_nat ch) q1 (PitchShifter.sawtoothPhase1 st)))
            (replace_nth (Z.to_nat ch) q2 (PitchShifter.sawtoothPhase2 st)).
Proof.
  unfold PitchShifter.process_sample. intros H.
  inv_bind H. destruct v as [st1 s1].
  apply sawtooth1_Ok in E. destruct E as (p1 & Hsr & Hp1 & Hst1 & Hs1).
  inv_bind H. destruct v as [st2 s2].
  apply sawtooth2_Ok in E. destruct E as (p2 & _ & Hp2 & Hst2 & Hs2).
  subst st1. simpl in Hp2, Hst2, Hs2.
  change (sawtooth_increment
            (PitchShifter.with_sawtoothPhase1 st
               (replace_nth (Z.to_nat ch)
                  (advance_phase (sawtooth_increment st) p1)
                  (PitchShifter.sawtoothPhase1 st))))
    with (sawtooth_increment st) in Hst2, Hs2.
  subst st2 s1 s2. simpl in H.
  inv_bind H. apply irem_Ok in E. destruct E as [Hsz ->].
  inv_bind H. apply irem_Ok in E. destruct E as [_ ->].
  inv_bind H. apply fdiv_Ok in E. destruct E as [Hmd ->].
  inv_bind H. apply fdiv_Ok in E. destruct E as [_ ->].
  inv_bind H. apply irem_Ok in E. destruct E as [_ ->].
  inv_bind H. apply irem_Ok in E. destruct E as [_ ->].
  inv_bind H. inv_bind H. inv_bind H. inv_Ok H.
  exists p1, p2, v, v0. cbv zeta. repeat split; assumption.
Qed.

Lemma shifter_process_sample_frame (start md ch : Z) (g : R) (size i : Z)
    (st st' : PitchShifter.state) (inb inb' : AudioBuffer) :
  PitchShifter.process_sample start md ch g size i (st, inb) = Ok (st', inb') ->
  shifter_frame st st' /\
  (forall p, zget (PitchShifter.sawtoothPhase1 st) ch = Ok p ->
     zget (PitchShifter.sawtoothPhase1 st') ch
     = Ok (advance_phase (sawtooth_increment st) p)) /\
  (forall p, zget (PitchShifter.sawtoothPhase2 st) ch = Ok p ->
     zget (PitchShifter.sawtoothPhase2 st') ch
     = Ok (advance_phase (sawtooth_increment st) p)) /\
  (forall ch', ch' <> ch ->
     zget (PitchShifter.sawtoothPhase1 st') ch'
     = zget (PitchShifter.sawtoothPhase1 st) ch' /\
     zget (PitchShifter.sawtoothPhase2 st') ch'
     = zget (PitchShifter.sawtoothPhase2 st) ch') /\
  (forall ch' j, ch' <> ch \/ j <> (start + i)%Z ->
     getSample inb' ch' j = getSample inb ch' j).
Proof.
  intros H. apply shifter_process_sample_Ok in H.
  destruct H as (p1 & p2 & d1 & d2 & Hsr & Hp1 & Hp2 & Hsz & Hmd & H).
  cbv zeta in H. destruct H as (_ & _ & Hinb & ->).
  pose proof (zget_bounds _ _ _ Hp1) as Hch.
  split; [unfold shifter_frame; simpl; tauto|].
  split; [|split; [|split]].
  - intros p' Hp'. rewrite Hp1 in Hp'. injection Hp' as <-. simpl.
    eapply zget_replace_nth_same; eauto.
  - intros p' Hp'. rewrite Hp2 in Hp'. injection Hp' as <-. simpl.
    eapply zget_replace_nth_same; eauto.
  - intros ch' Hne. simpl.
    split; apply zget_replace_nth_other; auto; lia.
  - intros ch' j Hne. eapply getSample_setSample_other; eauto.
Qed.

Lemma shifter_process_loop_frame (start md ch : Z) (g : R) (size : Z) :
  forall (n : nat) (s : Z) (st st' : PitchShifter.state)
         (inb inb' : AudioBuffer),
    PitchShifter.process_loop n start md ch g size s (st, inb)
    = Ok (st', inb') ->
    shifter_frame st st' /\
    (forall p, zget (PitchShifter.sawtoothPhase1 st) ch = Ok p ->
       zget (PitchShifter.sawtoothPhase1 st') ch
       = Ok (phase_after (sawtooth_increment st) n p)) /\
    (forall p, zget (PitchShifter.sawtoothPhase2 st) ch = Ok p ->
       zget (PitchShifter.sawtoothPhase2 st') ch
       = Ok (phase_after (sawtooth_increment st) n p)) /\
    length (PitchShifter.sawtoothPhase1 st')
    = length (PitchShifter.sawtoothPhase1 st) /\
    length (PitchShifter.sawtoothPhase2 st')
    = length (PitchShifter.sawtoothPhase2 st) /\
    (forall ch' j,
       ch' <> ch \/ (j < start + s)%Z \/ (start + s + Z.of_nat n <= j)%Z ->
       getSample inb' ch' j = getSample inb ch' j).
Proof.
  induction n as [|n IH]; intros s st st' inb inb' H.
  - simpl in H. inv_Ok H. split; [apply shifter_frame_refl|].
    repeat split; auto.
  - simpl in H. inv_bind H. destruct v as [st1 inb1].
    pose proof (shifter_process_sample_Ok _ _ _ _ _ _ _ _ _ _ E) as Hs.
    destruct Hs as (p1 & p2 & d1 & d2 & _ & _ & _ & _ & _ & Hs).
    cbv zeta in Hs. destruct Hs as (_ & _ & _ & Hst1).
    apply shifter_process_sample_frame in E.
    destruct E as (F1 & P1 & Q1 & _ & B1).
    apply IH in H. destruct H as (F2 & P2 & Q2 & L1 & L2 & B2).
    assert (Hinc : sawtooth_increment st1 = sawtooth_increment st).
    { destruct F1 as (Hf & Hs & _). unfold sawtooth_increment.
      now rewrite Hf, Hs. }
    rewrite Hinc in P2, Q2.
    split; [eapply shifter_frame_trans; eauto|].
    split; [|split; [|split; [|split]]].
    + intros p Hp. rewrite phase_after_succ. apply P2. apply P1. exact Hp.
    + intros p Hp. rewrite phase_after_succ. apply Q2. apply Q1. exact Hp.
    + rewrite L1, Hst1. simpl. apply length_replace_nth.
    + rewrite L2, Hst1. simpl. apply length_replace_nth.
    + intros ch' j Hj. rewrite B2 by lia. apply B1. lia.
Qed.


Lemma shifter_process_Ok (st st' : PitchShifter.state)
    (inb inb' : AudioBuffer) (start n md ch : Z) (g : R) :
  PitchShifter.process st inb start n md ch g = Ok (st', inb') ->
  exists data st0,
    zget inb ch = Ok data /\
    PitchShifter.fillDelaybuffer st (getNumSamples inb) ch
      (getNumSamples (PitchShifter.delayBuffer st)) data start 1 = Ok st0 /\
    PitchShifter.process_loop (Z.to_nat n) start md ch g
      (getNumSamples (PitchShifter.delayBuffer st)) 0 (st0, inb)
    = Ok (st', inb').
Proof.
  unfold PitchShifter.process. intros H. inv_bind H. inv_bind H. eauto.
Qed.

Lemma shifter_fillDelaybuffer_Ok (st st0 : PitchShifter.state)
    (len ch size : Z) (data : list R) (off : Z) (gain : R) :
  PitchShifter.fillDelaybuffer st len ch size data off gain = Ok st0 ->
  exists b,
    fill_ring (PitchShifter.delayBuffer st)
      (PitchShifter.delayBufferWritePosition st)
      len ch size data off gain = Ok b /\
    st0 = PitchShifter.with_delayBuffer st b.
Proof.
  unfold PitchShifter.fillDelaybuffer. intros H. inv_bind H. inv_Ok H. eauto.
Qed.




(** The converse of [shifter_process_sample_Ok]. *)
Lemma shifter_process_sample_run (start md ch : Z) (g : R) (size i : Z)
    (st : PitchShifter.state) (inb inb' : AudioBuffer) (p1 p2 d1 d2 : R) :
  PitchShifter.sampleRate st <> 0 ->
  zget (PitchShifter.sawtoothPhase1 st) ch = Ok p1 ->
  zget (PitchShifter.sawtoothPhase2 st) ch = Ok p2 ->
  size <> 0%Z ->
  IZR md <> 0 ->
  let inc := sawtooth_increment st in
  let q1 := advance_phase inc p1 in
  let q2 := advance_phase inc p2 in
  let s1 := PitchShifter.ramp (PitchShifter.pitchUporDown st) md q1 in
  let s2 := PitchShifter.ramp (PitchShifter.pitchUporDown st) md q2 in
  let wp := PitchShifter.delayBufferWritePosition st in
  let k1 := Z.rem (Z.rem (size + wp - truncate s1) size + i) size in
  let k2 := Z.rem (Z.rem (size + wp - truncate s2) size + i) size in
  getSample (PitchShifter.delayBuffer st) ch (start + k1) = Ok d1 ->
  getSample (PitchShifter.delayBuffer st) ch (start + k2) = Ok d2 ->
  setSample inb ch (start + i)
    (g * (sin (PI * s1 / IZR md) * d1 + sin (PI * s2 / IZR md) * d2))
  = Ok inb' ->
  PitchShifter.process_sample start md ch g size i (st, inb)
  = Ok (PitchShifter.with_sawtoothPhase2
          (PitchShifter.with_sawtoothPhase1 st
             (replace_nth (Z.to_nat ch) q1 (PitchShifter.sawtoothPhase1 st)))
          (replace_nth (Z.to_nat ch) q2 (PitchShifter.sawtoothPhase2 st)),
        inb').
Proof.
  intros Hsr Hp1 Hp2 Hsz Hmd inc q1 q2 s1 s2 wp k1 k2 Hd1 Hd2 Hout.
  unfold PitchShifter.process_sample.
  rewrite (sawtooth1_eq st md ch p1 Hsr Hp1). cbn [bind].
  rewrite (sawtooth2_eq _ md ch p2); [| exact Hsr | exact Hp2].
  cbn [bind].
  change (sawtooth_increment (PitchShifter.with_sawtoothPhase1 st _))
    with inc.
  cbn [PitchShifter.with_sawtoothPhase1 PitchShifter.with_sawtoothPhase2
       PitchShifter.pitchUporDown PitchShifter.delayBufferWritePosition
       PitchShifter.delayBuffer PitchShifter.sawtoothPhase2
       PitchShifter.sawtoothPhase1 PitchShifter.sawtoothFrequency
       PitchShifter.sampleRate PitchShifter.transposition_range
       PitchShifter.delayBufferSize].
  fold inc q1 q2 s1 s2 wp.
  repeat (rewrite irem_nonzero by assumption; cbn [bind]).
  repeat (rewrite fdiv_nonzero by assumption; cbn [bind]).
  repeat (rewrite irem_nonzero by assumption; cbn [bind]).
  fold k1 k2. rewrite Hd1. cbn [bind]. rewrite Hd2. cbn [bind].
  unfold Rdiv in Hout |- *. rewrite Hout. reflexivity.
Qed.

Lemma truncate_unit (x : R) : 0 <= x < 1 -> truncate x = 0%Z.
Proof.
  intros H. unfold truncate. destruct (Rle_dec 0 x); [|lra].
  symmetry. apply Int_part_spec. simpl. lra.
Qed.

Lemma shifter_example_fill :
  PitchShifter.fillDelaybuffer shifter_example 2 0 2 [1; 2] 0 1
  = Ok shifter_filled.
Proof. reflexivity. Qed.

Lemma quarter_phase1 (st : PitchShifter.state) :
  sawtooth_increment st = 1 / 4 ->
  advance_phase (sawtooth_increment st) 0 = 1 / 4.
Proof. intros ->. rewrite advance_phase_below; lra. Qed.

Lemma quarter_phase2 (st : PitchShifter.state) :
  sawtooth_increment st = 1 / 4 ->
  advance_phase (sawtooth_increment st) (5 / 10) = 3 / 4.
Proof. intros ->. rewrite advance_phase_below; lra. Qed.

Lemma unit_delayTime (st : PitchShifter.state) (q : R) :
  PitchShifter.pitchUporDown st = false ->
  0 <= q < 1 ->
  truncate (PitchShifter.ramp (PitchShifter.pitchUporDown st) 1 q) = 0%Z.
Proof. intros -> H. apply truncate_unit. simpl. lra. Qed.

Ltac unit_delay :=
  rewrite ?quarter_phase1, ?quarter_phase2
    by (unfold sawtooth_increment; simpl; lra);
  rewrite ?unit_delayTime by (reflexivity || lra);
  try reflexivity.

Lemma shifter_example_run :
  exists st' inb',
    PitchShifter.process shifter_example flanger_input 0 1 1 0 1
    = Ok (st', inb') /\
    getSample inb' 0 0
    = Ok (1 * (sin (PI * (1 * (1 / 4)) / 1) * (1 * 1)
               + sin (PI * (1 * (3 / 4)) / 1) * (1 * 1))).
Proof.
  eexists. eexists. split.
  - unfold PitchShifter.process.
    eapply bind_run; [reflexivity|].
    eapply bind_run; [exact shifter_example_fill|].
    change (Z.to_nat 1) with 1%nat. cbn [PitchShifter.process_loop].
    eapply bind_run; [|reflexivity].
    eapply shifter_process_sample_run;
      [simpl; lra | reflexivity | reflexivity | discriminate
      | lra | unit_delay ..].
  - unit_delay.
Qed.



(** ** Calls with a nonzero [startSample] *)

Lemma copy_samples_reads (src : list R) (srcOff destStart : Z) (gain : R) :
  forall (n : nat) (i : Z) (dest dest' : list R),
    copy_samples n i dest destStart src srcOff gain = Ok dest' ->
    forall k, (i <= k < i + Z.of_nat n)%Z ->
      (0 <= srcOff + k < Z.of_nat (length src))%Z.
Proof.
  induction n as [|n IH]; intros i dest dest' H k Hk; [lia|].
  simpl in H. inv_bind H. inv_bind H.
  destruct (Z.eq_dec k i) as [->|Hne].
  - eapply zget_bounds; eauto.
  - eapply IH; [exact H | lia].
Qed.

Lemma copyFromWithRamp_reads (b b' : AudioBuffer) (ch destStart : Z)
    (src : list R) (srcOff n : Z) (gain : R) :
  copyFromWithRamp b ch destStart src srcOff n gain = Ok b' ->
  forall k, (0 <= k < n)%Z -> (0 <= srcOff + k < Z.of_nat (length src))%Z.
Proof.
  unfold copyFromWithRamp. intros H k Hk.
  destruct (Z.leb_spec n 0); [lia|]. inv_bind H. inv_bind H.
  eapply copy_samples_reads; [exact E0 | lia].
Qed.

(** A block write of a whole, nonempty block succeeds only from the start
    of the block. *)
Lemma fill_ring_whole_block (b b' : AudioBuffer) (wp len ch size : Z)
    (data : list R) (off : Z) (gain : R) :
  fill_ring b wp len ch size data off gain = Ok b' ->
  Z.of_nat (length data) = len ->
  (0 < len)%Z ->
  off = 0%Z.
Proof.
  unfold fill_ring. intros H Hlen Hpos.
  destruct (Z.gtb_spec size (len + wp)) as [Hfit|Hsplit].
  - pose proof (copyFromWithRamp_reads _ _ _ _ _ _ _ _ H) as R.
    pose proof (R 0%Z ltac:(lia)). pose proof (R (len - 1)%Z ltac:(lia)). lia.
  - inv_bind H.
    pose proof (copyFromWithRamp_reads _ _ _ _ _ _ _ _ E) as R1.
    pose proof (copyFromWithRamp_reads _ _ _ _ _ _ _ _ H) as R2.
    destruct (Z_lt_dec 0 (size - wp)) as [Hr|Hr].
    + pose proof (R1 0%Z ltac:(lia)).
      destruct (Z_lt_dec (size - wp) len) as [Hl|Hl].
      * pose proof (R2 (len - (size - wp) - 1)%Z ltac:(lia)). lia.
      * pose proof (R1 (len - 1)%Z ltac:(lia)). lia.
    + pose proof (R2 0%Z ltac:(lia)).
      pose proof (R2 (len - (size - wp) - 1)%Z ltac:(lia)). lia.
Qed.

(** On a nonempty rectangular block, [process] of either class runs without
    error only with [startSample = 0]: the block write copies
    [getNumSamples] samples starting at [startSample]. *)
Lemma process_startSample (inb : AudioBuffer) (start n md ch : Z) (g : R)
    (data : list R) :
  zget inb ch = Ok data ->
  Z.of_nat (length data) = getNumSamples inb ->
  (0 < getNumSamples inb)%Z ->
  (forall st st' inb',
     Flanger.process st inb start n md ch g = Ok (st', inb') ->
     start = 0%Z) /\
  (forall st st' inb',
     PitchShifter.process st inb start n md ch g = Ok (st', inb') ->
     start = 0%Z).
Proof.
  intros Hdata Hrect Hpos. split; intros st st' inb' H.
  - apply flanger_process_Ok in H.
    destruct H as (data' & st0 & Hd & Hfill & _).
    rewrite Hdata in Hd. injection Hd as <-.
    apply flanger_fillDelaybuffer_Ok in Hfill. destruct Hfill as (b & Hb & _).
    eapply fill_ring_whole_block; eauto.
  - apply shifter_process_Ok in H.
    destruct H as (data' & st0 & Hd & Hfill & _).
    rewrite Hdata in Hd. injection Hd as <-.
    apply shifter_fillDelaybuffer_Ok in Hfill. destruct Hfill as (b & Hb & _).
    eapply fill_ring_whole_block; eauto.
Qed.

(** ** Silence in, silence out *)

Lemma Forall_replace_nth {A : Type} (P : A -> Prop) (n : nat) (x : A)
    (l : list A) :
  Forall P l -> P x -> Forall P (replace_nth n x l).
Proof.
  intros Hl Hx. revert n. induction Hl as [|h t Hh Ht IH]; intros [|n]; simpl;
    constructor; auto.
Qed.

Lemma zget_Forall {A : Type} (P : A -> Prop) (l : list A) (i : Z) (x : A) :
  Forall P l -> zget l i = Ok x -> P x.
Proof.
  intros Hl H. apply zget_Ok in H. destruct H as [_ H].
  apply nth_error_In in H. rewrite Forall_forall in Hl. auto.
Qed.

Lemma zset_Forall {A : Type} (P : A -> Prop) (l l' : list A) (i : Z) (x : A) :
  Forall P l -> P x -> zset l i x = Ok l' -> Forall P l'.
Proof.
  intros Hl Hx H. apply zset_Ok in H. destruct H as [_ ->].
  now apply Forall_replace_nth.
Qed.

Lemma getSample_all_zero (b : AudioBuffer) (ch i : Z) (x : R) :
  all_zero b -> getSample b ch i = Ok x -> x = 0.
Proof.
  intros Hb H. apply getSample_Ok in H. destruct H as (line & Hl & Hx).
  apply (zget_Forall _ _ _ _ Hb) in Hl.
  apply (zget_Forall _ _ _ _ Hl) in Hx. exact Hx.
Qed.

Lemma setSample_all_zero (b b' : AudioBuffer) (ch i : Z) :
  all_zero b -> setSample b ch i 0 = Ok b' -> all_zero b'.
Proof.
  intros Hb H. apply setSample_Ok in H.
  destruct H as (line & line' & H0 & H1 & H2).
  apply (zget_Forall _ _ _ _ Hb) in H0.
  eapply zset_Forall; [exact Hb | | exact H2].
  eapply zset_Forall; [exact H0 | reflexivity | exact H1].
Qed.

Lemma copy_samples_zero (src : list R) (srcOff destStart : Z) (gain : R) :
  Forall (fun x => x = 0) src ->
  forall (n : nat) (i : Z) (dest dest' : list R),
    Forall (fun x => x = 0) dest ->
    copy_samples n i dest destStart src srcOff gain = Ok dest' ->
    Forall (fun x => x = 0) dest'.
Proof.
  intros Hsrc. induction n as [|n IH]; intros i dest dest' Hd H.
  - simpl in H. inv_Ok H. exact Hd.
  - simpl in H. inv_bind H. inv_bind H.
    apply (zget_Forall _ _ _ _ Hsrc) in E. subst v.
    eapply IH; [|exact H].
    eapply zset_Forall; [exact Hd | | exact E0]. simpl. ring.
Qed.

Lemma copyFromWithRamp_zero (b b' : AudioBuffer) (ch destStart : Z)
    (src : list R) (srcOff n : Z) (gain : R) :
  all_zero b -> Forall (fun x => x = 0) src ->
  copyFromWithRamp b ch destStart src srcOff n gain = Ok b' ->
  all_zero b'.
Proof.
  intros Hb Hsrc H. unfold copyFromWithRamp in H.
  destruct (n <=? 0)%Z; [inv_Ok H; exact Hb|]. inv_bind H. inv_bind H.
  apply (zget_Forall _ _ _ _ Hb) in E.
  eapply zset_Forall; [exact Hb | | exact H].
  simpl. eapply copy_samples_zero; [exact Hsrc | exact E | exact E0].
Qed.

Lemma fill_ring_zero (b b' : AudioBuffer) (wp len ch size : Z)
    (data : list R) (off : Z) (gain : R) :
  all_zero b -> Forall (fun x => x = 0) data ->
  fill_ring b wp len ch size data off gain = Ok b' ->
  all_zero b'.
Proof.
  intros Hb Hd H. unfold fill_ring in H.
  destruct (size >? len + wp)%Z.
  - eapply copyFromWithRamp_zero; eauto.
  - inv_bind H. eapply copyFromWithRamp_zero; [| exact Hd | exact H].
    eapply copyFromWithRamp_zero; eauto.
Qed.

Lemma shifter_process_loop_zero (start md ch : Z) (g : R) (size : Z) :
  forall (n : nat) (s : Z) (st st' : PitchShifter.state)
         (inb inb' : AudioBuffer),
    all_zero (PitchShifter.delayBuffer st) ->
    all_zero inb ->
    PitchShifter.process_loop n start md ch g size s (st, inb)
    = Ok (st', inb') ->
    all_zero inb'.
Proof.
  induction n as [|n IH]; intros s st st' inb inb' Hd Hi H.
  - simpl in H. inv_Ok H. exact Hi.
  - simpl in H. inv_bind H. destruct v as [st1 inb1].
    pose proof (shifter_process_sample_frame _ _ _ _ _ _ _ _ _ _ E)
      as ((_ & _ & _ & _ & _ & _ & Fdb) & _).
    apply shifter_process_sample_Ok in E.
    destruct E as (p1 & p2 & d1 & d2 & _ & _ & _ & _ & _ & E).
    cbv zeta in E. destruct E as (Hd1 & Hd2 & Hout & _).
    apply (getSample_all_zero _ _ _ _ Hd) in Hd1.
    apply (getSample_all_zero _ _ _ _ Hd) in Hd2. subst d1 d2.
    match type of Hout with
    | setSample _ _ _ ?v = _ => replace v with 0 in Hout by ring
    end.
    apply (IH _ _ _ _ _ ltac:(rewrite Fdb; exact Hd)
             (setSample_all_zero _ _ _ _ Hi Hout) H).
Qed.

Lemma shifter_process_zero (st st' : PitchShifter.state)
    (inb inb' : AudioBuffer) (start n md ch : Z) (g : R) :
  all_zero (PitchShifter.delayBuffer st) ->
  all_zero inb ->
  PitchShifter.process st inb start n md ch g = Ok (st', inb') ->
  all_zero (PitchShifter.delayBuffer st') /\ all_zero inb'.
Proof.
  intros Hd Hi H. apply shifter_process_Ok in H.
  destruct H as (data & st0 & Hdata & Hfill & Hloop).
  apply shifter_fillDelaybuffer_Ok in Hfill. destruct Hfill as (b & Hb & ->).
  apply (zget_Forall _ _ _ _ Hi) in Hdata.
  pose proof (fill_ring_zero _ _ _ _ _ _ _ _ _ Hd Hdata Hb) as Hb0.
  pose proof (shifter_process_loop_frame _ _ _ _ _ _ _ _ _ _ _ Hloop)
    as ((_ & _ & _ & _ & _ & _ & Fdb) & _).
  split.
  - rewrite Fdb. exact Hb0.
  - eapply shifter_process_loop_zero; [| exact Hi | exact Hloop]. exact Hb0.
Qed.

Lemma cleared_all_zero (c : nat) (n : Z) : all_zero (cleared c n).
Proof.
  unfold all_zero, cleared. apply Forall_forall. intros l Hl.
  apply repeat_spec in Hl. subst l.
  apply Forall_forall. intros x Hx. now apply repeat_spec in Hx.
Qed.

Lemma silent_run_delayBuffer (st : PitchShifter.state) :
  silent_run st -> all_zero (PitchShifter.delayBuffer st).
Proof.
  induction 1 as [tr ds spb sr | st _ IH | st _ IH | st x _ IH
                 | st n st' _ IH Ha | st inb start n md ch g st' inb' _ IH Hz Hp];
    simpl; auto.
  - apply cleared_all_zero.
  - unfold PitchShifter.adjustDelayBufferWritePosition in Ha.
    inv_bind Ha. inv_Ok Ha. exact IH.
  - apply (shifter_process_zero _ _ _ _ _ _ _ _ _ IH Hz Hp).
Qed.

Lemma silent_input_all_zero : all_zero silent_input.
Proof. repeat constructor. Qed.

(** ** The two sawtooth phases stay in anti-phase *)

Lemma antiphase_advance (inc p1 p2 : R) :
  antiphase p1 p2 ->
  antiphase (advance_phase inc p1) (advance_phase inc p2).
Proof.
  intros [k Hk].
  destruct (advance_phase_shift inc p1) as [k1 H1].
  destruct (advance_phase_shift inc p2) as [k2 H2].
  exists (k + k2 - k1)%Z. rewrite H1, H2, minus_IZR, plus_IZR. lra.
Qed.

Lemma shifter_process_sample_antiphase (start md ch : Z) (g : R) (size i : Z)
    (st st' : PitchShifter.state) (inb inb' : AudioBuffer) :
  PitchShifter.process_sample start md ch g size i (st, inb) = Ok (st', inb') ->
  phases_antiphase st -> phases_antiphase st'.
Proof.
  intros H Hinv.
  pose proof (shifter_process_sample_Ok _ _ _ _ _ _ _ _ _ _ H)
    as (p1 & p2 & _ & _ & _ & Hp1 & Hp2 & _).
  apply shifter_process_sample_frame in H.
  destruct H as (_ & P1 & P2 & Poth & _).
  intros ch' a1 a2 H1 H2. destruct (Z.eq_dec ch' ch) as [->|Hne].
  - rewrite (P1 p1 Hp1) in H1. injection H1 as <-.
    rewrite (P2 p2 Hp2) in H2. injection H2 as <-.
    apply antiphase_advance. eapply Hinv; eauto.
  - destruct (Poth ch' Hne) as [E1 E2]. rewrite E1 in H1. rewrite E2 in H2.
    eapply Hinv; eauto.
Qed.

Lemma shifter_process_loop_antiphase (start md ch : Z) (g : R) (size : Z) :
  forall (n : nat) (s : Z) (st st' : PitchShifter.state)
         (inb inb' : AudioBuffer),
    PitchShifter.process_loop n start md ch g size s (st, inb)
    = Ok (st', inb') ->
    phases_antiphase st -> phases_antiphase st'.
Proof.
  induction n as [|n IH]; intros s st st' inb inb' H Hinv.
  - simpl in H. inv_Ok H. exact Hinv.
  - simpl in H. inv_bind H. destruct v as [st1 inb1].
    eapply IH; [exact H|].
    eapply shifter_process_sample_antiphase; eauto.
Qed.

Lemma shifter_process_antiphase (st st' : PitchShifter.state)
    (inb inb' : AudioBuffer) (start n md ch : Z) (g : R) :
  PitchShifter.process st inb start n md ch g = Ok (st', inb') ->
  phases_antiphase st -> phases_antiphase st'.
Proof.
  intros H Hinv. apply shifter_process_Ok in H.
  destruct H as (data & st0 & _ & Hfill & Hloop).
  apply shifter_fillDelaybuffer_Ok in Hfill. destruct Hfill as (b & _ & ->).
  eapply shifter_process_loop_antiphase; [exact Hloop|]. exact Hinv.
Qed.

Lemma constructed_phases (tr ds ch : Z) (p1 p2 : R) :
  zget (PitchShifter.sawtoothPhase1 (PitchShifter.constructed tr ds)) ch
  = Ok p1 ->
  zget (PitchShifter.sawtoothPhase2 (PitchShifter.constructed tr ds)) ch
  = Ok p2 ->
  p1 = 0 /\ p2 = 5 / 10.
Proof.
  simpl. intros H1 H2.
  apply zget_Ok in H1. destruct H1 as [_ H1].
  apply zget_Ok in H2. destruct H2 as [_ H2].
  destruct (Z.to_nat ch) as [|[|[|k]]]; simpl in H1, H2;
    try discriminate; injection H1 as <-; injection H2 as <-; auto.
Qed.

Lemma shifter_reachable_antiphase (st : PitchShifter.state) :
  shifter_reachable st -> phases_antiphase st.
Proof.
  induction 1 as [tr ds | st spb sr _ IH | st _ IH | st _ IH | st x _ IH
                 | st n st' _ IH Ha | st inb start n md ch g st' inb' _ IH Hp].
  - intros ch p1 p2 H1 H2.
    destruct (constructed_phases _ _ _ _ _ H1 H2) as [-> ->].
    exists 0%Z. lra.
  - exact IH.
  - exact IH.
  - exact IH.
  - exact IH.
  - unfold PitchShifter.adjustDelayBufferWritePosition in Ha.
    inv_bind Ha. inv_Ok Ha. exact IH.
  - eapply shifter_process_antiphase; eauto.
Qed.

(** C8.  After the constructor the two sawtooth phases of a channel are 0
    and 0.5.  One paired advance (sawtooth 1, then sawtooth 2, both with
    the frequency of the object) keeps the difference [phase2 - phase1]
    equal to 0.5 modulo 1, and so does every sequence of calls of the
    member functions: in every state the pitch shifter can reach, on every
    channel, the difference is 0.5 plus an integer. *)
Theorem sawtooth_phases_antiphase :
  (forall tr ds ch p1 p2,
     zget (PitchShifter.sawtoothPhase1 (PitchShifter.constructed tr ds)) ch
     = Ok p1 ->
     zget (PitchShifter.sawtoothPhase2 (PitchShifter.constructed tr ds)) ch
     = Ok p2 ->
     p1 = 0 /\ p2 = 5 / 10) /\
  (forall st md ch st1 v1 st2 v2 p1 p2,
     zget (PitchShifter.sawtoothPhase1 st) ch = Ok p1 ->
     zget (PitchShifter.sawtoothPhase2 st) ch = Ok p2 ->
     antiphase p1 p2 ->
     PitchShifter.sawtooth1 st md ch = Ok (st1, v1) ->
     PitchShifter.sawtooth2 st1 md ch = Ok (st2, v2) ->
     exists q1 q2,
       zget (PitchShifter.sawtoothPhase1 st2) ch = Ok q1 /\
       zget (PitchShifter.sawtoothPhase2 st2) ch = Ok q2 /\
       antiphase q1 q2) /\
  (forall st, shifter_reachable st ->
     forall ch p1 p2,
       zget (PitchShifter.sawtoothPhase1 st) ch = Ok p1 ->
       zget (PitchShifter.sawtoothPhase2 st) ch = Ok p2 ->
       exists k : Z, p2 - p1 = 5 / 10 + IZR k).
Proof.
  split; [exact constructed_phases|]. split.
  - intros st md ch st1 v1 st2 v2 p1 p2 Hp1 Hp2 Ha H1 H2.
    apply sawtooth1_Ok in H1. destruct H1 as (a1 & _ & Ha1 & -> & _).
    apply sawtooth2_Ok in H2. destruct H2 as (a2 & _ & Ha2 & -> & _).
    simpl in Ha2. rewrite Hp1 in Ha1. injection Ha1 as <-.
    rewrite Hp2 in Ha2. injection Ha2 as <-.
    eexists _, _. simpl.
    split; [eapply zget_replace_nth_same; eauto|].
    split; [eapply zget_replace_nth_same; eauto|].
    now apply antiphase_advance.
  - intros st Hr ch p1 p2 H1 H2.
    exact (shifter_reachable_antiphase st Hr ch p1 p2 H1 H2).
Qed.

Lemma shifter_example_reachable : shifter_reachable shifter_example.
Proof.
  replace shifter_example
    with (PitchShifter.setLevel
            (PitchShifter.initialize (PitchShifter.constructed 0 0) 1 100)
            11025).
  - apply sr_setLevel, sr_initialize, sr_constructed.
  - unfold PitchShifter.setLevel, PitchShifter.initialize, shifter_example.
    simpl. replace (TP_RANGE * 100) with (IZR 1) by (unfold TP_RANGE; lra).
    rewrite truncate_IZR. reflexivity.
Qed.

Lemma sawtooth_phases_antiphase_witness :
  exists st' inb',
    PitchShifter.process shifter_example flanger_input 0 1 1 0 1
    = Ok (st', inb') /\
    forall ch p1 p2,
      zget (PitchShifter.sawtoothPhase1 st') ch = Ok p1 ->
      zget (PitchShifter.sawtoothPhase2 st') ch = Ok p2 ->
      exists k : Z, p2 - p1 = 5 / 10 + IZR k.
Proof.
  destruct shifter_example_run as (st' & inb' & Hrun & _).
  exists st', inb'. split; [exact Hrun|].
  destruct sawtooth_phases_antiphase as (_ & _ & H).
  apply H. eapply sr_process; [exact shifter_example_reachable | exact Hrun].
Defined.

(** ** The sample rate of the modulators *)

Lemma flanger_process_frame (st st' : Flanger.state) (inb inb' : AudioBuffer)
    (start n md ch : Z) (g : R) :
  Flanger.process st inb start n md ch g = Ok (st', inb') ->
  Flanger.sinefrequency st' = Flanger.sinefrequency st /\
  Flanger.sampleRate st' = Flanger.sampleRate st /\
  Flanger.delayBufferWritePosition st' = Flanger.delayBufferWritePosition st /\
  Flanger.feedbackBufferWritePosition st'
  = Flanger.feedbackBufferWritePosition st.
Proof.
  intros H. apply flanger_process_Ok in H.
  destruct H as (data & st0 & _ & Hfill & Hloop).
  apply flanger_fillDelaybuffer_Ok in Hfill. destruct Hfill as (b & _ & ->).
  apply flanger_process_loop_frame in Hloop.
  destruct Hloop as ((Hf & _ & _ & Hs & Hw & Hfw & _) & _).
  simpl in Hf, Hs, Hw, Hfw. auto.
Qed.

Lemma shifter_process_frame (st st' : PitchShifter.state)
    (inb inb' : AudioBuffer) (start n md ch : Z) (g : R) :
  PitchShifter.process st inb start n md ch g = Ok (st', inb') ->
  PitchShifter.sawtoothFrequency st' = PitchShifter.sawtoothFrequency st /\
  PitchShifter.sampleRate st' = PitchShifter.sampleRate st /\
  PitchShifter.delayBufferWritePosition st'
  = PitchShifter.delayBufferWritePosition st.
Proof.
  intros H. apply shifter_process_Ok in H.
  destruct H as (data & st0 & _ & Hfill & Hloop).
  apply shifter_fillDelaybuffer_Ok in Hfill. destruct Hfill as (b & _ & ->).
  apply shifter_process_loop_frame in Hloop.
  destruct Hloop as ((Hf & Hs & Hw & _) & _).
  simpl in Hf, Hs, Hw. auto.
Qed.






(** ** The write cursors *)

(** C9.  [fillDelaybuffer] changes buffer contents only: the write cursor
    of the delay buffer and, in the flanger, the write cursor of the
    feedback buffer are the same after the call as before, for any
    channel, block length and gain.  [process] leaves them alone as well;
    they move only in [adjustDelayBufferWritePosition] and
    [adjustFeedBackBufferWritePosition], by [numsamplesInBuffer] modulo
    [delayBufferSize]. *)
Theorem fillDelaybuffer_keeps_cursors :
  (forall st st' len ch size data off gain,
     Flanger.fillDelaybuffer st len ch size data off gain = Ok st' ->
     Flanger.delayBufferWritePosition st'
     = Flanger.delayBufferWritePosition st /\
     Flanger.feedbackBufferWritePosition st'
     = Flanger.feedbackBufferWritePosition st) /\
  (forall st st' len ch size data off gain,
     PitchShifter.fillDelaybuffer st len ch size data off gain = Ok st' ->
     PitchShifter.delayBufferWritePosition st'
     = PitchShifter.delayBufferWritePosition st) /\
  (forall st st' inb inb' start n md ch g,
     Flanger.process st inb start n md ch g = Ok (st', inb') ->
     Flanger.delayBufferWritePosition st'
     = Flanger.delayBufferWritePosition st /\
     Flanger.feedbackBufferWritePosition st'
     = Flanger.feedbackBufferWritePosition st) /\
  (forall st st' inb inb' start n md ch g,
     PitchShifter.process st inb start n md ch g = Ok (st', inb') ->
     PitchShifter.delayBufferWritePosition st'
     = PitchShifter.delayBufferWritePosition st) /\
  (forall st st' n,
     Flanger.adjustDelayBufferWritePosition st n = Ok st' ->
     Flanger.delayBufferWritePosition st'
     = Z.rem (Flanger.delayBufferWritePosition st + n)
         (Flanger.delayBufferSize st) /\
     Flanger.feedbackBufferWritePosition st'
     = Flanger.feedbackBufferWritePosition st) /\
  (forall st st' n,
     Flanger.adjustFeedBackBufferWritePosition st n = Ok st' ->
     Flanger.feedbackBufferWritePosition st'
     = Z.rem (Flanger.feedbackBufferWritePosition st + n)
         (Flanger.delayBufferSize st) /\
     Flanger.delayBufferWritePosition st'
     = Flanger.delayBufferWritePosition st) /\
  (forall st st' n,
     PitchShifter.adjustDelayBufferWritePosition st n = Ok st' ->
     PitchShifter.delayBufferWritePosition st'
     = Z.rem (PitchShifter.delayBufferWritePosition st + n)
         (PitchShifter.delayBufferSize st)).
Proof.
  split; [|split; [|split; [|split; [|split; [|split]]]]].
  - intros st st' len ch size data off gain H.
    apply flanger_fillDelaybuffer_Ok in H. destruct H as (b & _ & ->).
    split; reflexivity.
  - intros st st' len ch size data off gain H.
    apply shifter_fillDelaybuffer_Ok in H. destruct H as (b & _ & ->).
    reflexivity.
  - intros st st' inb inb' start n md ch g H.
    apply flanger_process_frame in H. tauto.
  - intros st st' inb inb' start n md ch g H.
    apply shifter_process_frame in H. tauto.
  - intros st st' n H.
    unfold Flanger.adjustDelayBufferWritePosition in H. inv_bind H.
    apply irem_Ok in E. destruct E as [_ ->]. inv_Ok H.
    split; reflexivity.
  - intros st st' n H.
    unfold Flanger.adjustFeedBackBufferWritePosition in H. inv_bind H.
    apply irem_Ok in E. destruct E as [_ ->]. inv_Ok H.
    split; reflexivity.
  - intros st st' n H.
    unfold PitchShifter.adjustDelayBufferWritePosition in H. inv_bind H.
    apply irem_Ok in E. destruct E as [_ ->]. inv_Ok H. reflexivity.
Qed.

Lemma fillDelaybuffer_keeps_cursors_witness :
  exists st',
    Flanger.fillDelaybuffer flanger_example 2 0 2 [1; 2] 0 1 = Ok st' /\
    Flanger.delayBufferWritePosition st' = 0%Z /\
    Flanger.feedbackBufferWritePosition st' = 0%Z.
Proof.
  destruct fillDelaybuffer_keeps_cursors as (H & _).
  eexists. split; [reflexivity|].
  apply (H flanger_example _ 2%Z 0%Z 2%Z [1; 2] 0%Z 1). reflexivity.
Defined.

(** * Further properties of the code *)

(** ** Truncation *)

Lemma truncate_floor (x : R) :
  0 <= x -> IZR (truncate x) <= x < IZR (truncate x) + 1.
Proof.
  intros H. unfold truncate. destruct (Rle_dec 0 x); [|lra].
  pose proof (base_Int_part x). lra.
Qed.

Lemma truncate_bounds (x : R) (m : Z) :
  0 <= x <= IZR m -> (0 <= truncate x <= m)%Z.
Proof.
  intros [H0 Hm]. pose proof (truncate_floor x H0) as [Hlo Hhi]. split.
  - assert (IZR (-1) < IZR (truncate x)) by (simpl; lra).
    apply lt_IZR in H. lia.
  - apply le_IZR. lra.
Qed.

(** ** Shapes of buffers *)

Lemma zget_hd {A : Type} (d : A) (l : list A) (x : A) :
  zget l 0 = Ok x -> hd d l = x.
Proof.
  intros H. apply zget_Ok in H. destruct H as [_ H].
  destruct l; simpl in H; [discriminate | now injection H].
Qed.

Lemma has_line_getNumSamples (b : AudioBuffer) (size : Z) :
  has_line b 0 size -> getNumSamples b = size.
Proof.
  intros (line & Hl & Hs). unfold getNumSamples.
  now rewrite (zget_hd [] _ _ Hl).
Qed.

Lemma shape_has_line (b : AudioBuffer) (c : nat) (size ch : Z) :
  shape b c size -> (0 <= ch < Z.of_nat c)%Z -> has_line b ch size.
Proof.
  intros [Hlen Hall] Hch.
  destruct (zget_in_range b ch) as [line Hline]; [lia|].
  exists line. split; [exact Hline|].
  apply (zget_Forall _ _ _ _ Hall Hline).
Qed.

Lemma shape_getNumSamples (b : AudioBuffer) (c : nat) (size : Z) :
  shape b c size -> (0 < c)%nat -> getNumSamples b = size.
Proof.
  intros H Hc. apply has_line_getNumSamples.
  eapply shape_has_line; [exact H | lia].
Qed.

Lemma cleared_shape (c : nat) (n : Z) :
  (0 <= n)%Z -> shape (cleared c n) c n.
Proof.
  intros Hn. unfold shape, cleared. split; [apply repeat_length|].
  apply Forall_forall. intros l Hl. apply repeat_spec in Hl. subst l.
  rewrite repeat_length. lia.
Qed.

(** ** [initialize] *)



(** ** The commit operations *)

Lemma rem_mod_nonneg (a s : Z) :
  (0 <= a)%Z -> (0 < s)%Z -> Z.rem a s = (a mod s)%Z.
Proof. intros Ha Hs. apply Z.rem_mod_nonneg; lia. Qed.

Lemma rem_add_rem (a m s : Z) :
  (0 <= a)%Z -> (0 <= m)%Z -> s <> 0%Z ->
  Z.rem (Z.rem a s + m) s = Z.rem (a + m) s.
Proof.
  intros Ha Hm Hs. pose proof (Z.rem_nonneg a s Hs Ha) as Hr.
  destruct (Z_lt_dec 0 s) as [Hpos|Hneg].
  - rewrite !(Z.rem_mod_nonneg _ s) by lia.
    apply Z.add_mod_idemp_l. lia.
  - rewrite <- (Z.rem_opp_r a s), <- (Z.rem_opp_r (a + m) s) by lia.
    rewrite <- (Z.rem_opp_r _ s) by lia.
    pose proof (Z.rem_nonneg a (- s) ltac:(lia) Ha).
    rewrite !(Z.rem_mod_nonneg _ (- s)) by lia.
    apply Z.add_mod_idemp_l. lia.
Qed.

(** X2.  With a positive [delayBufferSize] and a cursor that is not
    negative, a commit of [n >= 0] samples whose sum with the cursor does
    not exceed [INT_MAX] returns without error and changes one field only:
    the cursor becomes [(cursor + n) mod delayBufferSize], which lies
    inside the buffer.  (Beyond [INT_MAX] the int sum of the code
    overflows, and the cursor need not stay inside the buffer.)  With
    [delayBufferSize = 0] every commit takes a remainder by zero. *)
Theorem adjust_keeps_cursor_in_range :
  (forall st n,
     (0 < Flanger.delayBufferSize st)%Z ->
     (0 <= Flanger.delayBufferWritePosition st)%Z ->
     (0 <= n)%Z ->
     (Flanger.delayBufferWritePosition st + n <= INT_MAX)%Z ->
     let wp := ((Flanger.delayBufferWritePosition st + n)
                  mod Flanger.delayBufferSize st)%Z in
     (0 <= wp < Flanger.delayBufferSize st)%Z /\
     Flanger.adjustDelayBufferWritePosition st n
     = Ok (Flanger.mkState (Flanger.sinePhase st) (Flanger.sinefrequency st)
             (Flanger.flangerDepth st) (Flanger.feedbackLevel st)
             (Flanger.sampleRate st) wp
             (Flanger.feedbackBufferWritePosition st)
             (Flanger.transposition_range st) (Flanger.delayBufferSize st)
             (Flanger.delayBuffer st) (Flanger.feedbackBuffer st))) /\
  (forall st n,
     (0 < Flanger.delayBufferSize st)%Z ->
     (0 <= Flanger.feedbackBufferWritePosition st)%Z ->
     (0 <= n)%Z ->
     (Flanger.feedbackBufferWritePosition st + n <= INT_MAX)%Z ->
     let wp := ((Flanger.feedbackBufferWritePosition st + n)
                  mod Flanger.delayBufferSize st)%Z in
     (0 <= wp < Flanger.delayBufferSize st)%Z /\
     Flanger.adjustFeedBackBufferWritePosition st n
     = Ok (Flanger.mkState (Flanger.sinePhase st) (Flanger.sinefrequency st)
             (Flanger.flangerDepth st) (Flanger.feedbackLevel st)
             (Flanger.sampleRate st) (Flanger.delayBufferWritePosition st)
             wp
             (Flanger.transposition_range st) (Flanger.delayBufferSize st)
             (Flanger.delayBuffer st) (Flanger.feedbackBuffer st))) /\
  (forall st n,
     (0 < PitchShifter.delayBufferSize st)%Z ->
     (0 <= PitchShifter.delayBufferWritePosition st)%Z ->
     (0 <= n)%Z ->
     (PitchShifter.delayBufferWritePosition st + n <= INT_MAX)%Z ->
     let wp := ((PitchShifter.delayBufferWritePosition st + n)
                  mod PitchShifter.delayBufferSize st)%Z in
     (0 <= wp < PitchShifter.delayBufferSize st)%Z /\
     PitchShifter.adjustDelayBufferWritePosition st n
     = Ok (PitchShifter.mkState (PitchShifter.sawtoothPhase1 st)
             (PitchShifter.sawtoothPhase2 st)
             (PitchShifter.sawtoothFrequency st) (PitchShifter.sampleRate st)
             wp (PitchShifter.transposition_range st)
             (PitchShifter.delayBufferSize st) (PitchShifter.pitchUporDown st)
             (PitchShifter.delayBuffer st))) /\
  (forall st n,
     Flanger.delayBufferSize st = 0%Z ->
     Flanger.adjustDelayBufferWritePosition st n = Err DivisionByZero /\
     Flanger.adjustFeedBackBufferWritePosition st n = Err DivisionByZero) /\
  (forall st n,
     PitchShifter.delayBufferSize st = 0%Z ->
     PitchShifter.adjustDelayBufferWritePosition st n = Err DivisionByZero).
Proof.
  split; [|split; [|split; [|split]]].
  - intros st n Hs Hw Hn _ wp. split; [apply Z.mod_pos_bound; exact Hs|].
    unfold Flanger.adjustDelayBufferWritePosition.
    rewrite irem_nonzero by lia. rewrite rem_mod_nonneg by lia. reflexivity.
  - intros st n Hs Hw Hn _ wp. split; [apply Z.mod_pos_bound; exact Hs|].
    unfold Flanger.adjustFeedBackBufferWritePosition.
    rewrite irem_nonzero by lia. rewrite rem_mod_nonneg by lia. reflexivity.
  - intros st n Hs Hw Hn _ wp. split; [apply Z.mod_pos_bound; exact Hs|].
    unfold PitchShifter.adjustDelayBufferWritePosition.
    rewrite irem_nonzero by lia. rewrite rem_mod_nonneg by lia. reflexivity.
  - intros st n Hs.
    unfold Flanger.adjustDelayBufferWritePosition,
      Flanger.adjustFeedBackBufferWritePosition, irem.
    rewrite Hs. split; reflexivity.
  - intros st n Hs.
    unfold PitchShifter.adjustDelayBufferWritePosition, irem.
    rewrite Hs. reflexivity.
Qed.

Lemma adjust_keeps_cursor_in_range_witness :
  exists st',
    Flanger.adjustDelayBufferWritePosition flanger_example 3 = Ok st' /\
    Flanger.delayBufferWritePosition st' = 1%Z.
Proof.
  destruct adjust_keeps_cursor_in_range as (H & _).
  destruct (H flanger_example 3%Z) as (_ & H1);
    [simpl; lia | simpl; lia | lia | unfold INT_MAX; simpl; lia |].
  eexists. split; [exact H1 | reflexivity].
Defined.

(** X3.  Two commits in a row move the cursor as one commit of the sum
    does, for counts that are not negative and whose sum with the cursor
    does not exceed [INT_MAX]: the caller may commit a block in pieces. *)
Theorem adjust_composes (st st1 st2 : Flanger.state)
    (ps ps1 ps2 : PitchShifter.state) (n m : Z) :
  (0 <= n)%Z -> (0 <= m)%Z ->
  (0 <= Flanger.delayBufferWritePosition st)%Z ->
  (0 <= Flanger.feedbackBufferWritePosition st)%Z ->
  (0 <= PitchShifter.delayBufferWritePosition ps)%Z ->
  (Flanger.delayBufferWritePosition st + n + m <= INT_MAX)%Z ->
  (Flanger.feedbackBufferWritePosition st + n + m <= INT_MAX)%Z ->
  (PitchShifter.delayBufferWritePosition ps + n + m <= INT_MAX)%Z ->
  (Flanger.adjustDelayBufferWritePosition st n = Ok st1 ->
   Flanger.adjustDelayBufferWritePosition st1 m = Ok st2 ->
   Flanger.adjustDelayBufferWritePosition st (n + m) = Ok st2) /\
  (Flanger.adjustFeedBackBufferWritePosition st n = Ok st1 ->
   Flanger.adjustFeedBackBufferWritePosition st1 m = Ok st2 ->
   Flanger.adjustFeedBackBufferWritePosition st (n + m) = Ok st2) /\
  (PitchShifter.adjustDelayBufferWritePosition ps n = Ok ps1 ->
   PitchShifter.adjustDelayBufferWritePosition ps1 m = Ok ps2 ->
   PitchShifter.adjustDelayBufferWritePosition ps (n + m) = Ok ps2).
Proof.
  intros Hn Hm Hw Hf Hp _ _ _. split; [|split].
  - unfold Flanger.adjustDelayBufferWritePosition. intros H1 H2.
    inv_bind H1. apply irem_Ok in E. destruct E as [Hs ->]. inv_Ok H1.
    simpl in H2. inv_bind H2. apply irem_Ok in E. destruct E as [_ ->].
    inv_Ok H2. rewrite irem_nonzero by assumption. simpl.
    rewrite rem_add_rem by lia. now rewrite Z.add_assoc.
  - unfold Flanger.adjustFeedBackBufferWritePosition. intros H1 H2.
    inv_bind H1. apply irem_Ok in E. destruct E as [Hs ->]. inv_Ok H1.
    simpl in H2. inv_bind H2. apply irem_Ok in E. destruct E as [_ ->].
    inv_Ok H2. rewrite irem_nonzero by assumption. simpl.
    rewrite rem_add_rem by lia. now rewrite Z.add_assoc.
  - unfold PitchShifter.adjustDelayBufferWritePosition. intros H1 H2.
    inv_bind H1. apply irem_Ok in E. destruct E as [Hs ->]. inv_Ok H1.
    simpl in H2. inv_bind H2. apply irem_Ok in E. destruct E as [_ ->].
    inv_Ok H2. rewrite irem_nonzero by assumption. simpl.
    rewrite rem_add_rem by lia. now rewrite Z.add_assoc.
Qed.

Lemma adjust_composes_witness :
  exists st1 st2,
    Flanger.adjustDelayBufferWritePosition flanger_example 1 = Ok st1 /\
    Flanger.adjustDelayBufferWritePosition st1 2 = Ok st2 /\
    Flanger.adjustDelayBufferWritePosition flanger_example (1 + 2) = Ok st2.
Proof.
  eexists _, _. split; [reflexivity|]. split; [reflexivity|].
  eapply (adjust_composes flanger_example _ _ shifter_example
            shifter_example shifter_example 1 2);
    try (unfold INT_MAX; simpl; lia); reflexivity.
Defined.

(** ** [Flanger::process] runs without error under the caller's contract *)

Lemma lfo_value_bounds (md : Z) (q : R) :
  (0 <= md)%Z -> 0 <= lfo_value md q <= IZR md.
Proof.
  intros Hmd. unfold lfo_value.
  assert (Hh : (0 <= md ÷ 2)%Z) by (apply Z.quot_pos; lia).
  assert (H2 : (2 * (md ÷ 2) <= md)%Z)
    by (Z.to_euclidean_division_equations; lia).
  apply IZR_le in Hh, H2. rewrite mult_IZR in H2.
  pose proof (SIN_bound (2 * PI * q)) as [Hlo Hhi].
  split; nra.
Qed.

Lemma ring_index_range (a s i : Z) :
  (0 < s)%Z -> (0 <= a)%Z -> (0 <= i)%Z ->
  (0 <= Z.rem (Z.rem a s + i) s < s)%Z.
Proof.
  intros Hs Ha Hi. rewrite (rem_mod_nonneg a s) by lia.
  pose proof (Z.mod_pos_bound a s Hs).
  rewrite rem_mod_nonneg by lia. apply Z.mod_pos_bound. exact Hs.
Qed.

Lemma has_line_read (b : AudioBuffer) (ch size k : Z) :
  has_line b ch size -> (0 <= k < size)%Z ->
  exists x, getSample b ch k = Ok x.
Proof.
  intros (line & Hl & Hs) Hk.
  destruct (zget_in_range line k) as [x Hx]; [lia|].
  exists x. unfold getSample. rewrite Hl. exact Hx.
Qed.

Lemma zset_has_line (b b' : AudioBuffer) (ch : Z) (line line' : list R) :
  zget b ch = Ok line ->
  length line' = length line ->
  zset b ch line' = Ok b' ->
  forall ch' size, has_line b ch' size -> has_line b' ch' size.
Proof.
  intros Hl Hlen Hset ch' size (c & Hc & Hs).
  destruct (Z.eq_dec ch' ch) as [->|Hne].
  - exists line'. split; [eapply zget_zset_same; eauto|].
    rewrite Hl in Hc. injection Hc as <-. lia.
  - exists c. split; [|exact Hs].
    rewrite (zget_zset_other _ _ _ _ _ Hset Hne). exact Hc.
Qed.

Lemma zget_first (b : AudioBuffer) (ch : Z) (line : list R) :
  zget b ch = Ok line -> has_line b 0 (getNumSamples b).
Proof.
  intros H. apply zget_bounds in H.
  destruct b as [|c t]; [simpl in H; lia|].
  exists c. split; reflexivity.
Qed.

Lemma zset_getNumSamples (b b' : AudioBuffer) (ch : Z) (line line' : list R) :
  zget b ch = Ok line ->
  length line' = length line ->
  zset b ch line' = Ok b' ->
  getNumSamples b' = getNumSamples b.
Proof.
  intros Hl Hlen Hset. apply has_line_getNumSamples.
  eapply zset_has_line; eauto. eapply zget_first; eauto.
Qed.

Lemma has_line_write (b : AudioBuffer) (ch size k : Z) (x : R) :
  has_line b ch size -> (0 <= k < size)%Z ->
  exists b',
    setSample b ch k x = Ok b' /\
    getNumSamples b' = getNumSamples b /\
    forall ch' size', has_line b ch' size' -> has_line b' ch' size'.
Proof.
  intros (line & Hl & Hs) Hk.
  pose proof (zget_bounds _ _ _ Hl) as Hch.
  set (line' := replace_nth (Z.to_nat k) x line).
  assert (H1 : zset line k x = Ok line') by (apply zset_in_range; lia).
  assert (Hlen : length line' = length line) by apply length_replace_nth.
  assert (H2 : zset b ch line' = Ok (replace_nth (Z.to_nat ch) line' b))
    by (apply zset_in_range; lia).
  exists (replace_nth (Z.to_nat ch) line' b).
  split; [unfold setSample; rewrite Hl; simpl; rewrite H1; exact H2|].
  split; [eapply zset_getNumSamples; eauto|].
  eapply zset_has_line; eauto.
Qed.

Lemma phase_slot (l : list R) (ch ch' : Z) (q : R) :
  (exists p, zget l ch = Ok p) ->
  (exists p, zget l ch' = Ok p) ->
  exists p, zget (replace_nth (Z.to_nat ch) q l) ch' = Ok p.
Proof.
  intros [p Hp] [p' Hp']. destruct (Z.eq_dec ch' ch) as [->|Hne].
  - exists q. eapply zget_replace_nth_same; eauto.
  - exists p'. rewrite zget_replace_nth_other; auto.
    apply zget_bounds in Hp. lia.
Qed.

(** One iteration in range succeeds and keeps the flanger ready, on every
    channel. *)
Lemma flanger_process_sample_runs (md ch : Z) (g : R) (size len i : Z)
    (st : Flanger.state) (inb : AudioBuffer) :
  flanger_ready st ch size ->
  block_ready inb ch len ->
  (0 <= md < size)%Z ->
  (0 <= i < len)%Z ->
  exists st' inb',
    Flanger.process_sample 0 md ch g size i (st, inb) = Ok (st', inb') /\
    flanger_frame st st' /\
    block_ready inb' ch len /\
    forall ch', flanger_ready st ch' size -> flanger_ready st' ch' size.
Proof.
  intros (Hsize & Hds & Hns & Hdl & Hfl & [p Hp] & Hsr & Hwp & Hfw)
         (Hlen & Hin) Hmd Hi.
  set (q := advance_phase
              (Flanger.sinefrequency st / Flanger.sampleRate st) p).
  set (d := truncate (lfo_value md q)).
  assert (Hd : (0 <= d <= md)%Z)
    by (apply truncate_bounds, lfo_value_bounds; lia).
  set (wp := Flanger.delayBufferWritePosition st) in *.
  assert (K1 : (0 <= Z.rem (Z.rem (size + wp - d) size + i) size < size)%Z)
    by (apply ring_index_range; lia).
  assert (K2 : (0 <= Z.rem (Z.rem (size + wp - d - 1) size + i) size < size)%Z)
    by (apply ring_index_range; lia).
  assert (K3 : (0 <= Z.rem (Flanger.feedbackBufferWritePosition st + i) size
                < size)%Z).
  { rewrite rem_mod_nonneg by lia. apply Z.mod_pos_bound. lia. }
  destruct (has_line_read _ _ _ _ Hdl K1) as [d1 Hd1].
  destruct (has_line_read _ _ _ _ Hdl K2) as [d2 Hd2].
  destruct (has_line_read _ _ _ _ Hfl K1) as [f1 Hf1].
  destruct (has_line_read _ _ _ _ Hfl K2) as [f2 Hf2].
  destruct (has_line_read _ _ _ _ Hin Hi) as [x Hx].
  set (f := lfo_value md q - IZR d).
  set (output :=
         if Req_dec_T (Flanger.feedbackLevel st) 0
         then x + Flanger.flangerDepth st * blend f d1 d2
                + Flanger.feedbackLevel st * blend f f1 f2
         else Flanger.flangerDepth st * blend f d1 d2
                + Flanger.feedbackLevel st * blend f f1 f2).
  destruct (has_line_write _ _ _ _ output Hfl K3) as (fb & Hfb & Hfbn & Hfbl).
  destruct (has_line_write _ _ _ _ (g * output) Hin Hi)
    as (inb' & Hout & Houtn & Houtl).
  eexists _, inb'. split.
  - eapply (flanger_process_sample_run 0 md ch g size i st inb inb'
              p d1 d2 f1 f2 x fb); eauto; lia.
  - split; [unfold flanger_frame; simpl; tauto|].
    split; [split; [congruence | apply Houtl; exact Hin]|].
    intros ch' (_ & _ & _ & Hdl' & Hfl' & Hp' & _). unfold flanger_ready.
    simpl. repeat split; auto; try lia.
    eapply phase_slot; eauto.
Qed.

Lemma flanger_process_loop_runs (md ch : Z) (g : R) (size len : Z) :
  (0 <= md < size)%Z ->
  forall (k : nat) (s : Z) (st : Flanger.state) (inb : AudioBuffer),
    flanger_ready st ch size ->
    block_ready inb ch len ->
    (0 <= s)%Z -> (s + Z.of_nat k <= len)%Z ->
    exists st' inb',
      Flanger.process_loop k 0 md ch g size s (st, inb) = Ok (st', inb') /\
      block_ready inb' ch len /\
      forall ch', flanger_ready st ch' size -> flanger_ready st' ch' size.
Proof.
  intros Hmd. induction k as [|k IH]; intros s st inb Hst Hin Hs Hk.
  - exists st, inb. simpl. auto.
  - destruct (flanger_process_sample_runs md ch g size len s st inb Hst Hin
                Hmd ltac:(lia)) as (st1 & inb1 & Hstep & _ & Hin1 & Hst1).
    destruct (IH (s + 1)%Z st1 inb1 (Hst1 ch Hst) Hin1 ltac:(lia) ltac:(lia))
      as (st' & inb' & Hloop & Hin' & Hst').
    exists st', inb'. cbn [Flanger.process_loop]. rewrite Hstep. cbn [bind].
    split; [exact Hloop|]. split; [exact Hin'|]. auto.
Qed.

(** The block write of [process] keeps the flanger ready. *)
Lemma flanger_fill_runs (st : Flanger.state) (ch size len : Z)
    (data : list R) (gain : R) :
  flanger_ready st ch size ->
  Z.of_nat (length data) = len ->
  (len <= size)%Z ->
  exists st0,
    Flanger.fillDelaybuffer st len ch size data 0 gain = Ok st0 /\
    flanger_frame
      (Flanger.with_delayBuffer st (Flanger.delayBuffer st0)) st0 /\
    Flanger.sinePhase st0 = Flanger.sinePhase st /\
    Flanger.feedbackBuffer st0 = Flanger.feedbackBuffer st /\
    forall ch', flanger_ready st ch' size -> flanger_ready st0 ch' size.
Proof.
  intros (Hsize & Hds & Hns & (line & Hl & Hls) & Hfl & Hp & Hsr & Hwp & Hfw)
         Hlen Hle.
  destruct (fill_ring_spec (Flanger.delayBuffer st)
              (Flanger.delayBufferWritePosition st) len ch size data 0 gain
              line Hl Hls Hwp ltac:(lia) ltac:(lia) ltac:(lia))
    as (b' & line' & Hfill & Hl' & Hls' & Hoth & _).
  exists (Flanger.with_delayBuffer st b').
  unfold Flanger.fillDelaybuffer. rewrite Hfill. simpl.
  split; [reflexivity|]. split; [apply flanger_frame_refl|].
  split; [reflexivity|]. split; [reflexivity|].
  assert (Hany : forall c s, has_line (Flanger.delayBuffer st) c s ->
                             has_line b' c s).
  { intros c s (l0 & Hl0 & Hs0). destruct (Z.eq_dec c ch) as [->|Hne].
    - exists line'. split; [exact Hl'|].
      rewrite Hl in Hl0. injection Hl0 as <-. lia.
    - exists l0. split; [rewrite Hoth by exact Hne; exact Hl0 | exact Hs0]. }
  intros ch' (_ & _ & _ & Hdl' & Hfl' & Hp' & _). unfold flanger_ready.
  simpl. repeat split; auto; try lia.
  apply has_line_getNumSamples, Hany. rewrite <- Hns.
  eapply zget_first; eauto.
Qed.

Lemma flanger_process_runs (st : Flanger.state) (inb : AudioBuffer)
    (n md ch size len : Z) (g : R) :
  flanger_ready st ch size ->
  block_ready inb ch len ->
  (len <= size)%Z ->
  (n <= len)%Z ->
  (0 <= md < size)%Z ->
  exists st' inb',
    Flanger.process st inb 0 n md ch g = Ok (st', inb') /\
    block_ready inb' ch len /\
    forall ch', flanger_ready st ch' size -> flanger_ready st' ch' size.
Proof.
  intros Hst Hin Hle Hn Hmd.
  pose proof Hin as (Hlen & data & Hdata & Hdl).
  pose proof Hst as (_ & _ & Hns & _).
  destruct (flanger_fill_runs st ch size len data 1 Hst Hdl Hle)
    as (st0 & Hfill & _ & _ & _ & Hst0).
  destruct (flanger_process_loop_runs md ch g size len Hmd (Z.to_nat n) 0
              st0 inb (Hst0 ch Hst) Hin ltac:(lia) ltac:(lia))
    as (st' & inb' & Hloop & Hin' & Hst').
  exists st', inb'. split.
  - unfold Flanger.process. rewrite Hdata. simpl. rewrite Hns, Hlen, Hfill.
    simpl. exact Hloop.
  - split; [exact Hin'|]. auto.
Qed.

(** X4.  On a flanger that is ready for the channel (initialized buffers of
    [size] cells, cursors inside them), a call of [process] on a block of
    at most [size] samples, with [startSample = 0], at most the block's
    samples to process and [0 <= maxDelayInSamples < size], runs without
    error: no read or write leaves a buffer and nothing divides by zero.
    The flanger is ready afterwards, on every channel it was ready for, and
    the block keeps its length. *)
Theorem flanger_process_safe (st : Flanger.state) (inb : AudioBuffer)
    (n md ch size len : Z) (g : R) :
  flanger_ready st ch size ->
  block_ready inb ch len ->
  (len <= size)%Z ->
  (n <= len)%Z ->
  (0 <= md < size)%Z ->
  exists st' inb',
    Flanger.process st inb 0 n md ch g = Ok (st', inb') /\
    block_ready inb' ch len /\
    forall ch', flanger_ready st ch' size -> flanger_ready st' ch' size.
Proof. apply flanger_process_runs. Qed.

Lemma flanger_example_ready : flanger_ready flanger_example 0 2.
Proof.
  unfold flanger_ready, has_line. simpl.
  repeat split; try lia; try lra; try reflexivity;
    try (eexists; split; reflexivity); try (eexists; reflexivity).
Qed.

Lemma flanger_input_ready : block_ready flanger_input 0 2.
Proof. split; [reflexivity|]. eexists; split; reflexivity. Qed.

Lemma flanger_process_safe_witness :
  exists st' inb',
    Flanger.process flanger_example flanger_input 0 2 1 0 1 = Ok (st', inb') /\
    flanger_ready st' 0 2.
Proof.
  destruct (flanger_process_safe flanger_example flanger_input 2 1 0 2 2 1
              flanger_example_ready flanger_input_ready)
    as (st' & inb' & H & _ & Hr); try lia.
  exists st', inb'. split; [exact H | exact (Hr 0%Z flanger_example_ready)].
Defined.

(** ** [PitchShifter::process] runs without error under the caller's
    contract *)

Lemma ramp_bounds (dir : bool) (md : Z) (q : R) :
  (0 <= md)%Z -> 0 <= q < 1 ->
  0 <= PitchShifter.ramp dir md q <= IZR md.
Proof.
  intros Hmd Hq. apply IZR_le in Hmd. unfold PitchShifter.ramp.
  destruct dir; split; nra.
Qed.

Lemma shifter_increment_range (st : PitchShifter.state) :
  0 <= PitchShifter.sawtoothFrequency st < PitchShifter.sampleRate st ->
  0 <= sawtooth_increment st < 1.
Proof.
  intros [Hf Hs]. rewrite sawtooth_increment_eq by lra. split.
  - unfold Rdiv. apply Rmult_le_pos; [exact Hf|].
    apply Rlt_le, Rinv_0_lt_compat. lra.
  - apply Rmult_lt_reg_r with (PitchShifter.sampleRate st); [lra|].
    unfold Rdiv. rewrite Rmult_assoc, Rinv_l by lra. lra.
Qed.

Lemma shifter_ready_runnable (st : PitchShifter.state) (ch size : Z) :
  shifter_ready st ch size -> shifter_runnable st ch size.
Proof.
  unfold shifter_ready, shifter_runnable. intros H.
  decompose [and] H. repeat split; auto; lra.
Qed.

Lemma shifter_runnable_ready (st : PitchShifter.state) (ch size : Z) :
  shifter_runnable st ch size ->
  0 < PitchShifter.sawtoothFrequency st ->
  shifter_ready st ch size.
Proof.
  unfold shifter_ready, shifter_runnable. intros H Hf.
  decompose [and] H. repeat split; auto; lra.
Qed.

Lemma phase_slot_range (l : list R) (ch ch' : Z) (q : R) :
  0 <= q < 1 ->
  (exists p, zget l ch = Ok p /\ 0 <= p < 1) ->
  (exists p, zget l ch' = Ok p /\ 0 <= p < 1) ->
  exists p, zget (replace_nth (Z.to_nat ch) q l) ch' = Ok p /\ 0 <= p < 1.
Proof.
  intros Hq (p & Hp & _) (p' & Hp' & Hr').
  destruct (Z.eq_dec ch' ch) as [->|Hne].
  - exists q. split; [eapply zget_replace_nth_same; eauto | exact Hq].
  - exists p'. split; [|exact Hr'].
    rewrite zget_replace_nth_other; auto. apply zget_bounds in Hp. lia.
Qed.

Lemma shifter_process_sample_runs (md ch : Z) (g : R) (size len i : Z)
    (st : PitchShifter.state) (inb : AudioBuffer) :
  shifter_runnable st ch size ->
  block_ready inb ch len ->
  (0 < md <= size)%Z ->
  (0 <= i < len)%Z ->
  exists st' inb',
    PitchShifter.process_sample 0 md ch g size i (st, inb) = Ok (st', inb') /\
    block_ready inb' ch len /\
    forall ch', shifter_runnable st ch' size -> shifter_runnable st' ch' size.
Proof.
  intros (Hsize & Hds & Hns & Hdl & (p1 & Hp1 & Hr1) & (p2 & Hp2 & Hr2)
          & Hf & Hwp) (Hlen & Hin) Hmd Hi.
  pose proof (shifter_increment_range st Hf) as Hinc.
  set (inc := sawtooth_increment st) in *.
  pose proof (advance_phase_range inc p1 Hr1 Hinc) as Hq1.
  pose proof (advance_phase_range inc p2 Hr2 Hinc) as Hq2.
  set (q1 := advance_phase inc p1) in *.
  set (q2 := advance_phase inc p2) in *.
  set (dir := PitchShifter.pitchUporDown st).
  assert (Hd1 : (0 <= truncate (PitchShifter.ramp dir md q1) <= md)%Z)
    by (apply truncate_bounds, ramp_bounds; [lia | exact Hq1]).
  assert (Hd2 : (0 <= truncate (PitchShifter.ramp dir md q2) <= md)%Z)
    by (apply truncate_bounds, ramp_bounds; [lia | exact Hq2]).
  set (wp := PitchShifter.delayBufferWritePosition st) in *.
  assert (K1 : (0 <= Z.rem (Z.rem (size + wp
                   - truncate (PitchShifter.ramp dir md q1)) size + i) size
                < size)%Z) by (apply ring_index_range; lia).
  assert (K2 : (0 <= Z.rem (Z.rem (size + wp
                   - truncate (PitchShifter.ramp dir md q2)) size + i) size
                < size)%Z) by (apply ring_index_range; lia).
  destruct (has_line_read _ _ _ _ Hdl K1) as [d1 Hr1'].
  destruct (has_line_read _ _ _ _ Hdl K2) as [d2 Hr2'].
  destruct (has_line_write _ _ _ _
              (g * (sin (PI * PitchShifter.ramp dir md q1 / IZR md) * d1
                    + sin (PI * PitchShifter.ramp dir md q2 / IZR md) * d2))
              Hin Hi) as (inb' & Hout & Houtn & Houtl).
  assert (Hmd0 : IZR md <> 0).
  { intros E. apply eq_IZR in E. lia. }
  eexists _, inb'. split.
  - eapply (shifter_process_sample_run 0 md ch g size i st inb inb'
              p1 p2 d1 d2); eauto; try lra; try lia.
  - split; [split; [congruence | apply Houtl; exact Hin]|].
    intros ch' (_ & _ & _ & Hdl' & Hp1' & Hp2' & _). unfold shifter_runnable.
    simpl. repeat split; auto; try lia; try lra.
    + eapply phase_slot_range; eauto.
    + eapply phase_slot_range; eauto.
Qed.

Lemma shifter_process_loop_runs (md ch : Z) (g : R) (size len : Z) :
  (0 < md <= size)%Z ->
  forall (k : nat) (s : Z) (st : PitchShifter.state) (inb : AudioBuffer),
    shifter_runnable st ch size ->
    block_ready inb ch len ->
    (0 <= s)%Z -> (s + Z.of_nat k <= len)%Z ->
    exists st' inb',
      PitchShifter.process_loop k 0 md ch g size s (st, inb)
      = Ok (st', inb') /\
      block_ready inb' ch len /\
      forall ch', shifter_runnable st ch' size -> shifter_runnable st' ch' size.
Proof.
  intros Hmd. induction k as [|k IH]; intros s st inb Hst Hin Hs Hk.
  - exists st, inb. simpl. auto.
  - destruct (shifter_process_sample_runs md ch g size len s st inb Hst Hin
                Hmd ltac:(lia)) as (st1 & inb1 & Hstep & Hin1 & Hst1).
    destruct (IH (s + 1)%Z st1 inb1 (Hst1 ch Hst) Hin1 ltac:(lia) ltac:(lia))
      as (st' & inb' & Hloop & Hin' & Hst').
    exists st', inb'. cbn [PitchShifter.process_loop]. rewrite Hstep.
    cbn [bind]. split; [exact Hloop|]. split; [exact Hin'|]. auto.
Qed.

Lemma runnable_fill_runs (st : PitchShifter.state) (ch size len : Z)
    (data : list R) (gain : R) :
  shifter_runnable st ch size ->
  Z.of_nat (length data) = len ->
  (len <= size)%Z ->
  exists st0,
    PitchShifter.fillDelaybuffer st len ch size data 0 gain = Ok st0 /\
    PitchShifter.sawtoothFrequency st0 = PitchShifter.sawtoothFrequency st /\
    forall ch', shifter_runnable st ch' size -> shifter_runnable st0 ch' size.
Proof.
  intros (Hsize & Hds & Hns & (line & Hl & Hls) & Hp1 & Hp2 & Hf & Hwp)
         Hlen Hle.
  destruct (fill_ring_spec (PitchShifter.delayBuffer st)
              (PitchShifter.delayBufferWritePosition st) len ch size data 0
              gain line Hl Hls Hwp ltac:(lia) ltac:(lia) ltac:(lia))
    as (b' & line' & Hfill & Hl' & Hls' & Hoth & _).
  exists (PitchShifter.with_delayBuffer st b').
  unfold PitchShifter.fillDelaybuffer. rewrite Hfill. simpl.
  split; [reflexivity|]. split; [reflexivity|].
  assert (Hany : forall c s, has_line (PitchShifter.delayBuffer st) c s ->
                             has_line b' c s).
  { intros c s (l0 & Hl0 & Hs0). destruct (Z.eq_dec c ch) as [->|Hne].
    - exists line'. split; [exact Hl'|].
      rewrite Hl in Hl0. injection Hl0 as <-. lia.
    - exists l0. split; [rewrite Hoth by exact Hne; exact Hl0 | exact Hs0]. }
  intros ch' (_ & _ & _ & Hdl' & Hp1' & Hp2' & _). unfold shifter_runnable.
  simpl. repeat split; auto; try lia; try lra.
  apply has_line_getNumSamples, Hany. rewrite <- Hns.
  eapply zget_first; eauto.
Qed.

Lemma shifter_fill_runs (st : PitchShifter.state) (ch size len : Z)
    (data : list R) (gain : R) :
  shifter_ready st ch size ->
  Z.of_nat (length data) = len ->
  (len <= size)%Z ->
  exists st0,
    PitchShifter.fillDelaybuffer st len ch size data 0 gain = Ok st0 /\
    forall ch', shifter_ready st ch' size -> shifter_ready st0 ch' size.
Proof.
  intros Hst Hlen Hle.
  destruct (runnable_fill_runs st ch size len data gain
              (shifter_ready_runnable _ _ _ Hst) Hlen Hle)
    as (st0 & Hfill & Hf & Hkeep).
  exists st0. split; [exact Hfill|]. intros ch' Hr.
  apply shifter_runnable_ready.
  - apply Hkeep, shifter_ready_runnable, Hr.
  - rewrite Hf. destruct Hr as (_ & _ & _ & _ & _ & _ & Hr & _). lra.
Qed.

Lemma runnable_process_runs (st : PitchShifter.state) (inb : AudioBuffer)
    (n md ch size len : Z) (g : R) :
  shifter_runnable st ch size ->
  block_ready inb ch len ->
  (len <= size)%Z ->
  (n <= len)%Z ->
  (0 < md <= size)%Z ->
  exists st' inb',
    PitchShifter.process st inb 0 n md ch g = Ok (st', inb') /\
    block_ready inb' ch len /\
    forall ch', shifter_runnable st ch' size -> shifter_runnable st' ch' size.
Proof.
  intros Hst Hin Hle Hn Hmd.
  pose proof Hin as (Hlen & data & Hdata & Hdl).
  pose proof Hst as (_ & _ & Hns & _).
  destruct (runnable_fill_runs st ch size len data 1 Hst Hdl Hle)
    as (st0 & Hfill & _ & Hst0).
  destruct (shifter_process_loop_runs md ch g size len Hmd (Z.to_nat n) 0
              st0 inb (Hst0 ch Hst) Hin ltac:(lia) ltac:(lia))
    as (st' & inb' & Hloop & Hin' & Hst').
  exists st', inb'. split.
  - unfold PitchShifter.process. rewrite Hdata. simpl.
    rewrite Hns, Hlen, Hfill. simpl. exact Hloop.
  - split; [exact Hin'|]. auto.
Qed.

Lemma shifter_process_runs (st : PitchShifter.state) (inb : AudioBuffer)
    (n md ch size len : Z) (g : R) :
  shifter_ready st ch size ->
  block_ready inb ch len ->
  (len <= size)%Z ->
  (n <= len)%Z ->
  (0 < md <= size)%Z ->
  exists st' inb',
    PitchShifter.process st inb 0 n md ch g = Ok (st', inb') /\
    block_ready inb' ch len /\
    forall ch', shifter_ready st ch' size -> shifter_ready st' ch' size.
Proof.
  intros Hst Hin Hle Hn Hmd.
  destruct (runnable_process_runs st inb n md ch size len g
              (shifter_ready_runnable _ _ _ Hst) Hin Hle Hn Hmd)
    as (st' & inb' & Hrun & Hin' & Hkeep).
  exists st', inb'. split; [exact Hrun|]. split; [exact Hin'|].
  intros ch' Hr. apply shifter_runnable_ready.
  - apply Hkeep, shifter_ready_runnable, Hr.
  - apply shifter_process_frame in Hrun. destruct Hrun as (-> & _).
    destruct Hr as (_ & _ & _ & _ & _ & _ & Hr & _). lra.
Qed.

(** X5.  On a pitch shifter that is ready for the channel (initialized
    buffer of [size] cells, cursor inside it, both phases in [0, 1), a
    frequency above 0 and below the sample rate), a call of [process] on a
    block of at most [size] samples, with [startSample = 0], at most the
    block's samples to process and [0 < maxDelayInSamples <= size], runs
    without error.  Afterwards the pitch shifter is ready again, so both
    phases are still in [0, 1), and the block keeps its length. *)
Theorem shifter_process_safe (st : PitchShifter.state) (inb : AudioBuffer)
    (n md ch size len : Z) (g : R) :
  shifter_ready st ch size ->
  block_ready inb ch len ->
  (len <= size)%Z ->
  (n <= len)%Z ->
  (0 < md <= size)%Z ->
  exists st' inb',
    PitchShifter.process st inb 0 n md ch g = Ok (st', inb') /\
    block_ready inb' ch len /\
    forall ch', shifter_ready st ch' size -> shifter_ready st' ch' size.
Proof. apply shifter_process_runs. Qed.

Lemma shifter_example_ready : shifter_ready shifter_example 0 2.
Proof.
  unfold shifter_ready, has_line. simpl.
  split; [lia|]. split; [reflexivity|]. split; [reflexivity|].
  split; [eexists; split; reflexivity|].
  split; [exists 0; split; [reflexivity | lra]|].
  split; [exists (5 / 10); split; [reflexivity | lra]|].
  split; [lra | lia].
Qed.

Lemma shifter_process_safe_witness :
  exists st' inb',
    PitchShifter.process shifter_example flanger_input 0 2 2 0 1
    = Ok (st', inb') /\
    shifter_ready st' 0 2.
Proof.
  destruct (shifter_process_safe shifter_example flanger_input 2 2 0 2 2 1
              shifter_example_ready flanger_input_ready)
    as (st' & inb' & H & _ & Hr); try lia.
  exists st', inb'. split; [exact H | exact (Hr 0%Z shifter_example_ready)].
Defined.

(** ** Readiness over a session *)

Lemma initialized_lines (spb : Z) (SR : R) (ch : Z) :
  (0 < spb + truncate (TP_RANGE * SR))%Z ->
  (0 <= ch < 2)%Z ->
  let size := (spb + truncate (TP_RANGE * SR))%Z in
  getNumSamples (cleared 2 size) = size /\ has_line (cleared 2 size) ch size.
Proof.
  intros Hsize Hch size.
  pose proof (cleared_shape 2 size ltac:(lia)) as Hsh. split.
  - eapply shape_getNumSamples; [exact Hsh | lia].
  - eapply shape_has_line; [exact Hsh | lia].
Qed.

Lemma two_phases (a b : R) (ch : Z) :
  (0 <= ch < 2)%Z -> exists p, zget [a; b] ch = Ok p /\ (p = a \/ p = b).
Proof.
  intros Hch. assert (ch = 0 \/ ch = 1)%Z as [-> | ->] by lia.
  - exists a. split; [reflexivity | now left].
  - exists b. split; [reflexivity | now right].
Qed.

Lemma flanger_initialized_ready (tr ds spb : Z) (SR : R) (ch : Z) :
  (0 < spb + truncate (TP_RANGE * SR))%Z ->
  (0 <= ch < 2)%Z ->
  flanger_ready (Flanger.initialize (Flanger.constructed tr ds) spb SR)
    ch (spb + truncate (TP_RANGE * SR)).
Proof.
  intros Hsize Hch.
  destruct (initialized_lines spb SR ch Hsize Hch) as [Hn Hl].
  destruct (two_phases 0 0 ch Hch) as (p & Hp & _).
  unfold flanger_ready. simpl.
  repeat split; auto; try lia; try lra. exists p. exact Hp.
Qed.





(** ** Silence through the flanger *)

Lemma flanger_process_loop_zero (start md ch : Z) (g : R) (size : Z) :
  forall (n : nat) (s : Z) (st st' : Flanger.state) (inb inb' : AudioBuffer),
    all_zero (Flanger.delayBuffer st) ->
    all_zero (Flanger.feedbackBuffer st) ->
    all_zero inb ->
    Flanger.process_loop n start md ch g size s (st, inb) = Ok (st', inb') ->
    all_zero (Flanger.feedbackBuffer st') /\ all_zero inb'.
Proof.
  induction n as [|n IH]; intros s st st' inb inb' Hd Hf Hi H.
  - simpl in H. inv_Ok H. auto.
  - simpl in H. inv_bind H. destruct v as [st1 inb1].
    pose proof (flanger_process_sample_frame _ _ _ _ _ _ _ _ _ _ E)
      as ((_ & _ & _ & _ & _ & _ & _ & _ & Fdb) & _).
    apply flanger_process_sample_Ok in E.
    destruct E as (p & d1 & d2 & f1 & f2 & x & fb & _ & _ & _ & E).
    cbv zeta in E.
    destruct E as (Hd1 & Hd2 & Hf1 & Hf2 & Hx & Hfb & Hout & Hst1).
    apply (getSample_all_zero _ _ _ _ Hd) in Hd1.
    apply (getSample_all_zero _ _ _ _ Hd) in Hd2.
    apply (getSample_all_zero _ _ _ _ Hf) in Hf1.
    apply (getSample_all_zero _ _ _ _ Hf) in Hf2.
    apply (getSample_all_zero _ _ _ _ Hi) in Hx. subst d1 d2 f1 f2 x.
    match type of Hfb with
    | setSample _ _ _ ?v = _ =>
        assert (Hv : v = 0)
          by (unfold blend;
              destruct (Req_dec_T (Flanger.feedbackLevel st) 0); ring);
        rewrite Hv in Hfb, Hout
    end.
    rewrite Rmult_0_r in Hout.
    apply (IH _ _ _ _ _ ltac:(rewrite Fdb; exact Hd)
             ltac:(rewrite Hst1; simpl;
                   exact (setSample_all_zero _ _ _ _ Hf Hfb))
             (setSample_all_zero _ _ _ _ Hi Hout) H).
Qed.

Lemma flanger_process_zero (st st' : Flanger.state)
    (inb inb' : AudioBuffer) (start n md ch : Z) (g : R) :
  all_zero (Flanger.delayBuffer st) ->
  all_zero (Flanger.feedbackBuffer st) ->
  all_zero inb ->
  Flanger.process st inb start n md ch g = Ok (st', inb') ->
  all_zero (Flanger.delayBuffer st') /\
  all_zero (Flanger.feedbackBuffer st') /\
  all_zero inb'.
Proof.
  intros Hd Hf Hi H. apply flanger_process_Ok in H.
  destruct H as (data & st0 & Hdata & Hfill & Hloop).
  apply flanger_fillDelaybuffer_Ok in Hfill. destruct Hfill as (b & Hb & ->).
  apply (zget_Forall _ _ _ _ Hi) in Hdata.
  pose proof (fill_ring_zero _ _ _ _ _ _ _ _ _ Hd Hdata Hb) as Hb0.
  pose proof (flanger_process_loop_frame _ _ _ _ _ _ _ _ _ _ _ Hloop)
    as ((_ & _ & _ & _ & _ & _ & _ & _ & Fdb) & _).
  split; [rewrite Fdb; exact Hb0|].
  eapply flanger_process_loop_zero; [| | exact Hi | exact Hloop];
    [exact Hb0 | exact Hf].
Qed.

Lemma flanger_silent_run_buffers (st : Flanger.state) :
  flanger_silent_run st ->
  all_zero (Flanger.delayBuffer st) /\ all_zero (Flanger.feedbackBuffer st).
Proof.
  induction 1 as [st spb sr | st x _ IH | st x _ IH | st x _ IH
                 | st n st' _ IH Ha | st n st' _ IH Ha
                 | st inb start n md ch g st' inb' _ IH Hz Hp];
    simpl; auto.
  - split; apply cleared_all_zero.
  - unfold Flanger.adjustDelayBufferWritePosition in Ha.
    inv_bind Ha. inv_Ok Ha. exact IH.
  - unfold Flanger.adjustFeedBackBufferWritePosition in Ha.
    inv_bind Ha. inv_Ok Ha. exact IH.
  - destruct IH as [Hd Hf].
    destruct (flanger_process_zero _ _ _ _ _ _ _ _ _ Hd Hf Hz Hp)
      as (H1 & H2 & _). auto.
Qed.

(** X8.  A flanger that was initialized and has been fed all-zero blocks
    only holds all-zero delay and feedback buffers, and every call of
    [process] on an all-zero block that runs without error leaves the block
    all zero: with silence in, the feedback path adds nothing, whatever the
    depth, the feedback level (also 1 or more), the rate,
    [maxDelayInSamples] and the gain. *)
Theorem flanger_silence (st st' : Flanger.state)
    (inb inb' : AudioBuffer) (start n md ch : Z) (g : R) :
  flanger_silent_run st ->
  all_zero inb ->
  Flanger.process st inb start n md ch g = Ok (st', inb') ->
  all_zero inb' /\
  all_zero (Flanger.delayBuffer st') /\
  all_zero (Flanger.feedbackBuffer st').
Proof.
  intros Hs Hi H. destruct (flanger_silent_run_buffers st Hs) as [Hd Hf].
  destruct (flanger_process_zero _ _ _ _ _ _ _ _ _ Hd Hf Hi H)
    as (H1 & H2 & H3).
  auto.
Qed.

Lemma hundred_hertz_range : truncate (TP_RANGE * 100) = 1%Z.
Proof.
  replace (TP_RANGE * 100) with (IZR 1) by (unfold TP_RANGE; lra).
  apply truncate_IZR.
Qed.

Lemma silent_input_ready : block_ready silent_input 0 2.
Proof. split; [reflexivity|]. eexists; split; reflexivity. Qed.

Lemma flanger_silence_witness :
  exists st' inb',
    Flanger.process
      (Flanger.setFeedback
         (Flanger.initialize (Flanger.constructed 0 0) 1 100) 2)
      silent_input 0 2 1 0 1 = Ok (st', inb') /\
    all_zero inb'.
Proof.
  assert (Hr : flanger_ready
                 (Flanger.setFeedback
                    (Flanger.initialize (Flanger.constructed 0 0) 1 100) 2)
                 0 2).
  { pose proof (flanger_initialized_ready 0 0 1 100 0) as H.
    rewrite hundred_hertz_range in H. specialize (H ltac:(lia) ltac:(lia)).
    unfold flanger_ready in *. simpl in *. exact H. }
  destruct (flanger_process_runs _ silent_input 2 1 0 2 2 1 Hr
              silent_input_ready) as (st' & inb' & Hrun & _); try lia.
  exists st', inb'. split; [exact Hrun|].
  eapply (flanger_silence _ _ _ _ _ _ _ _ _
            (fs_setFeedback _ _ (fs_initialize _ _ _))
            silent_input_all_zero Hrun).
Defined.

(** ** A call of [process] on an object that was never initialized *)

Lemma zget_nil {A : Type} (i : Z) : exists e, zget (@nil A) i = Err e.
Proof.
  unfold zget. destruct (i <? 0)%Z; [eauto|].
  destruct (Z.to_nat i); simpl; eauto.
Qed.

Lemma copyFromWithRamp_nil (b' : AudioBuffer) (ch destStart : Z)
    (src : list R) (srcOff n : Z) (gain : R) :
  copyFromWithRamp [] ch destStart src srcOff n gain = Ok b' ->
  (n <= 0)%Z /\ b' = [].
Proof.
  unfold copyFromWithRamp. destruct (Z.leb_spec n 0) as [H|H]; intros E.
  - inv_Ok E. auto.
  - destruct (@zget_nil (list R) ch) as [e He]. rewrite He in E.
    discriminate.
Qed.

Lemma fill_ring_nil (b' : AudioBuffer) (wp len ch : Z) (data : list R)
    (off : Z) (gain : R) :
  fill_ring [] wp len ch 0 data off gain = Ok b' ->
  (len <= 0)%Z /\ b' = [].
Proof.
  unfold fill_ring. destruct (Z.gtb_spec 0 (len + wp)) as [H|H]; intros E.
  - apply copyFromWithRamp_nil in E. exact E.
  - inv_bind E. apply copyFromWithRamp_nil in E0. destruct E0 as [H1 ->].
    apply copyFromWithRamp_nil in E. destruct E as [H2 ->].
    split; [lia | reflexivity].
Qed.

Lemma not_Ok_Err {A : Type} (m : result A) :
  (forall a, m <> Ok a) -> exists e, m = Err e.
Proof.
  intros H. destruct m as [a|e]; [exfalso; now apply (H a) | eauto].
Qed.

(** X9.  On an object whose delay buffer has no channel, as the constructor
    leaves it until [initialize] is called, every call of [process] that
    has a nonempty block or at least one sample to process stops with an
    error, in the flanger and in the pitch shifter: the block write finds
    no channel to write to, and with an empty block the sample loop takes a
    remainder by the buffer size 0. *)
Theorem process_uninitialized (inb : AudioBuffer)
    (start n md ch : Z) (g : R) :
  (0 < getNumSamples inb \/ 0 < n)%Z ->
  (forall st,
     Flanger.delayBuffer st = [] ->
     exists e, Flanger.process st inb start n md ch g = Err e) /\
  (forall st,
     PitchShifter.delayBuffer st = [] ->
     exists e, PitchShifter.process st inb start n md ch g = Err e).
Proof.
  intros Hwork. split; intros st Hempty; apply not_Ok_Err; intros [st' inb'] H.
  - apply flanger_process_Ok in H.
    destruct H as (data & st0 & _ & Hfill & Hloop).
    apply flanger_fillDelaybuffer_Ok in Hfill. destruct Hfill as (b & Hb & _).
    rewrite Hempty in Hb, Hloop. change (getNumSamples []) with 0%Z in Hb, Hloop.
    apply fill_ring_nil in Hb. destruct Hb as [Hlen _].
    destruct (Z.to_nat n) as [|k] eqn:Hk; [lia|].
    cbn [Flanger.process_loop] in Hloop. inv_bind Hloop.
    destruct v as [st1 inb1]. apply flanger_process_sample_Ok in E.
    destruct E as (p & d1 & d2 & f1 & f2 & x & fb & _ & _ & Hsz & _).
    now apply Hsz.
  - apply shifter_process_Ok in H.
    destruct H as (data & st0 & _ & Hfill & Hloop).
    apply shifter_fillDelaybuffer_Ok in Hfill. destruct Hfill as (b & Hb & _).
    rewrite Hempty in Hb, Hloop. change (getNumSamples []) with 0%Z in Hb, Hloop.
    apply fill_ring_nil in Hb. destruct Hb as [Hlen _].
    destruct (Z.to_nat n) as [|k] eqn:Hk; [lia|].
    cbn [PitchShifter.process_loop] in Hloop. inv_bind Hloop.
    destruct v as [st1 inb1]. apply shifter_process_sample_Ok in E.
    destruct E as (p1 & p2 & d1 & d2 & _ & _ & _ & Hsz & _).
    now apply Hsz.
Qed.

Lemma process_uninitialized_witness :
  exists e,
    Flanger.process (Flanger.constructed 0 0) flanger_input 0 2 1 0 1 = Err e.
Proof.
  destruct (process_uninitialized flanger_input 0 2 1 0 1) as (H & _).
  - right. lia.
  - apply H. reflexivity.
Defined.

(** ** The samples a call of [Flanger::process] writes *)

(** The iteration for the sample [i] inside a call that runs without
    error. *)
Lemma flanger_process_at (st st' : Flanger.state) (inb inb' : AudioBuffer)
    (n md ch : Z) (g : R) (i : Z) :
  Flanger.process st inb 0 n md ch g = Ok (st', inb') ->
  (0 <= i < n)%Z ->
  let size := getNumSamples (Flanger.delayBuffer st) in
  exists data b sti inbi st1 inb1,
    zget inb ch = Ok data /\
    fill_ring (Flanger.delayBuffer st) (Flanger.delayBufferWritePosition st)
      (getNumSamples inb) ch size data 0 1 = Ok b /\
    Flanger.process_sample 0 md ch g size i (sti, inbi) = Ok (st1, inb1) /\
    flanger_frame (Flanger.with_delayBuffer st b) sti /\
    getSample inbi ch i = getSample inb ch i /\
    getSample inb' ch i = getSample inb1 ch i /\
    Flanger.process_loop (Z.to_nat n - Z.to_nat i - 1) 0 md ch g size (i + 1)
      (st1, inb1) = Ok (st', inb').
Proof.
  intros H Hi size. apply flanger_process_Ok in H.
  destruct H as (data & st0 & Hdata & Hfill & Hloop). fold size in Hfill, Hloop.
  apply flanger_fillDelaybuffer_Ok in Hfill. destruct Hfill as (b & Hb & ->).
  replace (Z.to_nat n) with (Z.to_nat i + S (Z.to_nat n - Z.to_nat i - 1))%nat
    in Hloop by lia.
  apply flanger_process_loop_split in Hloop.
  destruct Hloop as ([sti inbi] & [st1 inb1] & Hpre & Hstep & Hpost).
  pose proof (flanger_process_loop_frame _ _ _ _ _ _ _ _ _ _ _ Hpre)
    as (Fpre & _ & Bpre).
  pose proof (flanger_process_loop_frame _ _ _ _ _ _ _ _ _ _ _ Hpost)
    as (_ & _ & Bpost).
  rewrite Z2Nat.id in Hstep, Hpost by lia.
  rewrite !Z.add_0_l in Hstep, Hpost.
  exists data, b, sti, inbi, st1, inb1.
  split; [exact Hdata|]. split; [exact Hb|]. split; [exact Hstep|].
  split; [exact Fpre|].
  split; [apply Bpre; lia|]. split; [apply Bpost; lia | exact Hpost].
Qed.

Lemma fill_ring_written (b b' : AudioBuffer) (wp len ch size : Z)
    (data : list R) (gain : R) :
  has_line b ch size ->
  (0 <= wp < size)%Z ->
  Z.of_nat (length data) = len ->
  (len <= size)%Z ->
  fill_ring b wp len ch size data 0 gain = Ok b' ->
  exists line',
    zget b' ch = Ok line' /\
    forall i, (0 <= i < len)%Z ->
      exists x, zget data i = Ok x /\
                zget line' ((wp + i) mod size) = Ok (x * gain).
Proof.
  intros (line & Hl & Hs) Hwp Hlen Hle Hfill.
  destruct (fill_ring_spec b wp len ch size data 0 gain line Hl Hs Hwp
              ltac:(lia) ltac:(lia) ltac:(lia))
    as (b2 & line' & Hfill2 & Hl' & _ & _ & Hin & _).
  rewrite Hfill in Hfill2. injection Hfill2 as <-.
  exists line'. split; [exact Hl'|]. intros i Hi.
  destruct (Hin i Hi) as (x & Hx & Hy). rewrite Z.add_0_l in Hx. eauto.
Qed.

(** X10.  With [feedbackLevel = 0] and [maxDelayInSamples] 0 or 1 the sine
    modulator returns the delay 0, and a call of [process] on a ready
    flanger returns each input sample mixed with itself:
    [DeviceGain * (input + flangerDepth * input)].  The delay line is read
    at the very cell the block write has just filled. *)
Theorem flanger_zero_delay (st : Flanger.state) (inb : AudioBuffer)
    (n md ch size len : Z) (g : R) :
  flanger_ready st ch size ->
  block_ready inb ch len ->
  (len <= size)%Z ->
  (n <= len)%Z ->
  (0 <= md < 2)%Z -> (md < size)%Z ->
  Flanger.feedbackLevel st = 0 ->
  exists st' inb',
    Flanger.process st inb 0 n md ch g = Ok (st', inb') /\
    forall i, (0 <= i < n)%Z ->
      exists x,
        getSample inb ch i = Ok x /\
        getSample inb' ch i = Ok (g * (x + Flanger.flangerDepth st * x)).
Proof.
  intros Hst Hin Hle Hn Hmd Hmds Hfl.
  destruct (flanger_process_runs st inb n md ch size len g Hst Hin Hle Hn
              ltac:(lia)) as (st' & inb' & Hrun & _).
  exists st', inb'. split; [exact Hrun|]. intros i Hi.
  destruct (flanger_process_at _ _ _ _ _ _ _ _ i Hrun Hi)
    as (data & b & sti & inbi & st1 & inb1
        & Hdata & Hb & Hstep & Fpre & Hpre & Hpost & _).
  destruct Hst as (Hsize & _ & Hns & Hdl & _ & _ & _ & Hwp & _).
  destruct Hin as (Hlen & data' & Hdata' & Hdlen).
  rewrite Hdata in Hdata'. injection Hdata' as <-.
  rewrite Hns, Hlen in Hb. rewrite Hns in Hstep.
  destruct (fill_ring_written _ _ _ _ _ _ _ _ Hdl Hwp Hdlen Hle Hb)
    as (line' & Hl' & Hcells).
  destruct (Hcells i ltac:(lia)) as (x & Hx & Hcell).
  apply flanger_process_sample_Ok in Hstep.
  destruct Hstep as (p & d1 & d2 & f1 & f2 & x' & fb & _ & _ & _ & Hstep).
  cbv zeta in Hstep.
  destruct Hstep as (Hd1 & _ & _ & _ & Hx' & _ & Hout & _).
  destruct Fpre as (_ & Fdepth & Ffl & _ & Fwp & _ & _ & _ & Fdb).
  simpl in Fdepth, Ffl, Fwp, Fdb.
  rewrite lfo_value_low, truncate_IZR in Hd1, Hout by lia.
  rewrite Fdepth, Ffl, Hfl in Hout. rewrite Fwp, Fdb in Hd1.
  rewrite Z.add_0_l in Hx', Hout. rewrite Hpre in Hx'.
  assert (Ex : getSample inb ch i = Ok x)
    by (unfold getSample; rewrite Hdata; exact Hx).
  rewrite Ex in Hx'. injection Hx' as <-.
  apply getSample_Ok in Hd1. destruct Hd1 as (l2 & Hl2 & Hd1).
  rewrite Hl' in Hl2. injection Hl2 as <-.
  apply ring_read in Hd1; [|lia|lia]. unfold readAt in Hd1.
  rewrite Z.sub_0_r, Hcell in Hd1. injection Hd1 as <-.
  exists x. split; [exact Ex|].
  rewrite Hpost. apply getSample_setSample_same in Hout. rewrite Hout.
  f_equal. destruct (Req_dec_T 0 0) as [_|Hne]; [|contradiction].
  unfold blend. ring.
Qed.

Lemma flanger_zero_delay_witness :
  exists st' inb',
    Flanger.process flanger_example flanger_input 0 2 1 0 1 = Ok (st', inb') /\
    getSample inb' 0 1 = Ok (1 * (2 + 5 / 10 * 2)).
Proof.
  destruct (flanger_zero_delay flanger_example flanger_input 2 1 0 2 2 1
              flanger_example_ready flanger_input_ready)
    as (st' & inb' & Hrun & H); try lia; try reflexivity.
  exists st', inb'. split; [exact Hrun|].
  destruct (H 1%Z ltac:(lia)) as (x & Hx & Hy).
  injection Hx as <-. exact Hy.
Defined.

(** ** The feedback buffer after a call *)

Lemma mod_shift_distinct (a t s : Z) :
  (0 < s)%Z -> (0 < t < s)%Z -> ((a + t) mod s <> a mod s)%Z.
Proof.
  intros Hs Ht E.
  assert (H : ((a + t - a) mod s = 0)%Z).
  { rewrite Zminus_mod, E, Z.sub_diag. apply Z.mod_0_l. lia. }
  replace (a + t - a)%Z with t in H by ring.
  rewrite Z.mod_small in H; lia.
Qed.

Lemma flanger_process_loop_feedback (md ch : Z) (g : R) (size : Z) :
  (0 < size)%Z ->
  forall (k : nat) (s : Z) (st st' : Flanger.state) (inb inb' : AudioBuffer),
    Flanger.process_loop k 0 md ch g size s (st, inb) = Ok (st', inb') ->
    (0 <= Flanger.feedbackBufferWritePosition st + s)%Z ->
    forall c,
      (forall j, (s <= j < s + Z.of_nat k)%Z ->
         c <> ((Flanger.feedbackBufferWritePosition st + j) mod size)%Z) ->
      getSample (Flanger.feedbackBuffer st') ch c
      = getSample (Flanger.feedbackBuffer st) ch c.
Proof.
  intros Hsize. induction k as [|k IH]; intros s st st' inb inb' H Hw c Hc.
  - simpl in H. inv_Ok H. reflexivity.
  - cbn [Flanger.process_loop] in H. inv_bind H. destruct v as [st1 inb1].
    pose proof (flanger_process_sample_frame _ _ _ _ _ _ _ _ _ _ E)
      as ((_ & _ & _ & _ & _ & Ffw & _) & _).
    apply flanger_process_sample_Ok in E.
    destruct E as (p & d1 & d2 & f1 & f2 & x & fb & _ & _ & _ & E).
    cbv zeta in E. destruct E as (_ & _ & _ & _ & _ & Hfb & _ & Hst1).
    rewrite (IH (s + 1)%Z st1 st' inb1 inb' H).
    + rewrite Hst1. simpl.
      eapply getSample_setSample_other; [exact Hfb|]. right.
      rewrite rem_mod_nonneg by lia. apply Hc. lia.
    + rewrite Ffw. lia.
    + intros j Hj. rewrite Ffw. apply Hc. lia.
Qed.

(** X11.  After a call of [process] on a ready flanger, the feedback buffer
    holds the undamped output of the call: for each processed sample [i]
    the cell [(feedbackBufferWritePosition + i) mod size] of the channel
    holds a value [y] and the output sample is [DeviceGain * y].  No later
    sample of the same call overwrites the cell, the block being at most
    [size] long. *)
Theorem flanger_feedback_records (st : Flanger.state) (inb : AudioBuffer)
    (n md ch size len : Z) (g : R) :
  flanger_ready st ch size ->
  block_ready inb ch len ->
  (len <= size)%Z ->
  (n <= len)%Z ->
  (0 <= md < size)%Z ->
  exists st' inb',
    Flanger.process st inb 0 n md ch g = Ok (st', inb') /\
    forall i, (0 <= i < n)%Z ->
      exists y,
        getSample (Flanger.feedbackBuffer st') ch
          ((Flanger.feedbackBufferWritePosition st + i) mod size) = Ok y /\
        getSample inb' ch i = Ok (g * y).
Proof.
  intros Hst Hin Hle Hn Hmd.
  destruct (flanger_process_runs st inb n md ch size len g Hst Hin Hle Hn Hmd)
    as (st' & inb' & Hrun & _).
  exists st', inb'. split; [exact Hrun|]. intros i Hi.
  destruct (flanger_process_at _ _ _ _ _ _ _ _ i Hrun Hi)
    as (data & b & sti & inbi & st1 & inb1
        & _ & _ & Hstep & Fpre & _ & Hpost & Hrest).
  destruct Hst as (Hsize & _ & Hns & _ & _ & _ & _ & _ & Hfw).
  rewrite Hns in Hstep, Hrest.
  destruct Fpre as (_ & _ & _ & _ & _ & Ffw & _). simpl in Ffw.
  apply flanger_process_sample_Ok in Hstep.
  destruct Hstep as (p & d1 & d2 & f1 & f2 & x & fb & _ & _ & _ & Hstep).
  cbv zeta in Hstep. destruct Hstep as (_ & _ & _ & _ & _ & Hfb & Hout & Hst1).
  rewrite Ffw in Hfb. rewrite rem_mod_nonneg in Hfb by lia.
  rewrite Z.add_0_l in Hout.
  eexists. split.
  - rewrite (flanger_process_loop_feedback md ch g size Hsize _ _ _ _ _ _
               Hrest).
    + rewrite Hst1. simpl. eapply getSample_setSample_same. exact Hfb.
    + rewrite Hst1. simpl. rewrite Ffw. lia.
    + intros j Hj. rewrite Hst1. simpl. rewrite Ffw.
      replace (Flanger.feedbackBufferWritePosition st + j)%Z
        with (Flanger.feedbackBufferWritePosition st + i + (j - i))%Z by ring.
      intros E. symmetry in E. revert E. apply mod_shift_distinct; lia.
  - rewrite Hpost. eapply getSample_setSample_same. exact Hout.
Qed.

Lemma flanger_feedback_records_witness :
  exists st' inb' y,
    Flanger.process flanger_example flanger_input 0 2 1 0 1 = Ok (st', inb') /\
    getSample (Flanger.feedbackBuffer st') 0 1 = Ok y /\
    getSample inb' 0 1 = Ok (1 * y).
Proof.
  destruct (flanger_feedback_records flanger_example flanger_input 2 1 0 2 2 1
              flanger_example_ready flanger_input_ready)
    as (st' & inb' & Hrun & H); try lia.
  destruct (H 1%Z ltac:(lia)) as (y & Hy & Hz).
  exists st', inb', y. auto.
Defined.

(** ** The delay line across a commit *)

Lemma committed_read (wp len size k : Z) :
  (0 < size)%Z -> (0 <= wp)%Z -> (1 <= k <= len)%Z -> (len <= size)%Z ->
  Z.rem (size + (wp + len) mod size - k) size
  = ((wp + (len - k)) mod size)%Z.
Proof.
  intros Hs Hw Hk Hl.
  pose proof (Z.mod_pos_bound (wp + len) size Hs).
  rewrite rem_mod_nonneg by lia.
  replace (size + (wp + len) mod size - k)%Z
    with ((wp + len) mod size - k + 1 * size)%Z by ring.
  rewrite Z.mod_add by lia. rewrite Zminus_mod_idemp_l.
  f_equal. ring.
Qed.

(** X12.  Write a block of [len <= size] samples and commit it by [len]:
    the cell that the sample loop then takes as its read position for a
    delay of [k] samples, [(size + cursor - k) % size] with [1 <= k <= len],
    holds the sample written [k] places before the end of the block, times
    the gain.  It holds in the flanger and in the pitch shifter. *)
Theorem delay_line_round_trip (len ch size : Z) (data : list R) (gain : R) :
  Z.of_nat (length data) = len ->
  (len <= size)%Z ->
  (forall st,
     flanger_ready st ch size ->
     exists st1 st2,
       Flanger.fillDelaybuffer st len ch size data 0 gain = Ok st1 /\
       Flanger.adjustDelayBufferWritePosition st1 len = Ok st2 /\
       forall k, (1 <= k <= len)%Z ->
         exists x,
           zget data (len - k) = Ok x /\
           getSample (Flanger.delayBuffer st2) ch
             (Z.rem (size + Flanger.delayBufferWritePosition st2 - k) size)
           = Ok (x * gain)) /\
  (forall st,
     shifter_ready st ch size ->
     exists st1 st2,
       PitchShifter.fillDelaybuffer st len ch size data 0 gain = Ok st1 /\
       PitchShifter.adjustDelayBufferWritePosition st1 len = Ok st2 /\
       forall k, (1 <= k <= len)%Z ->
         exists x,
           zget data (len - k) = Ok x /\
           getSample (PitchShifter.delayBuffer st2) ch
             (Z.rem (size + PitchShifter.delayBufferWritePosition st2 - k)
                size)
           = Ok (x * gain)).
Proof.
  intros Hlen Hle. split; intros st Hst.
  - destruct (flanger_fill_runs st ch size len data gain Hst Hlen Hle)
      as (st1 & Hfill & _ & _ & _ & _).
    pose proof Hst as (Hsize & Hds & _ & Hdl & _ & _ & _ & Hwp & _).
    pose proof Hfill as Hb. apply flanger_fillDelaybuffer_Ok in Hb.
    destruct Hb as (b & Hb & ->).
    destruct (fill_ring_written _ _ _ _ _ _ _ _ Hdl Hwp Hlen Hle Hb)
      as (line' & Hl' & Hcells).
    eexists _, _. split; [exact Hfill|]. split.
    + unfold Flanger.adjustDelayBufferWritePosition. simpl.
      rewrite irem_nonzero by lia. rewrite rem_mod_nonneg by lia.
      reflexivity.
    + intros k Hk. simpl. rewrite Hds.
      destruct (Hcells (len - k)%Z ltac:(lia)) as (x & Hx & Hcell).
      exists x. split; [exact Hx|].
      rewrite committed_read by lia.
      unfold getSample. rewrite Hl'. exact Hcell.
  - destruct (shifter_fill_runs st ch size len data gain Hst Hlen Hle)
      as (st1 & Hfill & _).
    pose proof Hst as (Hsize & Hds & _ & Hdl & _ & _ & _ & Hwp).
    pose proof Hfill as Hb. apply shifter_fillDelaybuffer_Ok in Hb.
    destruct Hb as (b & Hb & ->).
    destruct (fill_ring_written _ _ _ _ _ _ _ _ Hdl Hwp Hlen Hle Hb)
      as (line' & Hl' & Hcells).
    eexists _, _. split; [exact Hfill|]. split.
    + unfold PitchShifter.adjustDelayBufferWritePosition. simpl.
      rewrite irem_nonzero by lia. rewrite rem_mod_nonneg by lia.
      reflexivity.
    + intros k Hk. simpl. rewrite Hds.
      destruct (Hcells (len - k)%Z ltac:(lia)) as (x & Hx & Hcell).
      exists x. split; [exact Hx|].
      rewrite committed_read by lia.
      unfold getSample. rewrite Hl'. exact Hcell.
Qed.

Lemma delay_line_round_trip_witness :
  exists st1 st2,
    Flanger.fillDelaybuffer flanger_example 2 0 2 [1; 2] 0 1 = Ok st1 /\
    Flanger.adjustDelayBufferWritePosition st1 2 = Ok st2 /\
    getSample (Flanger.delayBuffer st2) 0
      (Z.rem (2 + Flanger.delayBufferWritePosition st2 - 1) 2) = Ok (2 * 1).
Proof.
  destruct (delay_line_round_trip 2 0 2 [1; 2] 1) as (H & _);
    [reflexivity | lia |].
  destruct (H flanger_example flanger_example_ready) as (st1 & st2 & H1 & H2 & H3).
  exists st1, st2. split; [exact H1|]. split; [exact H2|].
  destruct (H3 1%Z ltac:(lia)) as (x & Hx & Hy).
  injection Hx as <-. exact Hy.
Defined.

(** ** The crossfade of the pitch shifter *)







(** ** One channel at a time *)

Lemma copyFromWithRamp_other (b b' : AudioBuffer) (ch destStart : Z)
    (src : list R) (srcOff n : Z) (gain : R) (ch' : Z) :
  copyFromWithRamp b ch destStart src srcOff n gain = Ok b' ->
  ch' <> ch -> zget b' ch' = zget b ch'.
Proof.
  unfold copyFromWithRamp. intros H Hne.
  destruct (n <=? 0)%Z; [inv_Ok H; reflexivity|].
  inv_bind H. inv_bind H. eapply zget_zset_other; eauto.
Qed.

Lemma fill_ring_other (b b' : AudioBuffer) (wp len ch size : Z)
    (data : list R) (off : Z) (gain : R) (ch' : Z) :
  fill_ring b wp len ch size data off gain = Ok b' ->
  ch' <> ch -> zget b' ch' = zget b ch'.
Proof.
  unfold fill_ring. intros H Hne. destruct (size >? len + wp)%Z.
  - eapply copyFromWithRamp_other; eauto.
  - inv_bind H.
    rewrite (copyFromWithRamp_other _ _ _ _ _ _ _ _ _ H Hne).
    eapply copyFromWithRamp_other; eauto.
Qed.

Lemma flanger_process_loop_other (start md ch : Z) (g : R) (size : Z) :
  forall (n : nat) (s : Z) (st st' : Flanger.state) (inb inb' : AudioBuffer),
    Flanger.process_loop n start md ch g size s (st, inb) = Ok (st', inb') ->
    forall ch', ch' <> ch ->
      zget (Flanger.sinePhase st') ch' = zget (Flanger.sinePhase st) ch' /\
      forall j, getSample (Flanger.feedbackBuffer st') ch' j
                = getSample (Flanger.feedbackBuffer st) ch' j.
Proof.
  induction n as [|n IH]; intros s st st' inb inb' H ch' Hne.
  - simpl in H. inv_Ok H. auto.
  - simpl in H. inv_bind H. destruct v as [st1 inb1].
    destruct (IH _ _ _ _ _ H ch' Hne) as [P2 B2].
    apply flanger_process_sample_Ok in E.
    destruct E as (p & d1 & d2 & f1 & f2 & x & fb & Hp & _ & _ & E).
    cbv zeta in E. destruct E as (_ & _ & _ & _ & _ & Hfb & _ & Hst1).
    rewrite Hst1 in P2, B2. simpl in P2, B2. split.
    + rewrite P2. apply zget_replace_nth_other; [|exact Hne].
      apply zget_bounds in Hp. lia.
    + intros j. rewrite B2. eapply getSample_setSample_other; eauto.
Qed.

Lemma shifter_process_loop_other (start md ch : Z) (g : R) (size : Z) :
  forall (n : nat) (s : Z) (st st' : PitchShifter.state)
         (inb inb' : AudioBuffer),
    PitchShifter.process_loop n start md ch g size s (st, inb)
    = Ok (st', inb') ->
    forall ch', ch' <> ch ->
      zget (PitchShifter.sawtoothPhase1 st') ch'
      = zget (PitchShifter.sawtoothPhase1 st) ch' /\
      zget (PitchShifter.sawtoothPhase2 st') ch'
      = zget (PitchShifter.sawtoothPhase2 st) ch'.
Proof.
  induction n as [|n IH]; intros s st st' inb inb' H ch' Hne.
  - simpl in H. inv_Ok H. auto.
  - simpl in H. inv_bind H. destruct v as [st1 inb1].
    destruct (IH _ _ _ _ _ H ch' Hne) as [P1 P2].
    apply shifter_process_sample_frame in E.
    destruct E as (_ & _ & _ & Poth & _).
    destruct (Poth ch' Hne) as [E1 E2]. rewrite P1, P2, E1, E2. auto.
Qed.

(** X14.  A call of [process] for one channel, when it runs without error,
    touches nothing of another channel: not its samples in the block, not
    its delay line, not its feedback line, not its modulator phases.  In
    its own channel it leaves the samples of the block outside
    [startSample .. startSample + numSamples - 1] as they were. *)
Theorem process_one_channel (start n md ch : Z) (g : R) :
  (forall st st' inb inb',
     Flanger.process st inb start n md ch g = Ok (st', inb') ->
     (forall j, (j < start \/ start + Z.max 0 n <= j)%Z ->
        getSample inb' ch j = getSample inb ch j) /\
     forall ch', ch' <> ch ->
       (forall j, getSample inb' ch' j = getSample inb ch' j) /\
       zget (Flanger.delayBuffer st') ch' = zget (Flanger.delayBuffer st) ch' /\
       (forall j, getSample (Flanger.feedbackBuffer st') ch' j
                  = getSample (Flanger.feedbackBuffer st) ch' j) /\
       zget (Flanger.sinePhase st') ch' = zget (Flanger.sinePhase st) ch') /\
  (forall st st' inb inb',
     PitchShifter.process st inb start n md ch g = Ok (st', inb') ->
     (forall j, (j < start \/ start + Z.max 0 n <= j)%Z ->
        getSample inb' ch j = getSample inb ch j) /\
     forall ch', ch' <> ch ->
       (forall j, getSample inb' ch' j = getSample inb ch' j) /\
       zget (PitchShifter.delayBuffer st') ch'
       = zget (PitchShifter.delayBuffer st) ch' /\
       zget (PitchShifter.sawtoothPhase1 st') ch'
       = zget (PitchShifter.sawtoothPhase1 st) ch' /\
       zget (PitchShifter.sawtoothPhase2 st') ch'
       = zget (PitchShifter.sawtoothPhase2 st) ch').
Proof.
  split; intros st st' inb inb' H.
  - apply flanger_process_Ok in H.
    destruct H as (data & st0 & _ & Hfill & Hloop).
    apply flanger_fillDelaybuffer_Ok in Hfill. destruct Hfill as (b & Hb & ->).
    pose proof (flanger_process_loop_frame _ _ _ _ _ _ _ _ _ _ _ Hloop)
      as ((_ & _ & _ & _ & _ & _ & _ & _ & Fdb) & _ & B).
    simpl in Fdb. split.
    + intros j Hj. apply B. lia.
    + intros ch' Hne.
      destruct (flanger_process_loop_other _ _ _ _ _ _ _ _ _ _ _ Hloop ch' Hne)
        as [P F].
      split; [intros j; apply B; now left|].
      split; [rewrite Fdb; eapply fill_ring_other; eauto|].
      split; [exact F | exact P].
  - apply shifter_process_Ok in H.
    destruct H as (data & st0 & _ & Hfill & Hloop).
    apply shifter_fillDelaybuffer_Ok in Hfill. destruct Hfill as (b & Hb & ->).
    pose proof (shifter_process_loop_frame _ _ _ _ _ _ _ _ _ _ _ Hloop)
      as ((_ & _ & _ & _ & _ & _ & Fdb) & _ & _ & _ & _ & B).
    simpl in Fdb. split.
    + intros j Hj. apply B. lia.
    + intros ch' Hne.
      destruct (shifter_process_loop_other _ _ _ _ _ _ _ _ _ _ _ Hloop ch' Hne)
        as [P1 P2].
      split; [intros j; apply B; now left|].
      split; [rewrite Fdb; eapply fill_ring_other; eauto|].
      split; [exact P1 | exact P2].
Qed.

Lemma process_one_channel_witness :
  exists st' inb',
    Flanger.process flanger_example flanger_input 0 2 1 0 1 = Ok (st', inb') /\
    getSample inb' 1 0 = Ok 0 /\
    zget (Flanger.sinePhase st') 1 = Ok 0.
Proof.
  destruct (flanger_process_runs flanger_example flanger_input 2 1 0 2 2 1
              flanger_example_ready flanger_input_ready)
    as (st' & inb' & Hrun & _); try lia.
  exists st', inb'. split; [exact Hrun|].
  destruct (process_one_channel 0 2 1 0 1) as (H & _).
  destruct (H _ _ _ _ Hrun) as (_ & Hoth).
  destruct (Hoth 1%Z ltac:(lia)) as (Hb & _ & _ & Hp).
  rewrite Hb, Hp. split; reflexivity.
Defined.

(** ** The phase across a call *)

Lemma phase_after_range (inc : R) (n : nat) (p : R) :
  0 <= p < 1 -> 0 <= inc < 1 -> 0 <= phase_after inc n p < 1.
Proof.
  intros Hp Hi. induction n as [|n IH]; [exact Hp|].
  unfold phase_after in *. simpl. now apply advance_phase_range.
Qed.

(** X15.  A call of [process] that runs without error advances the
    modulator phases of its channel by exactly one step per processed
    sample, [max (numSamples, 0)] steps in all, so the modulation continues
    from block to block without a jump; with the phase in [0, 1) before
    the call and an increment in [0, 1), it is in [0, 1) after it. *)
Theorem process_advances_phases (start n md ch : Z) (g : R) :
  (forall st st' inb inb' p,
     Flanger.process st inb start n md ch g = Ok (st', inb') ->
     zget (Flanger.sinePhase st) ch = Ok p ->
     let inc := Flanger.sinefrequency st / Flanger.sampleRate st in
     zget (Flanger.sinePhase st') ch = Ok (phase_after inc (Z.to_nat n) p) /\
     (0 <= p < 1 -> 0 <= inc < 1 ->
      0 <= phase_after inc (Z.to_nat n) p < 1)) /\
  (forall st st' inb inb' p1 p2,
     PitchShifter.process st inb start n md ch g = Ok (st', inb') ->
     zget (PitchShifter.sawtoothPhase1 st) ch = Ok p1 ->
     zget (PitchShifter.sawtoothPhase2 st) ch = Ok p2 ->
     let inc := sawtooth_increment st in
     zget (PitchShifter.sawtoothPhase1 st') ch
     = Ok (phase_after inc (Z.to_nat n) p1) /\
     zget (PitchShifter.sawtoothPhase2 st') ch
     = Ok (phase_after inc (Z.to_nat n) p2) /\
     (0 <= p1 < 1 -> 0 <= p2 < 1 -> 0 <= inc < 1 ->
      0 <= phase_after inc (Z.to_nat n) p1 < 1 /\
      0 <= phase_after inc (Z.to_nat n) p2 < 1)).
Proof.
  split.
  - intros st st' inb inb' p H Hp inc. apply flanger_process_Ok in H.
    destruct H as (data & st0 & _ & Hfill & Hloop).
    apply flanger_fillDelaybuffer_Ok in Hfill. destruct Hfill as (b & _ & ->).
    apply flanger_process_loop_frame in Hloop.
    destruct Hloop as (_ & P & _). simpl in P.
    split; [apply P; exact Hp|]. intros Hr Hi. now apply phase_after_range.
  - intros st st' inb inb' p1 p2 H Hp1 Hp2 inc. apply shifter_process_Ok in H.
    destruct H as (data & st0 & _ & Hfill & Hloop).
    apply shifter_fillDelaybuffer_Ok in Hfill. destruct Hfill as (b & _ & ->).
    apply shifter_process_loop_frame in Hloop.
    destruct Hloop as (_ & P & Q & _).
    change (sawtooth_increment (PitchShifter.with_delayBuffer st b))
      with inc in P, Q. simpl in P, Q.
    split; [apply P; exact Hp1|]. split; [apply Q; exact Hp2|].
    intros Hr1 Hr2 Hi. split; now apply phase_after_range.
Qed.

Lemma process_advances_phases_witness :
  exists st' inb',
    PitchShifter.process shifter_example flanger_input 0 1 1 0 1
    = Ok (st', inb') /\
    zget (PitchShifter.sawtoothPhase1 st') 0
    = Ok (phase_after (sawtooth_increment shifter_example) 1 0).
Proof.
  destruct shifter_example_run as (st' & inb' & Hrun & _).
  exists st', inb'. split; [exact Hrun|].
  destruct (process_advances_phases 0 1 1 0 1) as (_ & H).
  destruct (H _ _ _ _ 0 (5 / 10) Hrun) as (H1 & _); try reflexivity.
  exact H1.
Defined.

(** ** A block longer than the ring *)

Lemma copy_samples_writes (src : list R) (srcOff destStart : Z) (gain : R) :
  forall (n : nat) (i : Z) (dest dest' : list R),
    copy_samples n i dest destStart src srcOff gain = Ok dest' ->
    length dest' = length dest /\
    forall k, (i <= k < i + Z.of_nat n)%Z ->
      (0 <= destStart + k < Z.of_nat (length dest))%Z.
Proof.
  induction n as [|n IH]; intros i dest dest' H.
  - simpl in H. inv_Ok H. split; [reflexivity | lia].
  - simpl in H. inv_bind H. inv_bind H.
    pose proof (zset_length _ _ _ _ E0) as Hl.
    apply zset_Ok in E0. destruct E0 as [Hb _].
    apply IH in H. destruct H as [Hl' Hk]. split; [congruence|].
    intros k Hr. destruct (Z.eq_dec k i) as [->|Hne]; [exact Hb|].
    rewrite <- Hl. apply Hk. lia.
Qed.

Lemma copyFromWithRamp_writes (b b' : AudioBuffer) (ch destStart : Z)
    (src : list R) (srcOff n : Z) (gain : R) (size : Z) :
  has_line b ch size ->
  copyFromWithRamp b ch destStart src srcOff n gain = Ok b' ->
  has_line b' ch size /\
  forall k, (0 <= k < n)%Z -> (0 <= destStart + k < size)%Z.
Proof.
  intros (line & Hl & Hs) H. unfold copyFromWithRamp in H.
  destruct (Z.leb_spec n 0) as [Hn|Hn].
  - inv_Ok H. split; [exists line; auto | lia].
  - rewrite Hl in H. simpl in H. inv_bind H.
    apply copy_samples_writes in E. destruct E as [Hlen Hk]. split.
    + exists v. split; [eapply zget_zset_same; eauto | lia].
    + intros k Hr. rewrite <- Hs. apply Hk. lia.
Qed.

Lemma fill_ring_long_block (b : AudioBuffer) (wp len ch size : Z)
    (data : list R) (gain : R) :
  has_line b ch size ->
  (0 <= wp < size)%Z ->
  Z.of_nat (length data) = len ->
  (size < len)%Z ->
  ((2 * size < len + wp)%Z ->
   exists e, fill_ring b wp len ch size data 0 gain = Err e) /\
  ((len + wp <= 2 * size)%Z ->
   exists b' x,
     fill_ring b wp len ch size data 0 gain = Ok b' /\
     zget data size = Ok x /\
     getSample b' ch wp = Ok (x * gain)).
Proof.
  intros Hline Hwp Hlen Hlong. split.
  - intros Hover. apply not_Ok_Err. intros b' H. unfold fill_ring in H.
    destruct (Z.gtb_spec size (len + wp)); [lia|].
    inv_bind H.
    apply (copyFromWithRamp_writes _ _ _ _ _ _ _ _ size Hline) in E.
    destruct E as [Hline1 _].
    apply (copyFromWithRamp_writes _ _ _ _ _ _ _ _ size Hline1) in H.
    destruct H as [_ Hk]. specialize (Hk size ltac:(lia)). lia.
  - intros Hfit. destruct Hline as (line & Hl & Hs). unfold fill_ring.
    destruct (Z.gtb_spec size (len + wp)); [lia|].
    destruct (copyFromWithRamp_spec b ch wp data 0 (size - wp) gain line)
      as (b1 & line1 & Hc1 & Hg1 & Hl1 & _); try lia; auto.
    rewrite Hc1. simpl.
    destruct (copyFromWithRamp_spec b1 ch 0 data (0 + (size - wp))
                (len - (size - wp)) gain line1)
      as (b2 & line2 & Hc2 & Hg2 & _ & _ & Hin2 & _); try lia; auto.
    destruct (Hin2 wp ltac:(lia)) as (x & Hx & Hy).
    exists b2, x. split; [exact Hc2|]. split.
    + rewrite <- Hx. f_equal. lia.
    + unfold getSample. rewrite Hg2. simpl. rewrite <- Hy. f_equal.
Qed.

(** X16.  The block write does not check the block length against the
    ring.  With a block longer than the [size] cells of the ring, the
    second copy of the split starts again at cell 0: if it fits
    ([len + cursor <= 2 * size]) the call returns without error and the
    cell at the write cursor holds sample number [size] of the block, the
    first samples being overwritten; if it does not fit, the copy leaves
    the channel and the call stops with an error.  It is so in the flanger
    and in the pitch shifter. *)
Theorem fillDelaybuffer_long_block (len ch size : Z) (data : list R)
    (gain : R) :
  Z.of_nat (length data) = len ->
  (size < len)%Z ->
  (forall st,
     flanger_ready st ch size ->
     let wp := Flanger.delayBufferWritePosition st in
     ((2 * size < len + wp)%Z ->
      exists e,
        Flanger.fillDelaybuffer st len ch size data 0 gain = Err e) /\
     ((len + wp <= 2 * size)%Z ->
      exists st1 x,
        Flanger.fillDelaybuffer st len ch size data 0 gain = Ok st1 /\
        zget data size = Ok x /\
        getSample (Flanger.delayBuffer st1) ch wp = Ok (x * gain))) /\
  (forall st,
     shifter_ready st ch size ->
     let wp := PitchShifter.delayBufferWritePosition st in
     ((2 * size < len + wp)%Z ->
      exists e,
        PitchShifter.fillDelaybuffer st len ch size data 0 gain = Err e) /\
     ((len + wp <= 2 * size)%Z ->
      exists st1 x,
        PitchShifter.fillDelaybuffer st len ch size data 0 gain = Ok st1 /\
        zget data size = Ok x /\
        getSample (PitchShifter.delayBuffer st1) ch wp = Ok (x * gain))).
Proof.
  intros Hlen Hlong. split; intros st Hst wp.
  - destruct Hst as (_ & _ & _ & Hdl & _ & _ & _ & Hwp & _).
    destruct (fill_ring_long_block _ wp len ch size data gain Hdl Hwp Hlen
                Hlong) as [Herr Hok].
    unfold Flanger.fillDelaybuffer. fold wp. split.
    + intros H. destruct (Herr H) as [e ->]. exists e. reflexivity.
    + intros H. destruct (Hok H) as (b' & x & -> & Hx & Hy).
      eexists _, x. split; [reflexivity|]. split; [exact Hx | exact Hy].
  - destruct Hst as (_ & _ & _ & Hdl & _ & _ & _ & Hwp).
    destruct (fill_ring_long_block _ wp len ch size data gain Hdl Hwp Hlen
                Hlong) as [Herr Hok].
    unfold PitchShifter.fillDelaybuffer. fold wp. split.
    + intros H. destruct (Herr H) as [e ->]. exists e. reflexivity.
    + intros H. destruct (Hok H) as (b' & x & -> & Hx & Hy).
      eexists _, x. split; [reflexivity|]. split; [exact Hx | exact Hy].
Qed.

Lemma fillDelaybuffer_long_block_witness :
  exists st1,
    Flanger.fillDelaybuffer flanger_example 3 0 2 [1; 2; 3] 0 1 = Ok st1 /\
    getSample (Flanger.delayBuffer st1) 0 0 = Ok (3 * 1).
Proof.
  destruct (fillDelaybuffer_long_block 3 0 2 [1; 2; 3] 1) as (H & _);
    [reflexivity | lia |].
  destruct (H flanger_example flanger_example_ready) as (_ & Hok).
  destruct Hok as (st1 & x & H1 & Hx & Hy); [simpl; lia|].
  injection Hx as <-. exists st1. split; [exact H1 | exact Hy].
Defined.

(** ** A sawtooth modulator called on its own *)

Lemma antiphase_needs_whole_shift (p1 p2 inc : R) (k : Z) :
  antiphase p1 p2 ->
  0 < inc < 1 ->
  ~ antiphase (p1 + inc + IZR k) p2 /\ ~ antiphase p1 (p2 + inc + IZR k).
Proof.
  intros [a Ha] Hinc.
  assert (Hno : forall m : Z, inc <> IZR m).
  { intros m E. rewrite E in Hinc. destruct Hinc as [H0 H1].
    apply lt_IZR in H0. apply lt_IZR in H1. lia. }
  split; intros [b Hb].
  - apply (Hno (a - k - b)%Z). rewrite !minus_IZR. lra.
  - apply (Hno (b - a - k)%Z). rewrite !minus_IZR. lra.
Qed.

(** X17.  [sawtooth1] and [sawtooth2] are public, but each advances its own
    phase only.  On a pitch shifter whose two phases are in anti-phase,
    with an increment strictly between 0 and 1, a call of one of them on
    its own returns and leaves the two phases out of anti-phase: only the
    paired advance that [process] makes keeps the offset of a half. *)
Theorem sawtooth_alone_leaves_antiphase (st : PitchShifter.state)
    (md ch : Z) (p1 p2 : R) :
  PitchShifter.sampleRate st <> 0 ->
  zget (PitchShifter.sawtoothPhase1 st) ch = Ok p1 ->
  zget (PitchShifter.sawtoothPhase2 st) ch = Ok p2 ->
  antiphase p1 p2 ->
  0 < sawtooth_increment st < 1 ->
  (exists st1 v q1,
     PitchShifter.sawtooth1 st md ch = Ok (st1, v) /\
     zget (PitchShifter.sawtoothPhase1 st1) ch = Ok q1 /\
     zget (PitchShifter.sawtoothPhase2 st1) ch = Ok p2 /\
     q1 = wrap (p1 + sawtooth_increment st) /\
     ~ antiphase q1 p2) /\
  (exists st2 v q2,
     PitchShifter.sawtooth2 st md ch = Ok (st2, v) /\
     zget (PitchShifter.sawtoothPhase1 st2) ch = Ok p1 /\
     zget (PitchShifter.sawtoothPhase2 st2) ch = Ok q2 /\
     q2 = wrap (p2 + sawtooth_increment st) /\
     ~ antiphase p1 q2).
Proof.
  intros Hsr Hp1 Hp2 Hanti Hinc. split.
  - destruct (advance_phase_shift (sawtooth_increment st) p1) as [k Hk].
    eexists _, _, _. split; [apply (sawtooth1_eq st md ch p1 Hsr Hp1)|].
    split; [simpl; eapply zget_replace_nth_same; eauto|].
    split; [exact Hp2|]. split; [reflexivity|].
    rewrite Hk. now apply antiphase_needs_whole_shift.
  - destruct (advance_phase_shift (sawtooth_increment st) p2) as [k Hk].
    eexists _, _, _. split; [apply (sawtooth2_eq st md ch p2 Hsr Hp2)|].
    split; [exact Hp1|].
    split; [simpl; eapply zget_replace_nth_same; eauto|].
    split; [reflexivity|].
    rewrite Hk. now apply antiphase_needs_whole_shift.
Qed.

(** On [shifter_example] a lone [sawtooth1] moves the first phase to a
    quarter while the second stays at a half. *)
Lemma sawtooth_alone_leaves_antiphase_witness :
  exists st1 v,
    PitchShifter.sawtooth1 shifter_example 1 0 = Ok (st1, v) /\
    zget (PitchShifter.sawtoothPhase1 st1) 0 = Ok (1 / 4) /\
    zget (PitchShifter.sawtoothPhase2 st1) 0 = Ok (5 / 10) /\
    ~ antiphase (1 / 4) (5 / 10).
Proof.
  assert (Hinc : sawtooth_increment shifter_example = 1 / 4)
    by (unfold sawtooth_increment; simpl; lra).
  destruct (sawtooth_alone_leaves_antiphase shifter_example 1 0 0 (5 / 10))
    as ((st1 & v & q1 & Hrun & H1 & H2 & Hq & Hno) & _).
  - simpl. lra.
  - reflexivity.
  - reflexivity.
  - exists 0%Z. lra.
  - rewrite Hinc. lra.
  - assert (E : q1 = 1 / 4).
    { rewrite Hq, Hinc. unfold wrap.
      destruct (Rge_dec (0 + 1 / 4) 1); lra. }
    rewrite E in H1, Hno. exists st1, v. auto.
Defined.

(** ** Division by the sawtooth frequency *)


Lemma shifter_initialized_runnable (tr ds spb : Z) (SR : R) (ch : Z) :
  (0 < spb + truncate (TP_RANGE * SR))%Z ->
  (0 <= ch < 2)%Z ->
  shifter_runnable
    (PitchShifter.initialize (PitchShifter.constructed tr ds) spb SR)
    ch (spb + truncate (TP_RANGE * SR)).
Proof.
  intros Hsize Hch.
  destruct (initialized_lines spb SR ch Hsize Hch) as [Hn Hl].
  destruct (two_phases 0 0 ch Hch) as (p & Hp & Hp0).
  destruct (two_phases (5 / 10) (5 / 10) ch Hch) as (q & Hq & Hq0).
  unfold shifter_runnable. simpl.
  split; [exact Hsize|]. split; [reflexivity|]. split; [exact Hn|].
  split; [exact Hl|].
  split; [exists p; split; [exact Hp | destruct Hp0; lra]|].
  split; [exists q; split; [exact Hq | destruct Hq0; lra]|].
  split; [lra | lia].
Qed.




(** ** Silence in, silence out: the pitch shifter *)

(** A sample loop that runs at least once divides by
    [maxDelayInSamples] in the gains. *)
Lemma shifter_process_loop_needs (start md ch : Z) (g : R) (size : Z)
    (n : nat) (s : Z) (st st' : PitchShifter.state) (inb inb' : AudioBuffer) :
  (0 < n)%nat ->
  PitchShifter.process_loop n start md ch g size s (st, inb) = Ok (st', inb') ->
  md <> 0%Z.
Proof.
  intros Hn H. destruct n as [|n]; [lia|].
  cbn [PitchShifter.process_loop] in H. inv_bind H. destruct v as [st1 inb1].
  apply shifter_process_sample_Ok in E.
  destruct E as (p1 & p2 & d1 & d2 & _ & _ & _ & _ & Hmd & _).
  intros ->. apply Hmd. reflexivity.
Qed.

(** C5, as the code has it.  A pitch shifter that was initialized and has
    been fed all-zero blocks only holds an all-zero delay buffer, and every
    call of [process] on an all-zero block leaves every sample of the
    block exactly 0, whatever the direction, the frequency (also the 0 it
    has before the first [setLevel]), the channel and [deviceGain], for
    every [maxDelayInSamples] other than 0, as long as the indices stay
    inside the buffers.  With [maxDelayInSamples = 0] a call that
    processes a sample computes the gain [sin (pi * 0 / 0)], which is not
    a number, and the output is not 0. *)
Theorem shifter_silence (st st' : PitchShifter.state)
    (inb inb' : AudioBuffer) (start n md ch : Z) (g : R) :
  silent_run st ->
  all_zero inb ->
  PitchShifter.process st inb start n md ch g = Ok (st', inb') ->
  all_zero inb' /\
  all_zero (PitchShifter.delayBuffer st') /\
  ((0 < n)%Z -> md <> 0%Z).
Proof.
  intros Hs Hi H. pose proof (silent_run_delayBuffer st Hs) as Hd.
  destruct (shifter_process_zero _ _ _ _ _ _ _ _ _ Hd Hi H) as [Hd' Hi'].
  split; [exact Hi'|]. split; [exact Hd'|].
  intros Hn. apply shifter_process_Ok in H.
  destruct H as (data & st0 & _ & Hfill & Hloop).
  apply shifter_process_loop_needs in Hloop; [exact Hloop | lia].
Qed.

Lemma shifter_fresh_eq :
  PitchShifter.initialize (PitchShifter.constructed 0 0) 1 100 = shifter_fresh.
Proof.
  unfold PitchShifter.initialize, shifter_fresh. simpl.
  rewrite hundred_hertz_range. reflexivity.
Qed.

Lemma shifter_fresh_silent : silent_run shifter_fresh.
Proof. rewrite <- shifter_fresh_eq. apply sl_initialize. Qed.

Lemma shifter_example_silent : silent_run shifter_example.
Proof.
  change shifter_example with (PitchShifter.setLevel shifter_fresh 11025).
  apply sl_setLevel, shifter_fresh_silent.
Qed.

Lemma shifter_fresh_runnable : shifter_runnable shifter_fresh 0 2.
Proof.
  rewrite <- shifter_fresh_eq.
  pose proof (shifter_initialized_runnable 0 0 1 100 0) as H.
  rewrite hundred_hertz_range in H. apply H; lia.
Qed.

(** The freshly initialized pitch shifter, its frequency still 0, turns a
    silent block into a silent block; so it does after [setLevel]. *)
Lemma shifter_silence_witness :
  PitchShifter.sawtoothFrequency shifter_fresh = 0 /\
  (exists st' inb',
     PitchShifter.process shifter_fresh silent_input 0 1 1 0 1
     = Ok (st', inb') /\
     all_zero inb') /\
  (exists st' inb',
     PitchShifter.process shifter_example silent_input 0 1 1 0 1
     = Ok (st', inb') /\
     all_zero inb').
Proof.
  split; [reflexivity|]. split.
  - destruct (runnable_process_runs shifter_fresh silent_input 1 1 0 2 2 1
                shifter_fresh_runnable silent_input_ready)
      as (st' & inb' & Hrun & _); try lia.
    exists st', inb'. split; [exact Hrun|].
    apply (shifter_silence _ _ _ _ _ _ _ _ _
             shifter_fresh_silent silent_input_all_zero Hrun).
  - destruct (runnable_process_runs shifter_example silent_input 1 1 0 2 2 1
                (shifter_ready_runnable _ _ _ shifter_example_ready)
                silent_input_ready)
      as (st' & inb' & Hrun & _); try lia.
    exists st', inb'. split; [exact Hrun|].
    apply (shifter_silence _ _ _ _ _ _ _ _ _
             shifter_example_silent silent_input_all_zero Hrun).
Defined.

Lemma shifter_silent_fill :
  PitchShifter.fillDelaybuffer shifter_example 2 0 2 [0; 0] 0 1
  = Ok shifter_silent_filled.
Proof. reflexivity. Qed.

(** With [maxDelayInSamples = 0] both sawtooth values are 0 and the
    argument of each gain is [pi * 0 / 0]. *)
Lemma shifter_process_sample_zero_maxDelay (start ch : Z) (g : R)
    (size i : Z) (st : PitchShifter.state) (inb : AudioBuffer) (p1 p2 : R) :
  PitchShifter.sampleRate st <> 0 ->
  zget (PitchShifter.sawtoothPhase1 st) ch = Ok p1 ->
  zget (PitchShifter.sawtoothPhase2 st) ch = Ok p2 ->
  size <> 0%Z ->
  PitchShifter.process_sample start 0 ch g size i (st, inb)
  = Err NonFinite.
Proof.
  intros Hsr Hp1 Hp2 Hsz. unfold PitchShifter.process_sample.
  rewrite (sawtooth1_eq st 0 ch p1 Hsr Hp1). cbn [bind].
  rewrite (sawtooth2_eq _ 0 ch p2); [| exact Hsr | exact Hp2].
  cbn [bind].
  repeat (rewrite irem_nonzero by assumption; cbn [bind]).
  rewrite fdiv_zero. reflexivity.
Qed.

(** A freshly initialized pitch shifter with a frequency set, fed an
    all-zero block with [maxDelayInSamples = 0]: whatever the phase [q],
    the sawtooth value is 0 and the quotient under the sine is [0 / 0],
    not a number; the sample that [process] writes is not 0, and the model
    cannot follow the call to its end. *)
Lemma zero_maxDelay_counterexample :
  silent_run shifter_example /\
  all_zero silent_input /\
  (forall q,
     float_div (PI * PitchShifter.ramp false 0 q) (IZR 0) = NotANumber) /\
  PitchShifter.process shifter_example silent_input 0 1 0 0 1
  = Err NonFinite.
Proof.
  split; [exact shifter_example_silent|].
  split; [exact silent_input_all_zero|]. split.
  - intros q. unfold PitchShifter.ramp, float_div.
    destruct (Req_dec_T 0 0) as [_|Hne]; [|contradiction].
    destruct (Req_dec_T (PI * (0 * q)) 0) as [_|Hne]; [reflexivity|].
    exfalso. apply Hne. ring.
  - unfold PitchShifter.process.
    change (zget silent_input 0) with (@Ok (list R) [0; 0]). cbn [bind].
    change (getNumSamples silent_input) with 2%Z.
    change (getNumSamples (PitchShifter.delayBuffer shifter_example))
      with 2%Z.
    rewrite shifter_silent_fill. cbn [bind].
    change (Z.to_nat 1) with 1%nat. cbn [PitchShifter.process_loop].
    rewrite (shifter_process_sample_zero_maxDelay 0 0 1 2 0
               shifter_silent_filled silent_input 0 (5 / 10));
      [reflexivity | simpl; lra | reflexivity | reflexivity | discriminate].
Qed.
